(** * Conservator assessment backend: tabular record store and record builders

    A shallow embedding of [backend.js] (a Google Apps Script backend that
    persists batches, items, selections and photos into a spreadsheet and a
    file store), together with the properties its specification states.

    Layout:
    - [JS]: the JavaScript values and built-ins the script relies on;
    - [Sheets]: the part of the spreadsheet service the script calls;
    - the functions of [backend.js], under their own names:
      [getHeaders_], [ensureSheet_], [nextFreeRowByHeader_],
      [appendRowAtKey_], [getAll_], [nextCodeForBatch_], [buildNotes_],
      [getNoteFromNotesRules_], [saveItem], [savePhotosDataUrls],
      [getFontData_] with its helpers [toId] and [mimeFor],
      [getLogoDataUrl_], [ensureClientFolder_], [newBatch] and
      [initializeDatabase] (the web endpoint [doGet], which only renders
      the page template, is not embedded, and [getSpreadsheet_] is the
      spreadsheet that the functions take as an argument);
    - the notions of the specification and sample data;
    - the properties.

    A function of the script that reads the spreadsheet takes it as an
    argument; one that changes it returns the spreadsheet it leaves; one
    that throws returns a [result]; [saveItem] and [savePhotosDataUrls],
    which also use the clock, the identifier generator, the script
    properties, the file store and the console, run in the monad [M];
    [newBatch] also takes and returns the folders of the file store. *)

From Stdlib Require Import ZArith Lia Ascii DecimalString.
From Stdlib Require DecimalPos.
From stdpp Require Import gmap strings list fin_maps.

Local Open Scope nat_scope.

(* ===================================================================== *)
(** ** JavaScript values and built-ins *)
(* ===================================================================== *)

Module JS.

(** Primitive values that reach the script from a form payload or from a
    spreadsheet cell.  Numbers are restricted to integers; [undefined] and
    [null] are modelled by the absence of a value ([option value]). *)
Inductive value : Type :=
| VStr (s : string)
| VNum (n : Z)
| VBool (b : bool).

#[global] Instance value_eq_dec : EqDecision value.
Proof. solve_decision. Defined.

#[global] Instance value_inhabited : Inhabited value := populate (VStr "").

(** [ToBoolean]. *)
Definition truthy (v : value) : bool :=
  match v with
  | VStr s => negb (String.eqb s "")
  | VNum n => negb (n =? 0)%Z
  | VBool b => b
  end.

Definition truthy_opt (o : option value) : bool :=
  match o with Some v => truthy v | None => false end.

(** [String(v)]. *)
Definition String_ (v : value) : string :=
  match v with
  | VStr s => s
  | VNum n => NilEmpty.string_of_int (Z.to_int n)
  | VBool true => "true"
  | VBool false => "false"
  end.

(** [x || ''] where [x] may be undefined. *)
Definition or_empty (o : option value) : value :=
  match o with
  | Some v => if truthy v then v else VStr ""
  | None => VStr ""
  end.

(** [String(x || '')]. *)
Definition String_or_empty (o : option value) : string :=
  String_ (or_empty o).

(** [a === b] on primitives. *)
Definition strict_eq (a b : value) : bool := bool_decide (a = b).

(** [arr.indexOf(x)]: position of the first strictly equal element; the
    result [-1] of the script is [None] here. *)
Fixpoint indexOf (arr : list value) (x : value) : option nat :=
  match arr with
  | [] => None
  | y :: rest =>
      if strict_eq y x then Some 0
      else match indexOf rest x with
           | Some i => Some (S i)
           | None => None
           end
  end.

(** Texts are sequences of bytes: the UTF-8 encoding of the text of the
    script.  [utf8Decode] reads the code points of a text; a byte that does
    not belong to a well-formed sequence is kept, as a number above the
    code space. *)
Definition strayByte : Z := 1114112.

Definition codeOf (c : ascii) : Z := Z.of_N (N_of_ascii c).
Definition byteOf (n : Z) : ascii := ascii_of_N (Z.to_N n).

(** The six low bits of a continuation byte. *)
Definition contBits (c : ascii) : option Z :=
  let n := codeOf c in
  if (128 <=? n)%Z && (n <=? 191)%Z then Some (n - 128)%Z else None.

Fixpoint utf8Decode (s : string) : list Z :=
  match s with
  | EmptyString => []
  | String b0 r0 =>
      let n0 := codeOf b0 in
      let stray := (strayByte + n0)%Z in
      if (n0 <? 128)%Z then n0 :: utf8Decode r0
      else
        match r0 with
        | EmptyString => stray :: utf8Decode r0
        | String b1 r1 =>
            match contBits b1 with
            | None => stray :: utf8Decode r0
            | Some x1 =>
                if (194 <=? n0)%Z && (n0 <=? 223)%Z
                then ((n0 - 192) * 64 + x1)%Z :: utf8Decode r1
                else
                  match r1 with
                  | EmptyString => stray :: utf8Decode r0
                  | String b2 r2 =>
                      match contBits b2 with
                      | None => stray :: utf8Decode r0
                      | Some x2 =>
                          if (n0 =? 224)%Z && (32 <=? x1)%Z
                             || (225 <=? n0)%Z && (n0 <=? 239)%Z
                          then ((n0 - 224) * 4096 + x1 * 64 + x2)%Z :: utf8Decode r2
                          else
                            match r2 with
                            | EmptyString => stray :: utf8Decode r0
                            | String b3 r3 =>
                                match contBits b3 with
                                | None => stray :: utf8Decode r0
                                | Some x3 =>
                                    if (n0 =? 240)%Z && (16 <=? x1)%Z
                                       || (241 <=? n0)%Z && (n0 <=? 243)%Z
                                       || (n0 =? 244)%Z && (x1 <? 16)%Z
                                    then ((n0 - 240) * 262144 + x1 * 4096
                                          + x2 * 64 + x3)%Z :: utf8Decode r3
                                    else stray :: utf8Decode r0
                                end
                            end
                      end
                  end
            end
        end
  end.

(** The bytes of one code point. *)
Definition utf8Bytes (c : Z) : string :=
  if (c <? 128)%Z then String (byteOf c) ""
  else if (c <? 2048)%Z then
    String (byteOf (192 + c / 64)) (String (byteOf (128 + c mod 64)) "")
  else if (c <? 65536)%Z then
    String (byteOf (224 + c / 4096))
      (String (byteOf (128 + (c / 64) mod 64)) (String (byteOf (128 + c mod 64)) ""))
  else if (c <? strayByte)%Z then
    String (byteOf (240 + c / 262144))
      (String (byteOf (128 + (c / 4096) mod 64))
         (String (byteOf (128 + (c / 64) mod 64)) (String (byteOf (128 + c mod 64)) "")))
  else String (byteOf (c - strayByte)) "".

Fixpoint utf8Encode (l : list Z) : string :=
  match l with
  | [] => ""
  | c :: r => utf8Bytes c +:+ utf8Encode r
  end.


(** The letters of the ASCII range. *)
Definition is_upper (c : ascii) : bool :=
  let n := nat_of_ascii c in (65 <=? n) && (n <=? 90).

Definition is_lower (c : ascii) : bool :=
  let n := nat_of_ascii c in (97 <=? n) && (n <=? 122).

Definition lower_char (c : ascii) : ascii :=
  if is_upper c then ascii_of_nat (nat_of_ascii c + 32) else c.

Definition upper_char (c : ascii) : ascii :=
  if is_lower c then ascii_of_nat (nat_of_ascii c - 32) else c.

(** The text with its ASCII letters in lower case. *)
Fixpoint lowerASCII (s : string) : string :=
  match s with
  | EmptyString => EmptyString
  | String c r => String (lower_char c) (lowerASCII r)
  end.

(** [s.toUpperCase()] for a text of the ASCII range (the script upper-cases
    the texts [true] and [false] only). *)
Fixpoint toUpperCase (s : string) : string :=
  match s with
  | EmptyString => EmptyString
  | String c r => String (upper_char c) (toUpperCase r)
  end.

(** The case data of the Unicode character database (version 14).
    [lowerRanges] holds the simple lower-case mappings: [(first, last,
    step, delta)] stands for the code points [first], [first + step], ...,
    [last], each mapped to itself plus [delta].  [casedRanges] holds the
    cased letters that are not case-ignorable and [caseIgnorableRanges]
    the case-ignorable characters, as intervals. *)
Definition lowerRanges : list (Z * Z * Z * Z) :=
  [(65, 90, 1, 32); (192, 214, 1, 32); (216, 222, 1, 32); (256, 302, 2, 1);
   (306, 310, 2, 1); (313, 327, 2, 1); (330, 374, 2, 1); (376, 376, 1, (-121));
   (377, 381, 2, 1); (385, 385, 1, 210); (386, 388, 2, 1); (390, 390, 1, 206);
   (391, 391, 1, 1); (393, 394, 1, 205); (395, 395, 1, 1); (398, 398, 1, 79);
   (399, 399, 1, 202); (400, 400, 1, 203); (401, 401, 1, 1); (403, 403, 1, 205);
   (404, 404, 1, 207); (406, 406, 1, 211); (407, 407, 1, 209); (408, 408, 1, 1);
   (412, 412, 1, 211); (413, 413, 1, 213); (415, 415, 1, 214); (416, 420, 2, 1);
   (422, 422, 1, 218); (423, 423, 1, 1); (425, 425, 1, 218); (428, 428, 1, 1);
   (430, 430, 1, 218); (431, 431, 1, 1); (433, 434, 1, 217); (435, 437, 2, 1);
   (439, 439, 1, 219); (440, 440, 1, 1); (444, 444, 1, 1); (452, 452, 1, 2);
   (453, 453, 1, 1); (455, 455, 1, 2); (456, 456, 1, 1); (458, 458, 1, 2);
   (459, 475, 2, 1); (478, 494, 2, 1); (497, 497, 1, 2); (498, 500, 2, 1);
   (502, 502, 1, (-97)); (503, 503, 1, (-56)); (504, 542, 2, 1); (544, 544, 1, (-130));
   (546, 562, 2, 1); (570, 570, 1, 10795); (571, 571, 1, 1); (573, 573, 1, (-163));
   (574, 574, 1, 10792); (577, 577, 1, 1); (579, 579, 1, (-195)); (580, 580, 1, 69);
   (581, 581, 1, 71); (582, 590, 2, 1); (880, 882, 2, 1); (886, 886, 1, 1);
   (895, 895, 1, 116); (902, 902, 1, 38); (904, 906, 1, 37); (908, 908, 1, 64);
   (910, 911, 1, 63); (913, 929, 1, 32); (931, 939, 1, 32); (975, 975, 1, 8);
   (984, 1006, 2, 1); (1012, 1012, 1, (-60)); (1015, 1015, 1, 1); (1017, 1017, 1, (-7));
   (1018, 1018, 1, 1); (1021, 1023, 1, (-130)); (1024, 1039, 1, 80); (1040, 1071, 1, 32);
   (1120, 1152, 2, 1); (1162, 1214, 2, 1); (1216, 1216, 1, 15); (1217, 1229, 2, 1);
   (1232, 1326, 2, 1); (1329, 1366, 1, 48); (4256, 4293, 1, 7264); (4295, 4295, 1, 7264);
   (4301, 4301, 1, 7264); (5024, 5103, 1, 38864); (5104, 5109, 1, 8); (7312, 7354, 1, (-3008));
   (7357, 7359, 1, (-3008)); (7680, 7828, 2, 1); (7838, 7838, 1, (-7615)); (7840, 7934, 2, 1);
   (7944, 7951, 1, (-8)); (7960, 7965, 1, (-8)); (7976, 7983, 1, (-8)); (7992, 7999, 1, (-8));
   (8008, 8013, 1, (-8)); (8025, 8031, 2, (-8)); (8040, 8047, 1, (-8)); (8072, 8079, 1, (-8));
   (8088, 8095, 1, (-8)); (8104, 8111, 1, (-8)); (8120, 8121, 1, (-8)); (8122, 8123, 1, (-74));
   (8124, 8124, 1, (-9)); (8136, 8139, 1, (-86)); (8140, 8140, 1, (-9)); (8152, 8153, 1, (-8));
   (8154, 8155, 1, (-100)); (8168, 8169, 1, (-8)); (8170, 8171, 1, (-112)); (8172, 8172, 1, (-7));
   (8184, 8185, 1, (-128)); (8186, 8187, 1, (-126)); (8188, 8188, 1, (-9)); (8486, 8486, 1, (-7517));
   (8490, 8490, 1, (-8383)); (8491, 8491, 1, (-8262)); (8498, 8498, 1, 28); (8544, 8559, 1, 16);
   (8579, 8579, 1, 1); (9398, 9423, 1, 26); (11264, 11311, 1, 48); (11360, 11360, 1, 1);
   (11362, 11362, 1, (-10743)); (11363, 11363, 1, (-3814)); (11364, 11364, 1, (-10727)); (11367, 11371, 2, 1);
   (11373, 11373, 1, (-10780)); (11374, 11374, 1, (-10749)); (11375, 11375, 1, (-10783)); (11376, 11376, 1, (-10782));
   (11378, 11378, 1, 1); (11381, 11381, 1, 1); (11390, 11391, 1, (-10815)); (11392, 11490, 2, 1);
   (11499, 11501, 2, 1); (11506, 11506, 1, 1); (42560, 42604, 2, 1); (42624, 42650, 2, 1);
   (42786, 42798, 2, 1); (42802, 42862, 2, 1); (42873, 42875, 2, 1); (42877, 42877, 1, (-35332));
   (42878, 42886, 2, 1); (42891, 42891, 1, 1); (42893, 42893, 1, (-42280)); (42896, 42898, 2, 1);
   (42902, 42920, 2, 1); (42922, 42922, 1, (-42308)); (42923, 42923, 1, (-42319)); (42924, 42924, 1, (-42315));
   (42925, 42925, 1, (-42305)); (42926, 42926, 1, (-42308)); (42928, 42928, 1, (-42258)); (42929, 42929, 1, (-42282));
   (42930, 42930, 1, (-42261)); (42931, 42931, 1, 928); (42932, 42946, 2, 1); (42948, 42948, 1, (-48));
   (42949, 42949, 1, (-42307)); (42950, 42950, 1, (-35384)); (42951, 42953, 2, 1); (42960, 42960, 1, 1);
   (42966, 42968, 2, 1); (42997, 42997, 1, 1); (65313, 65338, 1, 32); (66560, 66599, 1, 40);
   (66736, 66771, 1, 40); (66928, 66938, 1, 39); (66940, 66954, 1, 39); (66956, 66962, 1, 39);
   (66964, 66965, 1, 39); (68736, 68786, 1, 64); (71840, 71871, 1, 32); (93760, 93791, 1, 32);
   (125184, 125217, 1, 34)]%Z.

Definition casedRanges : list (Z * Z) :=
  [(65, 90); (97, 122); (170, 170); (181, 181); (186, 186); (192, 214);
   (216, 246); (248, 442); (444, 447); (452, 659); (661, 687); (880, 883);
   (886, 887); (891, 893); (895, 895); (902, 902); (904, 906); (908, 908);
   (910, 929); (931, 1013); (1015, 1153); (1162, 1327); (1329, 1366); (1376, 1416);
   (4256, 4293); (4295, 4295); (4301, 4301); (4304, 4346); (4349, 4351); (5024, 5109);
   (5112, 5117); (7296, 7304); (7312, 7354); (7357, 7359); (7424, 7467); (7531, 7543);
   (7545, 7578); (7680, 7957); (7960, 7965); (7968, 8005); (8008, 8013); (8016, 8023);
   (8025, 8025); (8027, 8027); (8029, 8029); (8031, 8061); (8064, 8116); (8118, 8124);
   (8126, 8126); (8130, 8132); (8134, 8140); (8144, 8147); (8150, 8155); (8160, 8172);
   (8178, 8180); (8182, 8188); (8450, 8450); (8455, 8455); (8458, 8467); (8469, 8469);
   (8473, 8477); (8484, 8484); (8486, 8486); (8488, 8488); (8490, 8493); (8495, 8500);
   (8505, 8505); (8508, 8511); (8517, 8521); (8526, 8526); (8544, 8575); (8579, 8580);
   (9398, 9449); (11264, 11387); (11390, 11492); (11499, 11502); (11506, 11507); (11520, 11557);
   (11559, 11559); (11565, 11565); (42560, 42605); (42624, 42651); (42786, 42863); (42865, 42887);
   (42891, 42894); (42896, 42954); (42960, 42961); (42963, 42963); (42965, 42969); (42997, 42998);
   (43002, 43002); (43824, 43866); (43872, 43880); (43888, 43967); (64256, 64262); (64275, 64279);
   (65313, 65338); (65345, 65370); (66560, 66639); (66736, 66771); (66776, 66811); (66928, 66938);
   (66940, 66954); (66956, 66962); (66964, 66965); (66967, 66977); (66979, 66993); (66995, 67001);
   (67003, 67004); (68736, 68786); (68800, 68850); (71840, 71903); (93760, 93823); (119808, 119892);
   (119894, 119964); (119966, 119967); (119970, 119970); (119973, 119974); (119977, 119980); (119982, 119993);
   (119995, 119995); (119997, 120003); (120005, 120069); (120071, 120074); (120077, 120084); (120086, 120092);
   (120094, 120121); (120123, 120126); (120128, 120132); (120134, 120134); (120138, 120144); (120146, 120485);
   (120488, 120512); (120514, 120538); (120540, 120570); (120572, 120596); (120598, 120628); (120630, 120654);
   (120656, 120686); (120688, 120712); (120714, 120744); (120746, 120770); (120772, 120779); (122624, 122633);
   (122635, 122654); (125184, 125251); (127280, 127305); (127312, 127337); (127344, 127369)]%Z.

Definition caseIgnorableRanges : list (Z * Z) :=
  [(39, 39); (46, 46); (58, 58); (94, 94); (96, 96); (168, 168);
   (173, 173); (175, 175); (180, 180); (183, 184); (688, 879); (884, 885);
   (890, 890); (900, 901); (903, 903); (1155, 1161); (1369, 1369); (1375, 1375);
   (1425, 1469); (1471, 1471); (1473, 1474); (1476, 1477); (1479, 1479); (1524, 1524);
   (1536, 1541); (1552, 1562); (1564, 1564); (1600, 1600); (1611, 1631); (1648, 1648);
   (1750, 1757); (1759, 1768); (1770, 1773); (1807, 1807); (1809, 1809); (1840, 1866);
   (1958, 1968); (2027, 2037); (2042, 2042); (2045, 2045); (2070, 2093); (2137, 2139);
   (2184, 2184); (2192, 2193); (2200, 2207); (2249, 2306); (2362, 2362); (2364, 2364);
   (2369, 2376); (2381, 2381); (2385, 2391); (2402, 2403); (2417, 2417); (2433, 2433);
   (2492, 2492); (2497, 2500); (2509, 2509); (2530, 2531); (2558, 2558); (2561, 2562);
   (2620, 2620); (2625, 2626); (2631, 2632); (2635, 2637); (2641, 2641); (2672, 2673);
   (2677, 2677); (2689, 2690); (2748, 2748); (2753, 2757); (2759, 2760); (2765, 2765);
   (2786, 2787); (2810, 2815); (2817, 2817); (2876, 2876); (2879, 2879); (2881, 2884);
   (2893, 2893); (2901, 2902); (2914, 2915); (2946, 2946); (3008, 3008); (3021, 3021);
   (3072, 3072); (3076, 3076); (3132, 3132); (3134, 3136); (3142, 3144); (3146, 3149);
   (3157, 3158); (3170, 3171); (3201, 3201); (3260, 3260); (3263, 3263); (3270, 3270);
   (3276, 3277); (3298, 3299); (3328, 3329); (3387, 3388); (3393, 3396); (3405, 3405);
   (3426, 3427); (3457, 3457); (3530, 3530); (3538, 3540); (3542, 3542); (3633, 3633);
   (3636, 3642); (3654, 3662); (3761, 3761); (3764, 3772); (3782, 3782); (3784, 3789);
   (3864, 3865); (3893, 3893); (3895, 3895); (3897, 3897); (3953, 3966); (3968, 3972);
   (3974, 3975); (3981, 3991); (3993, 4028); (4038, 4038); (4141, 4144); (4146, 4151);
   (4153, 4154); (4157, 4158); (4184, 4185); (4190, 4192); (4209, 4212); (4226, 4226);
   (4229, 4230); (4237, 4237); (4253, 4253); (4348, 4348); (4957, 4959); (5906, 5908);
   (5938, 5939); (5970, 5971); (6002, 6003); (6068, 6069); (6071, 6077); (6086, 6086);
   (6089, 6099); (6103, 6103); (6109, 6109); (6155, 6159); (6211, 6211); (6277, 6278);
   (6313, 6313); (6432, 6434); (6439, 6440); (6450, 6450); (6457, 6459); (6679, 6680);
   (6683, 6683); (6742, 6742); (6744, 6750); (6752, 6752); (6754, 6754); (6757, 6764);
   (6771, 6780); (6783, 6783); (6823, 6823); (6832, 6862); (6912, 6915); (6964, 6964);
   (6966, 6970); (6972, 6972); (6978, 6978); (7019, 7027); (7040, 7041); (7074, 7077);
   (7080, 7081); (7083, 7085); (7142, 7142); (7144, 7145); (7149, 7149); (7151, 7153);
   (7212, 7219); (7222, 7223); (7288, 7293); (7376, 7378); (7380, 7392); (7394, 7400);
   (7405, 7405); (7412, 7412); (7416, 7417); (7468, 7530); (7544, 7544); (7579, 7679);
   (8125, 8125); (8127, 8129); (8141, 8143); (8157, 8159); (8173, 8175); (8189, 8190);
   (8203, 8207); (8216, 8217); (8228, 8228); (8231, 8231); (8234, 8238); (8288, 8292);
   (8294, 8303); (8305, 8305); (8319, 8319); (8336, 8348); (8400, 8432); (11388, 11389);
   (11503, 11505); (11631, 11631); (11647, 11647); (11744, 11775); (11823, 11823); (12293, 12293);
   (12330, 12333); (12337, 12341); (12347, 12347); (12441, 12446); (12540, 12542); (40981, 40981);
   (42232, 42237); (42508, 42508); (42607, 42610); (42612, 42621); (42623, 42623); (42652, 42655);
   (42736, 42737); (42752, 42785); (42864, 42864); (42888, 42890); (42994, 42996); (43000, 43001);
   (43010, 43010); (43014, 43014); (43019, 43019); (43045, 43046); (43052, 43052); (43204, 43205);
   (43232, 43249); (43263, 43263); (43302, 43309); (43335, 43345); (43392, 43394); (43443, 43443);
   (43446, 43449); (43452, 43453); (43471, 43471); (43493, 43494); (43561, 43566); (43569, 43570);
   (43573, 43574); (43587, 43587); (43596, 43596); (43632, 43632); (43644, 43644); (43696, 43696);
   (43698, 43700); (43703, 43704); (43710, 43711); (43713, 43713); (43741, 43741); (43756, 43757);
   (43763, 43764); (43766, 43766); (43867, 43871); (43881, 43883); (44005, 44005); (44008, 44008);
   (44013, 44013); (64286, 64286); (64434, 64450); (65024, 65039); (65043, 65043); (65056, 65071);
   (65106, 65106); (65109, 65109); (65279, 65279); (65287, 65287); (65294, 65294); (65306, 65306);
   (65342, 65342); (65344, 65344); (65392, 65392); (65438, 65439); (65507, 65507); (65529, 65531);
   (66045, 66045); (66272, 66272); (66422, 66426); (67456, 67461); (67463, 67504); (67506, 67514);
   (68097, 68099); (68101, 68102); (68108, 68111); (68152, 68154); (68159, 68159); (68325, 68326);
   (68900, 68903); (69291, 69292); (69446, 69456); (69506, 69509); (69633, 69633); (69688, 69702);
   (69744, 69744); (69747, 69748); (69759, 69761); (69811, 69814); (69817, 69818); (69821, 69821);
   (69826, 69826); (69837, 69837); (69888, 69890); (69927, 69931); (69933, 69940); (70003, 70003);
   (70016, 70017); (70070, 70078); (70089, 70092); (70095, 70095); (70191, 70193); (70196, 70196);
   (70198, 70199); (70206, 70206); (70367, 70367); (70371, 70378); (70400, 70401); (70459, 70460);
   (70464, 70464); (70502, 70508); (70512, 70516); (70712, 70719); (70722, 70724); (70726, 70726);
   (70750, 70750); (70835, 70840); (70842, 70842); (70847, 70848); (70850, 70851); (71090, 71093);
   (71100, 71101); (71103, 71104); (71132, 71133); (71219, 71226); (71229, 71229); (71231, 71232);
   (71339, 71339); (71341, 71341); (71344, 71349); (71351, 71351); (71453, 71455); (71458, 71461);
   (71463, 71467); (71727, 71735); (71737, 71738); (71995, 71996); (71998, 71998); (72003, 72003);
   (72148, 72151); (72154, 72155); (72160, 72160); (72193, 72202); (72243, 72248); (72251, 72254);
   (72263, 72263); (72273, 72278); (72281, 72283); (72330, 72342); (72344, 72345); (72752, 72758);
   (72760, 72765); (72767, 72767); (72850, 72871); (72874, 72880); (72882, 72883); (72885, 72886);
   (73009, 73014); (73018, 73018); (73020, 73021); (73023, 73029); (73031, 73031); (73104, 73105);
   (73109, 73109); (73111, 73111); (73459, 73460); (78896, 78904); (92912, 92916); (92976, 92982);
   (92992, 92995); (94031, 94031); (94095, 94111); (94176, 94177); (94179, 94180); (110576, 110579);
   (110581, 110587); (110589, 110590); (113821, 113822); (113824, 113827); (118528, 118573); (118576, 118598);
   (119143, 119145); (119155, 119170); (119173, 119179); (119210, 119213); (119362, 119364); (121344, 121398);
   (121403, 121452); (121461, 121461); (121476, 121476); (121499, 121503); (121505, 121519); (122880, 122886);
   (122888, 122904); (122907, 122913); (122915, 122916); (122918, 122922); (123184, 123197); (123566, 123566);
   (123628, 123631); (125136, 125142); (125252, 125259); (127995, 127999); (917505, 917505); (917536, 917631);
   (917760, 917999)]%Z.

Definition inRanges (l : list (Z * Z)) (c : Z) : bool :=
  existsb (fun r => (r.1 <=? c)%Z && (c <=? r.2)%Z) l.

Definition isCased (c : Z) : bool := inRanges casedRanges c.
Definition isCaseIgnorable (c : Z) : bool := inRanges caseIgnorableRanges c.

(** The lower-case mapping of one code point, out of context. *)
Definition lowerCodePoint (c : Z) : list Z :=
  if (c =? 304)%Z then [105; 775]%Z
  else
    match find (fun r => (r.1.1.1 <=? c)%Z && (c <=? r.1.1.2)%Z
                         && ((c - r.1.1.1) mod r.1.2 =? 0)%Z) lowerRanges with
    | Some r => [(c + r.2)%Z]
    | None => [c]
    end.

(** A cased letter follows, after any number of case-ignorable characters. *)
Fixpoint followedByCased (l : list Z) : bool :=
  match l with
  | [] => false
  | c :: r => if isCaseIgnorable c then followedByCased r else isCased c
  end.

(** Lower-casing of a sequence of code points; [before] tells whether a
    cased letter precedes, any number of case-ignorable characters apart.
    The capital sigma (931) becomes the final sigma (962) after a cased
    letter and not before one, and the small sigma (963) otherwise. *)
Fixpoint lowerCodePoints (before : bool) (l : list Z) : list Z :=
  match l with
  | [] => []
  | c :: r =>
      (if (c =? 931)%Z
       then [if before && negb (followedByCased r) then 962%Z else 963%Z]
       else lowerCodePoint c)
      ++ lowerCodePoints (if isCaseIgnorable c then before else isCased c) r
  end.

(** [s.toLowerCase()]. *)
Definition toLowerCase (s : string) : string :=
  utf8Encode (lowerCodePoints false (utf8Decode s)).

(** White space and line terminators, which [trim] removes: the six of
    the ASCII range, and U+00A0, U+1680, U+2000 to U+200A, U+2028, U+2029,
    U+202F, U+205F, U+3000 and U+FEFF in their UTF-8 encoding. *)
Definition space2 (a b : ascii) : bool :=
  (codeOf a =? 194)%Z && (codeOf b =? 160)%Z.

Definition space3 (a b c : ascii) : bool :=
  let x := codeOf a in
  let y := codeOf b in
  let z := codeOf c in
  ((x =? 225) && (y =? 154) && (z =? 128)
   || (x =? 226) && (y =? 128)
      && ((128 <=? z) && (z <=? 138) || (z =? 168) || (z =? 169) || (z =? 175))
   || (x =? 226) && (y =? 129) && (z =? 159)
   || (x =? 227) && (y =? 128) && (z =? 128)
   || (x =? 239) && (y =? 187) && (z =? 191))%Z.

(** The text without the white space it starts with; [s2] and [s3] tell
    the white space of two and of three bytes. *)
Fixpoint dropSpace (s2 : ascii -> ascii -> bool) (s3 : ascii -> ascii -> ascii -> bool)
    (l : list ascii) : list ascii :=
  match l with
  | [] => []
  | a :: r =>
      if Ascii.is_space a then dropSpace s2 s3 r
      else
        match r with
        | [] => l
        | b :: r1 =>
            if s2 a b then dropSpace s2 s3 r1
            else
              match r1 with
              | [] => l
              | c :: r2 => if s3 a b c then dropSpace s2 s3 r2 else l
              end
        end
  end.

(** The text starts with a white space character. *)
Definition startsWithSpace (s2 : ascii -> ascii -> bool)
    (s3 : ascii -> ascii -> ascii -> bool) (l : list ascii) : bool :=
  match l with
  | [] => false
  | a :: r =>
      Ascii.is_space a
      || match r with
         | [] => false
         | b :: r1 =>
             s2 a b || match r1 with [] => false | c :: _ => s3 a b c end
         end
  end.

Definition trimStart (s : string) : string :=
  String.string_of_list_ascii (dropSpace space2 space3 (String.list_ascii_of_string s)).

(** The white space a text ends with is the white space its mirror image
    starts with, the bytes of each character taken in reverse. *)
Definition trimEnd (s : string) : string :=
  String.string_of_list_ascii
    (rev (dropSpace (fun a b => space2 b a) (fun a b c => space3 c b a)
            (rev (String.list_ascii_of_string s)))).

(** [s.trim()]. *)
Definition trim (s : string) : string := trimEnd (trimStart s).

Fixpoint repeat_char (c : ascii) (n : nat) : string :=
  match n with
  | 0 => EmptyString
  | S k => String c (repeat_char c k)
  end.

(** [s.padStart(n, c)] for a one-character filler. *)
Definition padStart (n : nat) (c : ascii) (s : string) : string :=
  repeat_char c (n - String.length s) +:+ s.

(** [String(n)] for a natural number. *)
Definition String_nat (n : nat) : string :=
  NilEmpty.string_of_uint (Nat.to_uint n).

(** [arr.join(sep)]. *)
Fixpoint join (sep : string) (arr : list string) : string :=
  match arr with
  | [] => ""
  | [x] => x
  | x :: rest => x +:+ sep +:+ join sep rest
  end.

(** Matching of a literal pattern under the [i] flag: the characters are
    compared after canonicalisation (upper-casing). *)
Fixpoint starts_with_ci (pat s : string) : bool :=
  match pat, s with
  | EmptyString, _ => true
  | String _ _, EmptyString => false
  | String a pat', String b s' =>
      bool_decide (upper_char a = upper_char b) && starts_with_ci pat' s'
  end.

(** [/pat/i.test(s)] for a literal [pat]: the first position from the
    left at which the pattern matches, if any. *)
Fixpoint test_ci (pat s : string) : bool :=
  starts_with_ci pat s
  || match s with
     | EmptyString => false
     | String _ s' => test_ci pat s'
     end.

(** [s] minus the literal prefix [p], when it starts with it. *)
Fixpoint strip_prefix (p s : string) : option string :=
  match p, s with
  | EmptyString, _ => Some s
  | String _ _, EmptyString => None
  | String a p', String b s' =>
      if bool_decide (a = b) then strip_prefix p' s' else None
  end.

(** The longest prefix of [s] free of the character [c], and the rest. *)
Fixpoint span_not (c : ascii) (s : string) : string * string :=
  match s with
  | EmptyString => (EmptyString, EmptyString)
  | String a r =>
      if bool_decide (a = c) then (EmptyString, s)
      else let '(p, q) := span_not c r in (String a p, q)
  end.

(** Line terminators, which [.] does not match: LF, CR, and U+2028 and
    U+2029 in their UTF-8 encoding. *)
Fixpoint has_line_terminator (s : string) : bool :=
  match s with
  | EmptyString => false
  | String a r =>
      bool_decide (a = "010"%char) || bool_decide (a = "013"%char)
      || match a, r with
         | "226"%char, String "128"%char (String b _) =>
             bool_decide (b = "168"%char) || bool_decide (b = "169"%char)
         | _, _ => false
         end
      || has_line_terminator r
  end.

End JS.

Export JS.

(* ===================================================================== *)
(** ** The spreadsheet service *)
(* ===================================================================== *)

(** The service is modelled on three assumptions: a cell keeps the value
    that is written to it (a text is not turned into a number, a date or
    a formula); writing an empty text clears the cell; and a write below
    or to the right of the grid extends the grid. *)

Module Sheets.

(** A cell with content holds a value and the text the grid displays for
    it (the two differ for formatted or formula-driven cells). *)
Record Cell : Type := { cvalue : value; cdisplay : string }.

(** A sheet is a grid of [maxRows] by [maxCols] cells, addressed from 1;
    [None] is a cell without content.  Cells are read through [cellAt],
    which sees no content outside the grid. *)
Record Sheet : Type :=
  { maxRows : nat; maxCols : nat; cells : nat -> nat -> option Cell }.

Definition inGrid (sh : Sheet) (r c : nat) : bool :=
  (1 <=? r) && (r <=? maxRows sh) && (1 <=? c) && (c <=? maxCols sh).

Definition cellAt (sh : Sheet) (r c : nat) : option Cell :=
  if inGrid sh r c then cells sh r c else None.

(** What [getValues] and [getDisplayValues] give for one cell: the empty
    string for a cell without content. *)
Definition valueAt (sh : Sheet) (r c : nat) : value :=
  match cellAt sh r c with Some x => cvalue x | None => VStr "" end.

Definition displayAt (sh : Sheet) (r c : nat) : string :=
  match cellAt sh r c with Some x => cdisplay x | None => "" end.

Definition hasContent (o : option Cell) : bool :=
  match o with Some _ => true | None => false end.

(** The greatest index of [1..n] at which [p] holds, 0 when there is none. *)
Fixpoint last_such (p : nat -> bool) (n : nat) : nat :=
  match n with
  | 0 => 0
  | S k => if p (S k) then S k else last_such p k
  end.

Definition colHasContent (sh : Sheet) (c : nat) : bool :=
  existsb (fun r => hasContent (cellAt sh r c)) (seq 1 (maxRows sh)).

Definition rowHasContent (sh : Sheet) (r : nat) : bool :=
  existsb (fun c => hasContent (cellAt sh r c)) (seq 1 (maxCols sh)).

(** [sh.getLastColumn()], [sh.getLastRow()]: position of the last column
    (row) that has content, 0 on a sheet without content. *)
Definition getLastColumn (sh : Sheet) : nat :=
  last_such (colHasContent sh) (maxCols sh).

Definition getLastRow (sh : Sheet) : nat :=
  last_such (rowHasContent sh) (maxRows sh).

Definition getMaxRows (sh : Sheet) : nat := maxRows sh.

(** [sh.getRange(r, c, nr, nc).getValues()] and [.getDisplayValues()]. *)
Definition getValues (sh : Sheet) (r c nr nc : nat) : list (list value) :=
  map (fun i => map (fun j => valueAt sh i j) (seq c nc)) (seq r nr).

Definition getDisplayValues (sh : Sheet) (r c nr nc : nat) : list (list string) :=
  map (fun i => map (fun j => displayAt sh i j) (seq c nc)) (seq r nr).

(** [sh.getDataRange().getValues()]: from A1 to the last row and column
    with content (A1 alone on a sheet without content). *)
Definition getDataRangeValues (sh : Sheet) : list (list value) :=
  getValues sh 1 1 (Nat.max 1 (getLastRow sh)) (Nat.max 1 (getLastColumn sh)).

(** The text displayed for a plain value. *)
Definition display (v : value) : string :=
  match v with
  | VStr s => s
  | VNum n => NilEmpty.string_of_int (Z.to_int n)
  | VBool true => "TRUE"
  | VBool false => "FALSE"
  end.

(** The store keeps the value it is given; the empty string clears the
    cell. *)
Definition stored (v : value) : option Cell :=
  if decide (v = VStr "") then None
  else Some {| cvalue := v; cdisplay := display v |}.

(** [sh.getRange(r, c).setValue(v)]; the grid grows to hold the cell. *)
Definition setValue (sh : Sheet) (r c : nat) (v : value) : Sheet :=
  {| maxRows := Nat.max (maxRows sh) r;
     maxCols := Nat.max (maxCols sh) c;
     cells := fun r' c' =>
                if (r' =? r) && (c' =? c) then stored v else cellAt sh r' c' |}.

(** [sh.getRange(r, c, 1, vals.length).setValues([vals])]. *)
Fixpoint setRowValues (sh : Sheet) (r c : nat) (vals : list value) : Sheet :=
  match vals with
  | [] => sh
  | v :: rest => setRowValues (setValue sh r c v) r (S c) rest
  end.

(** [sh.insertColumnsAfter(after, n)]: [n] empty columns after column
    [after]; the columns to their right move right by [n]. *)
Definition insertColumnsAfter (sh : Sheet) (after n : nat) : Sheet :=
  {| maxRows := maxRows sh;
     maxCols := maxCols sh + n;
     cells := fun r c =>
                if c <=? after then cellAt sh r c
                else if c <=? after + n then None
                else cellAt sh r (c - n) |}.

(** The sheet that [ss.insertSheet(name)] creates: 1000 rows, 26 columns,
    no content. *)
Definition newSheet : Sheet :=
  {| maxRows := 1000; maxCols := 26; cells := fun _ _ => None |}.

End Sheets.

Export Sheets.

(** A spreadsheet: its sheets by name. *)
Abbreviation Spreadsheet := (gmap string Sheet).

(** Outcome of a call that may throw [new Error(msg)]. *)
Inductive result (A : Type) : Type :=
| Ok (a : A)
| Throw (msg : string).
Arguments Ok {A} a.
Arguments Throw {A} msg.

(* ===================================================================== *)
(** ** Spreadsheet helpers of [backend.js] *)
(* ===================================================================== *)

(** [getHeaders_(sh)]: the header row, up to the last column with content. *)
Definition getHeaders_ (sh : Sheet) : list value :=
  let lastCol := Nat.max 1 (getLastColumn sh) in
  nth 0 (getValues sh 1 1 1 lastCol) [].

(** [header.filter(h => current.indexOf(h) === -1)]. *)
Definition missingColumns (current : list value) (header : list string) : list string :=
  filter (fun h => indexOf current (VStr h) = None) header.

(** [ensureSheet_(name, header)]: the spreadsheet after the call and the
    sheet returned.  An absent or empty [header] is the empty list. *)
Definition ensureSheet_ (name : string) (header : list string)
    (ss : Spreadsheet) : Spreadsheet * Sheet :=
  match ss !! name with
  | None =>
      let sh := newSheet in
      let sh := if 0 <? length header
                then setRowValues sh 1 1 (VStr <$> header) else sh in
      (<[name := sh]> ss, sh)
  | Some sh =>
      if 0 <? length header then
        let current := getHeaders_ sh in
        let missing := missingColumns current header in
        if 0 <? length missing then
          let sh := insertColumnsAfter sh (length current) (length missing) in
          let sh := setRowValues sh 1 (length current + 1) (VStr <$> missing) in
          (<[name := sh]> ss, sh)
        else (ss, sh)
      else (ss, sh)
  end.

(** The loop of [nextFreeRowByHeader_]: [n] is [i + 1]. *)
Fixpoint scanUp (colVals : list (list string)) (n : nat) : nat :=
  match n with
  | 0 => 2
  | S i =>
      if negb (String.eqb (nth 0 (nth i colVals []) "") "") then i + 2 + 1
      else scanUp colVals i
  end.

(** [nextFreeRowByHeader_(sh, keyHeader)]. *)
Definition nextFreeRowByHeader_ (sh : Sheet) (keyHeader : string) : result nat :=
  let headers := getHeaders_ sh in
  match indexOf headers (VStr keyHeader) with
  | None => Throw ("Key header not found: " +:+ keyHeader)
  | Some idx =>
      let col := idx + 1 in
      let totalRows := Nat.max 0 (getMaxRows sh - 1) in
      if totalRows =? 0 then Ok 2
      else
        let colVals := getDisplayValues sh 2 col totalRows 1 in
        Ok (scanUp colVals (length colVals))
  end.

(** The body of the [forEach] of [appendRowAtKey_], run over the properties
    [(h, obj[h])] of the record in the order [Object.keys] lists them. *)
Definition writeKey (headers : list value) (r : nat) (sh : Sheet)
    (kv : string * value) : Sheet :=
  match indexOf headers (VStr kv.1) with
  | Some col => setValue sh r (col + 1) kv.2
  | None => sh
  end.

Definition writeKeys (headers : list value) (r : nat)
    (entries : list (string * value)) (sh : Sheet) : Sheet :=
  foldl (writeKey headers r) sh entries.

(** [appendRowAtKey_(name, keyHeader, obj)].  The record is a finite map;
    its names are visited in the order of [map_to_list], and the cells
    written are the same in any other order ([writeKeys_order] below). *)
Definition appendRowAtKey_ (name keyHeader : string) (obj : gmap string value)
    (ss : Spreadsheet) : result Spreadsheet :=
  match ss !! name with
  | None => Throw ("Missing sheet: " +:+ name)
  | Some sh =>
      let headers := getHeaders_ sh in
      match nextFreeRowByHeader_ sh keyHeader with
      | Throw msg => Throw msg
      | Ok r => Ok (<[name := writeKeys headers r (map_to_list obj) sh]> ss)
      end
  end.

(** [obj[key] = v] on an object literal, for a primitive [v]: the key is
    converted to a property name, and the name [__proto__] is the one that
    creates no property (the assignment goes to the prototype setter,
    which ignores a primitive). *)
Definition setProp (obj : gmap string value) (key v : value) : gmap string value :=
  if decide (String_ key = "__proto__") then obj else <[String_ key := v]> obj.

(** The object built for one row by [getAll_]: [obj[key] = row[i]] for each
    header cell in turn. *)
Definition rowObject (head row : list value) : gmap string value :=
  foldl (fun obj kv => setProp obj kv.1 kv.2) ∅ (zip head row).

(** [getAll_(name)]. *)
Definition getAll_ (name : string) (ss : Spreadsheet) : list (gmap string value) :=
  match ss !! name with
  | None => []
  | Some sh =>
      let v := getDataRangeValues sh in
      if length v <=? 1 then []
      else
        let head := nth 0 v [] in
        map (rowObject head) (drop 1 v)
  end.

Definition SH_BATCHES : string := "Batches".
Definition SH_ITEMS : string := "Items".
Definition SH_SELECT : string := "Selections".
Definition SH_PHOTOS : string := "Photos".

(** [HEADERS]: the canonical header of each sheet. *)
Definition HEADERS (name : string) : list string :=
  if decide (name = SH_BATCHES) then
    ["BatchID"; "Client"; "StartDate"; "Assessor"; "Status"]
  else if decide (name = SH_ITEMS) then
    ["ItemID"; "BatchID"; "Code"; "PerilType"; "ImpactLevel"; "Type"; "Title";
     "Artist"; "Material"; "Date"; "Dimensions"; "Features";
     "HistoricIssuesPresent"; "HistoricCode"; "HistoricNotes";
     "TreatmentTimeMinutes"; "TreatmentTimeUnit"; "TreatmentTime";
     "AdditionalNotes"; "OtherNotes"; "Notes"; "CreatedAt"]
  else if decide (name = SH_SELECT) then
    ["SelectionID"; "ItemID"; "OptionCode"; "Severity"; "ExtentPercent";
     "Location"; "ItemType"; "UseSeverity"; "SeverityWord"; "BasePhrase";
     "IsLocalized"; "LocPart"; "ExtPart"; "CondLine"; "GlobalFrag";
     "LocalText"; "LocalWhere"; "NeedsReplacement"; "NeedsReupholstery"]
  else if decide (name = SH_PHOTOS) then
    ["PhotoID"; "ItemID"; "Image"; "Caption"; "TakenAt"; "Lat"; "Lng"; "Uploader"]
  else [].

(** [nextCodeForBatch_(batchId)]. *)
Definition nextCodeForBatch_ (batchId : value) (ss : Spreadsheet) : string :=
  let items := filter (fun r => r !! "BatchID" = Some batchId) (getAll_ SH_ITEMS ss) in
  let n := length items + 1 in
  "I" +:+ padStart 3 "0" (String_nat n).

(* ===================================================================== *)
(** ** Notes builder *)
(* ===================================================================== *)

(** One entry of [payload.selections]; an absent property is [None]. *)
Record Selection : Type :=
  { s_code : option value;
    s_note : option value;
    s_localized : option value;
    s_extent : option value;
    s_location : option value }.

(** The item payload sent by the form ([selections] absent is the empty
    list). *)
Record Payload : Type :=
  { p_batchId : option value;
    p_selections : list Selection;
    p_historicYes : option value;
    p_historicCode : option value;
    p_historicNotes : option value;
    p_peril : option value;
    p_impact : option value;
    p_type : option value;
    p_title : option value;
    p_artist : option value;
    p_material : option value;
    p_date : option value;
    p_dimensions : option value;
    p_features : option value;
    p_TreatmentTimeMinutes : option value;
    p_TreatmentTimeUnit : option value;
    p_TreatmentTime : option value;
    p_incidentNotes : option value;
    p_otherNotes : option value }.

Definition historicSentence1 : string :=
  "Historic issues, including age, wear and use issues will not be addressed as part of the claim".
Definition historicSentence2 : string :=
  "Historic issues can be addressed outside the claim on a private client basis should this be of interest to the client.".
Definition minorDifferenceSentence : string :=
  "Some minor visible difference may remain in impacted area following treatment".
Definition structuralSentence : string :=
  "Underlying material instability will remain following treatment".
Definition flatteningSentence : string :=
  "Given the materials we may face limitation in flattening the artwork, we will take this to a safe level".

Definition structural : list string :=
  ["STRUCT_DAMAGED"; "JOINTS_LOOSE"; "VENEER_LIFTING"; "VENEER_LOSS";
   "PNT_LIFTING"; "PNT_LOSS"; "PNT_TEAR"; "WOP_MEDIA_LOSS"; "WOP_HINGE_FAIL";
   "FRM_STRUCT"; "GILT_ORNAMENT_CRACK"; "OBJ_CORROSION"; "OBJ_OXIDATION";
   "CERAMIC_CRACK"; "CERAMIC_CHIP"; "CERAMIC_BREAK"; "TXT_TEAR";
   "UPH_FABRIC_DAMAGE"; "RUG_COLOUR_RUN"].

Definition flattening : list string := ["WOP_COCKLING"; "PNT_DEFORMATION"].

(** [new Set(arr)] as the list of its distinct elements; [codes.has(c)]. *)
Definition setOf (arr : list (option value)) : list (option value) := remove_dups arr.

Definition has (codes : list (option value)) (c : string) : bool :=
  bool_decide (Some (VStr c) ∈ codes).

(** The separator that [buildNotes_] passes to [join]: the source text
    ['\\n'] denotes a backslash followed by the letter n. *)
Definition notesSeparator : string := String "\" (String "n" EmptyString).

(** The array [out] of [buildNotes_] before it is joined. *)
Definition notesLines (payload : Payload) : list string :=
  let codes := setOf (s_code <$> p_selections payload) in
  let out := [] in
  let out := if truthy_opt (p_historicYes payload)
             then out ++ [historicSentence1; historicSentence2] else out in
  let out := if negb (length codes =? 0)
             then out ++ [minorDifferenceSentence] else out in
  let out := if existsb (has codes) structural
             then out ++ [structuralSentence] else out in
  let out := if existsb (has codes) flattening
             then out ++ [flatteningSentence] else out in
  out.

(** [buildNotes_(payload)]. *)
Definition buildNotes_ (payload : Payload) : string :=
  join notesSeparator (notesLines payload).

(** The loop of [getNoteFromNotesRules_] over the rows [v[1..]]. *)
Fixpoint notesRulesLoop (code : string) (rows : list (list value)) : string :=
  match rows with
  | [] => ""
  | row :: rest =>
      let a := trim (String_or_empty (row !! 0)) in
      let b := trim (String_or_empty (row !! 1)) in
      if String.eqb a "" then notesRulesLoop code rest
      else if String.eqb (toLowerCase a) (toLowerCase code) then b
      else notesRulesLoop code rest
  end.

(** [getNoteFromNotesRules_(code)]. *)
Definition getNoteFromNotesRules_ (code : option value) (ss : Spreadsheet) : string :=
  let code := trim (String_or_empty code) in
  if String.eqb code "" then ""
  else
    match ss !! "NotesRules" with
    | None => ""
    | Some sh =>
        let v := getDataRangeValues sh in
        if length v <? 2 then ""
        else notesRulesLoop code (drop 1 v)
    end.

(* ===================================================================== *)
(** ** The services around the script, and the state of a request *)
(* ===================================================================== *)

(** A file of the file store. *)
Record DriveFile : Type :=
  { f_folder : string; f_name : string; f_contentType : string;
    f_bytes : string; f_id : string }.

(** What the script does not determine.  The [n]-th request to a service
    gets the answer at index [n]. *)
Record Env : Type :=
  { env_uuid : nat -> string;
    (** [Utilities.getUuid()] *)
    env_formatDate : nat -> string -> string;
    (** [Utilities.formatDate(new Date(), TZ, fmt)] *)
    env_base64Decode : string -> option string;
    (** [Utilities.base64Decode(s)]; [None] when it throws *)
    env_createFile : nat -> option string;
    (** identifier of the file that [folder.createFile] creates; [None]
        when the file store throws *)
    env_folderOk : string -> bool
    (** whether [DriveApp.getFolderById(id)] finds the folder *) }.

(** The state of a request: the services, the number of requests made so
    far to the clock, the identifier generator and the file store, the
    spreadsheet, the script properties, the files created and the lines
    written to the console. *)
Record World : Type :=
  { w_env : Env;
    w_tick : nat;
    w_ss : Spreadsheet;
    w_props : gmap string string;
    w_files : list DriveFile;
    w_log : list string }.

Definition set_ss (ss : Spreadsheet) (w : World) : World :=
  {| w_env := w_env w; w_tick := w_tick w; w_ss := ss; w_props := w_props w;
     w_files := w_files w; w_log := w_log w |}.

Definition tick (w : World) : World :=
  {| w_env := w_env w; w_tick := S (w_tick w); w_ss := w_ss w;
     w_props := w_props w; w_files := w_files w; w_log := w_log w |}.

Definition add_file (f : DriveFile) (w : World) : World :=
  {| w_env := w_env w; w_tick := w_tick w; w_ss := w_ss w; w_props := w_props w;
     w_files := w_files w ++ [f]; w_log := w_log w |}.

(** [console.error(tag, err)]. *)
Definition console_error (tag msg : string) (w : World) : World :=
  {| w_env := w_env w; w_tick := w_tick w; w_ss := w_ss w; w_props := w_props w;
     w_files := w_files w; w_log := w_log w ++ [tag +:+ " " +:+ msg] |}.

(** A computation of the script: it ends with a value or with a thrown
    error, and in both cases leaves a state behind. *)
Definition M (A : Type) : Type := World -> result A * World.

Definition ret {A} (a : A) : M A := fun w => (Ok a, w).
Definition throw {A} (msg : string) : M A := fun w => (Throw msg, w).
Definition bind {A B} (m : M A) (k : A -> M B) : M B :=
  fun w => match m w with
           | (Ok a, w') => k a w'
           | (Throw msg, w') => (Throw msg, w')
           end.

Notation "'do' x <- m ; k" := (bind m (fun x => k))
  (at level 10, x name, m at level 100, k at level 200).

(** [Utilities.getUuid()] and [Utilities.formatDate(new Date(), TZ, fmt)]. *)
Definition getUuid : M string :=
  fun w => (Ok (env_uuid (w_env w) (w_tick w)), tick w).

Definition formatNow (fmt : string) : M string :=
  fun w => (Ok (env_formatDate (w_env w) (w_tick w) fmt), tick w).

(** [Utilities.base64Decode(s)] and [DriveApp.getFolderById(id)], which
    throw when the service refuses. *)
Definition base64Decode (s : string) : M string :=
  fun w => match env_base64Decode (w_env w) s with
           | Some bytes => (Ok bytes, w)
           | None => (Throw "Could not decode string.", w)
           end.

Definition getFolderById (id : string) : M string :=
  fun w => if env_folderOk (w_env w) id then (Ok id, w)
           else (Throw "No item with the given ID could be found.", w).

(** [folder.createFile(Utilities.newBlob(bytes, contentType, name)).getId()]. *)
Definition createFile (folder bytes contentType name : string) : M string :=
  fun w => match env_createFile (w_env w) (w_tick w) with
           | Some id =>
               (Ok id, add_file {| f_folder := folder; f_name := name;
                                   f_contentType := contentType;
                                   f_bytes := bytes; f_id := id |} (tick w))
           | None => (Throw "Service error: Drive", tick w)
           end.

(** [PropertiesService.getScriptProperties().getProperty(key)]; [null] is
    [None]. *)
Definition getProperty (key : string) : M (option string) :=
  fun w => (Ok (w_props w !! key), w).

(** [ensureSheet_] and [appendRowAtKey_] on the spreadsheet of the state. *)
Definition ensureSheetM (name : string) (header : list string) : M Sheet :=
  fun w => let '(ss, sh) := ensureSheet_ name header (w_ss w) in (Ok sh, set_ss ss w).

Definition appendRowAtKeyM (name keyHeader : string) (obj : gmap string value) : M unit :=
  fun w => match appendRowAtKey_ name keyHeader obj (w_ss w) with
           | Ok ss => (Ok tt, set_ss ss w)
           | Throw msg => (Throw msg, w)
           end.

(* ===================================================================== *)
(** ** Saving one item *)
(* ===================================================================== *)

(** [String(b).toUpperCase()] for a boolean. *)
Definition upperBool (b : bool) : string := toUpperCase (String_ (VBool b)).

(** The record [saveItem] writes to the Items sheet. *)
Definition itemRecord (payload : Payload) (batchId : value)
    (itemId code createdAt notes : string) : gmap string value :=
  list_to_map
    [("ItemID", VStr itemId);
     ("BatchID", batchId);
     ("Code", VStr code);
     ("PerilType", or_empty (p_peril payload));
     ("ImpactLevel", or_empty (p_impact payload));
     ("Type", or_empty (p_type payload));
     ("Title", or_empty (p_title payload));
     ("Artist", or_empty (p_artist payload));
     ("Material", or_empty (p_material payload));
     ("Date", or_empty (p_date payload));
     ("Dimensions", or_empty (p_dimensions payload));
     ("Features", or_empty (p_features payload));
     ("HistoricIssuesPresent", VStr (upperBool (truthy_opt (p_historicYes payload))));
     ("HistoricCode", VStr (toLowerCase (String_or_empty (p_historicCode payload))));
     ("HistoricNotes", or_empty (p_historicNotes payload));
     ("TreatmentTimeMinutes", or_empty (p_TreatmentTimeMinutes payload));
     ("TreatmentTimeUnit", or_empty (p_TreatmentTimeUnit payload));
     ("TreatmentTime", or_empty (p_TreatmentTime payload));
     ("AdditionalNotes", or_empty (p_incidentNotes payload));
     ("OtherNotes", or_empty (p_otherNotes payload));
     ("CreatedAt", VStr createdAt);
     ("Notes", VStr notes)].

(** The record [saveItem] writes to the Selections sheet for the selection
    [s]. *)
Definition selectionRecord (selectionId itemId : string) (itemType : option value)
    (s : Selection) : gmap string value :=
  let isLocal := truthy_opt (s_localized s) in
  let note := String_or_empty (s_note s) in
  let needsRepl := test_ci "Replacement needed" note in
  let needsReuph := test_ci "Reupholstery needed" note in
  list_to_map
    [("SelectionID", VStr selectionId);
     ("ItemID", VStr itemId);
     ("OptionCode", or_empty (s_code s));
     ("Severity", VStr "");
     ("ExtentPercent", or_empty (s_extent s));
     ("Location", or_empty (s_location s));
     ("ItemType", or_empty itemType);
     ("UseSeverity", VStr "");
     ("SeverityWord", VStr "");
     ("BasePhrase", VStr "");
     ("IsLocalized", VStr (upperBool isLocal));
     ("LocPart", VStr "");
     ("ExtPart", VStr "");
     ("CondLine", VStr "");
     ("GlobalFrag", VStr (if isLocal then "" else note));
     ("LocalText", VStr (if isLocal then note else ""));
     ("LocalWhere", or_empty (s_location s));
     ("NeedsReplacement", VStr (if needsRepl then "TRUE" else "FALSE"));
     ("NeedsReupholstery", VStr (if needsReuph then "TRUE" else "FALSE"))].

(** [s.slice(0, 8)]. *)
Definition slice8 (s : string) : string := String.substring 0 8 s.

(** The [forEach] over [payload.selections]. *)
Fixpoint saveSelections (itemId : string) (itemType : option value)
    (sels : list Selection) : M unit :=
  match sels with
  | [] => ret tt
  | s :: rest =>
      do u <- getUuid;
      do _ <- appendRowAtKeyM SH_SELECT "SelectionID"
                (selectionRecord ("SEL-" +:+ slice8 u) itemId itemType s);
      saveSelections itemId itemType rest
  end.

(** The [try] block of [saveItem]. *)
Definition saveItemBody (payload : Payload) : M (string * string) :=
  match p_batchId payload with
  | None => throw "Missing batchId"
  | Some batchId =>
      if negb (truthy batchId) then throw "Missing batchId"
      else
        do _ <- ensureSheetM SH_ITEMS (HEADERS SH_ITEMS);
        do _ <- ensureSheetM SH_SELECT (HEADERS SH_SELECT);
        do u <- getUuid;
        let itemId := "ITM-" +:+ slice8 u in
        do code <- (fun w => (Ok (nextCodeForBatch_ batchId (w_ss w)), w));
        do createdAt <- formatNow "yyyy-MM-dd HH:mm:ss";
        let notesAuto := buildNotes_ payload in
        do notes <- (fun w =>
                       (Ok (getNoteFromNotesRules_
                              (Some (VStr (String_or_empty (p_historicCode payload))))
                              (w_ss w)), w));
        do _ <- appendRowAtKeyM SH_ITEMS "ItemID"
                  (itemRecord payload batchId itemId code createdAt notes);
        do _ <- saveSelections itemId (p_type payload) (p_selections payload);
        ret (itemId, code)
  end.

(** [saveItem(payload)]: the error caught is logged and thrown again. *)
Definition saveItem (payload : Payload) : M (string * string) :=
  fun w => match saveItemBody payload w with
           | (Ok r, w') => (Ok r, w')
           | (Throw msg, w') => (Throw msg, console_error "saveItem error" msg w')
           end.

(* ===================================================================== *)
(** ** Saving photos *)
(* ===================================================================== *)

(** One entry of [photos]; an absent [dataUrl] is [None]. *)
Record Photo : Type := { ph_dataUrl : option value }.

(** [dataUrl.match(/^data:(image\/[^;]+);base64,(.+)$/)]: the two groups,
    or [None] when the text does not match.  The first group ends at the
    first [;] after [data:image/]; the second is the non-empty rest, which
    may not hold a line terminator. *)
Definition matchDataUrl (dataUrl : string) : option (string * string) :=
  match strip_prefix "data:image/" dataUrl with
  | None => None
  | Some r =>
      let '(sub, rest) := span_not ";" r in
      if String.eqb sub "" then None
      else
        match strip_prefix ";base64," rest with
        | None => None
        | Some content =>
            if String.eqb content "" || has_line_terminator content then None
            else Some ("image/" +:+ sub, content)
        end
  end.

(** The record [savePhotosDataUrls] writes to the Photos sheet. *)
Definition photoRecord (photoId : string) (itemId : value)
    (fileId takenAt : string) : gmap string value :=
  list_to_map
    [("PhotoID", VStr photoId);
     ("ItemID", itemId);
     ("Image", VStr fileId);
     ("Caption", VStr "");
     ("TakenAt", VStr takenAt);
     ("Lat", VStr "");
     ("Lng", VStr "");
     ("Uploader", VStr "")].

(** The [try] block run for the entry [p] at index [idx]; the value is
    whether [saved++] was reached.  A [null] entry is [None]. *)
Definition savePhoto (itemId : value) (when folder : string) (idx : nat)
    (p : option Photo) : M bool :=
  match p with
  | None => throw "TypeError: Cannot read properties of null"
  | Some p =>
      let dataUrl := String_or_empty (ph_dataUrl p) in
      match matchDataUrl dataUrl with
      | None => ret false
      | Some (contentType, b64) =>
          do bytes <- base64Decode b64;
          let ext := if String.eqb contentType "image/png" then "png" else "jpg" in
          let name := String_ itemId +:+ "-" +:+ when +:+ "-"
                      +:+ padStart 2 "0" (String_nat (idx + 1)) +:+ "." +:+ ext in
          do fileId <- createFile folder bytes contentType name;
          do photoId <- getUuid;
          do takenAt <- formatNow "yyyy-MM-dd HH:mm:ss";
          do _ <- appendRowAtKeyM SH_PHOTOS "PhotoID"
                    (photoRecord photoId itemId fileId takenAt);
          ret true
      end
  end.

(** The [forEach] over [photos], with its [try]/[catch]: the counter
    [saved] and the state after the entries from index [idx] on. *)
Fixpoint photosLoop (itemId : value) (when folder : string)
    (photos : list (option Photo)) (idx saved : nat) (w : World) : nat * World :=
  match photos with
  | [] => (saved, w)
  | p :: rest =>
      match savePhoto itemId when folder idx p w with
      | (Ok true, w') => photosLoop itemId when folder rest (S idx) (S saved) w'
      | (Ok false, w') => photosLoop itemId when folder rest (S idx) saved w'
      | (Throw msg, w') =>
          photosLoop itemId when folder rest (S idx) saved
            (console_error "photo save failed" msg w')
      end
  end.

(** [savePhotosDataUrls(batchId, itemId, photos)]; the object
    [{saved: n}] is [n].  An argument left out is [None]. *)
Definition savePhotosDataUrls (batchId itemId : option value)
    (photos : list (option Photo)) : M nat :=
  match batchId, itemId with
  | Some batchId, Some itemId =>
      if negb (truthy batchId) || negb (truthy itemId)
      then throw "Missing batchId or itemId"
      else if length photos =? 0 then ret 0
      else
        do _ <- ensureSheetM SH_PHOTOS (HEADERS SH_PHOTOS);
        do folderId <- getProperty ("PHOTOS_" +:+ String_ batchId);
        match folderId with
        | None => throw "Photo folder not configured for this batch."
        | Some folderId =>
            if String.eqb folderId ""
            then throw "Photo folder not configured for this batch."
            else
              do folder <- getFolderById folderId;
              do when <- formatNow "yyyyMMdd-HHmmss";
              fun w => let '(saved, w') :=
                         photosLoop itemId when folder photos 0 0 w in
                       (Ok saved, w')
        end
  | _, _ => throw "Missing batchId or itemId"
  end.

(* ===================================================================== *)
(** ** Fonts and logo of the page *)
(* ===================================================================== *)

(** What the page helpers read from the file store: the file behind an
    identifier ([None] when [DriveApp.getFileById] or the read of its
    content throws) and [Utilities.base64Encode]. *)
Record Assets : Type :=
  { a_file : string -> option DriveFile;
    a_base64Encode : string -> string }.

Definition getFileById (a : Assets) (id : string) : result DriveFile :=
  match a_file a id with
  | Some f => Ok f
  | None => Throw "No item with the given ID could be found."
  end.

(** The class [[-\w]]: letters, digits, the underscore and the hyphen. *)
Definition isIdChar (c : ascii) : bool :=
  is_upper c || is_lower c
  || (let n := nat_of_ascii c in (48 <=? n) && (n <=? 57))
  || bool_decide (c = "_"%char) || bool_decide (c = "-"%char).

(** The longest prefix of [s] made of characters of the class. *)
Fixpoint takeIdChars (s : string) : string :=
  match s with
  | EmptyString => EmptyString
  | String c r => if isIdChar c then String c (takeIdChars r) else EmptyString
  end.

(** [s.match(/[-\w]{25,}/)]: at the first position from the left at which
    25 characters of the class follow each other, all the characters of
    the class that follow each other there. *)
Fixpoint matchId (s : string) : option string :=
  match s with
  | EmptyString => None
  | String _ r =>
      let run := takeIdChars s in
      if 25 <=? String.length run then Some run else matchId r
  end.

(** [toId(val)] of [getFontData_]; [null] is [None]. *)
Definition toId (val : option value) : option string :=
  match val with
  | None => None
  | Some v => if negb (truthy v) then None else matchId (String_ v)
  end.

(** [s.endsWith(suffix)]. *)
Fixpoint endsWith (s suffix : string) : bool :=
  String.eqb s suffix
  || match s with
     | EmptyString => false
     | String _ r => endsWith r suffix
     end.

(** [mimeFor(name)] of [getFontData_].  The lower-cased name is only
    tested for four endings of the ASCII range, and no other character
    becomes a letter of these endings in lower case: the test sees the
    name with its ASCII letters in lower case. *)
Definition mimeFor (name : value) : string :=
  let n := lowerASCII (String_ name) in
  if endsWith n ".woff2" then "font/woff2"
  else if endsWith n ".woff" then "font/woff"
  else if endsWith n ".otf" then "font/otf"
  else if endsWith n ".ttf" then "font/ttf"
  else "application/octet-stream".

(** The table [ids] of [getFontData_], in the order of its literal. *)
Definition fontIds : list (string * value) :=
  [("gillLight", VStr ""); ("gillRegular", VStr ""); ("gillMedium", VStr "");
   ("gillBold", VStr ""); ("gillItalic", VStr ""); ("begum", VStr "")].

(** ['data:' + mime + ';base64,' + b64]. *)
Definition dataUrlOf (mime b64 : string) : string :=
  "data:" +:+ mime +:+ ";base64," +:+ b64.

(** The body of the [for ... in] loop of [getFontData_] for one entry of
    the table: the object [out] after it. *)
Definition fontEntry (a : Assets) (out : gmap string string)
    (kv : string * value) : result (gmap string string) :=
  match toId (Some kv.2) with
  | None => Ok out
  | Some id =>
      match getFileById a id with
      | Throw msg => Throw msg
      | Ok file =>
          let mime := mimeFor (VStr (f_name file)) in
          let b64 := a_base64Encode a (f_bytes file) in
          Ok (<[kv.1 := dataUrlOf mime b64]> out)
      end
  end.

Fixpoint fontLoop (a : Assets) (ids : list (string * value))
    (out : gmap string string) : result (gmap string string) :=
  match ids with
  | [] => Ok out
  | kv :: rest =>
      match fontEntry a out kv with
      | Throw msg => Throw msg
      | Ok out' => fontLoop a rest out'
      end
  end.

(** [getFontData_()]. *)
Definition getFontData_ (a : Assets) : result (gmap string string) :=
  fontLoop a fontIds ∅.

Definition LOGO_FILE_ID : string := "1Z3I__UwcTHAcmQ0tBz6cJbRzOPuYROy9".

(** The [try] block of [getLogoDataUrl_]. *)
Definition getLogoBody (a : Assets) : M string :=
  if negb (truthy (VStr LOGO_FILE_ID)) then ret ""
  else
    fun w => match getFileById a LOGO_FILE_ID with
             | Throw msg => (Throw msg, w)
             | Ok file =>
                 (Ok (dataUrlOf (f_contentType file) (a_base64Encode a (f_bytes file))), w)
             end.

(** [getLogoDataUrl_()]: the error caught is logged and the empty text is
    returned. *)
Definition getLogoDataUrl_ (a : Assets) : M string :=
  fun w => match getLogoBody a w with
           | (Ok s, w') => (Ok s, w')
           | (Throw msg, w') => (Ok "", console_error "getLogoDataUrl_ failed" msg w')
           end.

(* ===================================================================== *)
(** ** Client folders and creating a batch *)
(* ===================================================================== *)

(** A folder of the file store: the folder that holds it, its name and
    its identifier. *)
Record DriveFolder : Type :=
  { d_parent : string; d_name : string; d_id : string }.

(** The folders of the file store, in the order in which an iterator
    lists them, and the identifier that the store gives to a folder
    created when it holds [n] folders ([None] when it refuses). *)
Record Drive : Type :=
  { dr_folders : list DriveFolder;
    dr_newId : nat -> option string }.

(** [root.getFoldersByName(name)]. *)
Definition getFoldersByName (root name : string) (d : Drive) : list DriveFolder :=
  filter (fun f => d_parent f = root ∧ d_name f = name) (dr_folders d).

(** [root.createFolder(name)]. *)
Definition createFolder (root name : string) (d : Drive) : result (DriveFolder * Drive) :=
  match dr_newId d (length (dr_folders d)) with
  | Some id =>
      let f := {| d_parent := root; d_name := name; d_id := id |} in
      Ok (f, {| dr_folders := dr_folders d ++ [f]; dr_newId := dr_newId d |})
  | None => Throw "Service error: Drive"
  end.

(** [x || dflt] where [x] may be undefined. *)
Definition or_else (o : option value) (dflt : value) : value :=
  match o with
  | Some v => if truthy v then v else dflt
  | None => dflt
  end.

(** [ensureClientFolder_(rootId, client)]: the folder returned and the
    folders of the store after the call.  A call that throws leaves the
    folders as they were; [trim] is a method of texts only. *)
Definition ensureClientFolder_ (rootId : string) (client : option value)
    (d : Drive) : M (DriveFolder * Drive) :=
  do root <- getFolderById rootId;
  match or_else client (VStr "Unnamed Client") with
  | VStr s =>
      let name := trim s in
      match getFoldersByName root name d with
      | f :: _ => ret (f, d)
      | [] =>
          match createFolder root name d with
          | Ok r => ret r
          | Throw msg => throw msg
          end
      end
  | _ => throw "TypeError: trim is not a function"
  end.

Definition PHOTOS_ROOT_ID : string := "1OE4NogQ-I1fSFEETsqv_YuQT5qyC8yw1".

(** [props.setProperty(key, val)]. *)
Definition setProperty (key val : string) (w : World) : World :=
  {| w_env := w_env w; w_tick := w_tick w; w_ss := w_ss w;
     w_props := <[key := val]> (w_props w);
     w_files := w_files w; w_log := w_log w |}.

(** The record [newBatch] writes to the Batches sheet. *)
Definition batchRecord (batchId : string) (client : value) (startDate : string)
    (assessorName : value) : gmap string value :=
  list_to_map
    [("BatchID", VStr batchId);
     ("Client", client);
     ("StartDate", VStr startDate);
     ("Assessor", assessorName);
     ("Status", VStr "Open")].

(** [newBatch(client, assessorName)]: the object
    [{batchId, clientFolderId}] is a pair.  [now] is read from the clock
    once and formatted twice.  The state and the folders are returned on
    every path, as a call that throws keeps what it did before. *)
Definition newBatch (client assessorName : option value) (d : Drive) (w : World)
    : result (string * string) * (World * Drive) :=
  match client, assessorName with
  | Some client, Some assessorName =>
      if negb (truthy client) then (Throw "Client is required", (w, d))
      else if negb (truthy assessorName) then (Throw "Assessor is required", (w, d))
      else
        let now := w_tick w in
        let w := tick w in
        let batchId := "BATCH-" +:+ env_formatDate (w_env w) now "yyyyMMdd-HHmmss-SSS" in
        match ensureClientFolder_ PHOTOS_ROOT_ID (Some client) d w with
        | (Throw msg, w) => (Throw msg, (w, d))
        | (Ok (clientFolder, d), w) =>
            let w := setProperty ("CLIENT_" +:+ batchId) (String_ client) w in
            let w := setProperty ("PHOTOS_" +:+ batchId) (d_id clientFolder) w in
            let w := set_ss (ensureSheet_ SH_BATCHES (HEADERS SH_BATCHES) (w_ss w)).1 w in
            let startDate := env_formatDate (w_env w) now "yyyy-MM-dd" in
            match appendRowAtKey_ SH_BATCHES "BatchID"
                    (batchRecord batchId client startDate assessorName) (w_ss w) with
            | Throw msg => (Throw msg, (w, d))
            | Ok ss => (Ok (batchId, d_id clientFolder), (set_ss ss w, d))
            end
        end
  | None, _ => (Throw "Client is required", (w, d))
  | Some client, None =>
      if negb (truthy client) then (Throw "Client is required", (w, d))
      else (Throw "Assessor is required", (w, d))
  end.

(* ===================================================================== *)
(** ** Setting up the database *)
(* ===================================================================== *)

(** [Object.keys(HEADERS)]: the sheet names, in the order of the literal. *)
Definition sheetNames : list string := [SH_BATCHES; SH_ITEMS; SH_SELECT; SH_PHOTOS].

(** The first [forEach] of [initializeDatabase]. *)
Definition ensureAll (names : list string) (ss : Spreadsheet) : Spreadsheet :=
  foldl (fun ss name => (ensureSheet_ name (HEADERS name) ss).1) ss names.

(** The second [forEach]: the map [urls].  [url] is [ss.getUrl()] and
    [gid name] is [getSheetId()] of the sheet [name]. *)
Definition sheetUrls (url : string) (gid : string -> nat) (names : list string)
    (ss : Spreadsheet) : gmap string string :=
  foldl (fun urls name =>
           match ss !! name with
           | Some _ => <[name := url +:+ "#gid=" +:+ String_nat (gid name)]> urls
           | None => urls
           end) ∅ names.

(** [initializeDatabase()]: the spreadsheet it leaves and the object
    [{spreadsheetUrl, sheets}] as a pair. *)
Definition initializeDatabase (url : string) (gid : string -> nat)
    (ss : Spreadsheet) : Spreadsheet * (string * gmap string string) :=
  let ss := ensureAll sheetNames ss in
  (ss, (url, sheetUrls url gid sheetNames ss)).

(* ===================================================================== *)
(** ** Notions of the specification *)
(* ===================================================================== *)

(** The append point of a sheet for the column [col], in the words of the
    specification: row 2 when no row below the header displays anything in
    that column, and otherwise the row after the last one that does. *)
Definition AppendPoint (sh : Sheet) (col r : nat) : Prop :=
  (r = 2 ∧ ∀ row, 2 ≤ row ≤ maxRows sh → displayAt sh row col = "")
  ∨ (∃ row, r = row + 1 ∧ 2 ≤ row ≤ maxRows sh ∧ displayAt sh row col ≠ ""
       ∧ ∀ row', row < row' ≤ maxRows sh → displayAt sh row' col = "").

(** The position (from 1) of the column named [h] in a header row: that of
    the first cell that holds the name. *)
Definition position (headers : list value) (h : string) : option nat :=
  (fun i => i + 1) <$> indexOf headers (VStr h).

(** The sentences that the specification asks for, in its order of
    priority: the two historic sentences when the flag is set, the minor
    difference sentence when a selection was made, the structural sentence
    when a selected code is a structural one, the flattening sentence when a
    selected code is a flattening one. *)
Definition expectedLines (payload : Payload) : list string :=
  let selected c := Some (VStr c) ∈ (s_code <$> p_selections payload) in
  (if truthy_opt (p_historicYes payload)
   then [historicSentence1; historicSentence2] else [])
  ++ (match p_selections payload with [] => [] | _ => [minorDifferenceSentence] end)
  ++ (if bool_decide (Exists selected structural) then [structuralSentence] else [])
  ++ (if bool_decide (Exists selected flattening) then [flatteningSentence] else []).

(** The line feed character, as a text. *)
Definition newline : string := String "010" EmptyString.

(** [s] holds [pat] as a substring, up to the case of the letters. *)
Definition ContainsCI (pat s : string) : Prop :=
  ∃ pre mid post, s = pre +:+ mid +:+ post ∧ lowerASCII mid = lowerASCII pat.

(** The field [key] of a data row read against the header row [head]: the
    cell of the last column whose header, as a property name, is [key]. *)
Definition fieldOf (head row : list value) (key : string) : option value :=
  snd <$> last (filter (fun kv => String_ kv.1 = key) (zip head row)).


(** The number of rows below the header of the Items sheet whose BatchID is
    [batchId] (none when there is no Items sheet). *)
Definition itemsInBatch (batchId : value) (ss : Spreadsheet) : nat :=
  match ss !! SH_ITEMS with
  | None => 0
  | Some sh =>
      let v := getDataRangeValues sh in
      length (filter (fun row => fieldOf (nth 0 v []) row "BatchID" = Some batchId)
                (drop 1 v))
  end.

(** The column [col] of the sheet is the only one whose header reads
    [name]. *)
Definition OnlyColumn (sh : Sheet) (name : string) (col : nat) : Prop :=
  valueAt sh 1 col = VStr name ∧ ∀ c, String_ (valueAt sh 1 c) = name → c = col.

(** Every row of the batch [b] displays an item identifier: a row below
    the header with nothing displayed in the column [cItem] does not hold
    [b] in the column [cBatch]. *)
Definition BatchRowsKeyed (sh : Sheet) (b : value) (cItem cBatch : nat) : Prop :=
  ∀ row, 2 ≤ row → displayAt sh row cItem = "" → valueAt sh row cBatch ≠ b.

(** The spreadsheet after the two [ensureSheet_] calls of [saveItem]. *)
Definition itemSheetsEnsured (ss : Spreadsheet) : Spreadsheet :=
  (ensureSheet_ SH_SELECT (HEADERS SH_SELECT)
     (ensureSheet_ SH_ITEMS (HEADERS SH_ITEMS) ss).1).1.


(** The value of the cell [i] of a row as a text, trimmed: the text of a
    text cell, the digits of a number, [true] or [false] for a boolean,
    and the empty text for a cell without content. *)
Definition cellValueText (row : list value) (i : nat) : string :=
  trim (String_ (default (VStr "") (row !! i))).



(** The lookup in the words of the specification, over the values of the
    cells: the second column, trimmed, of the first data row whose first
    column, trimmed, is not blank and equals the code up to case; the empty
    text when there is no such row. *)
Fixpoint claimedNote (code : string) (rows : list (list value)) : string :=
  match rows with
  | [] => ""
  | row :: rest =>
      if bool_decide (cellValueText row 0 ≠ ""
                      ∧ toLowerCase (cellValueText row 0) = toLowerCase code)
      then cellValueText row 1
      else claimedNote code rest
  end.

(** The property under which [newBatch] records the photo folder of a
    batch. *)
Definition photosKey (batchId : value) : string := "PHOTOS_" +:+ String_ batchId.

(** An embedded PNG image with the base64 content [content]. *)
Definition pngDataUrl (content : string) : string :=
  "data:image/png;base64," +:+ content.

(** A photo entry whose payload is the text [dataUrl]. *)
Definition photoOf (dataUrl : string) : option Photo :=
  Some {| ph_dataUrl := Some (VStr dataUrl) |}.

(** The column [col] displays nothing from row [r] down, and [r] is the
    first row below the header of which this is true. *)
Definition FirstFreeRow (sh : Sheet) (col r : nat) : Prop :=
  2 ≤ r
  ∧ (∀ row, r ≤ row → displayAt sh row col = "")
  ∧ (r = 2 ∨ displayAt sh (r - 1) col ≠ "").

(** Every character of the text is of the class [[-\w]]. *)
Fixpoint allIdChars (s : string) : bool :=
  match s with
  | EmptyString => true
  | String c r => isIdChar c && allIdChars r
  end.

(** The text is empty or starts with a character outside the class. *)
Definition startsOutsideId (s : string) : bool :=
  match s with
  | EmptyString => true
  | String c _ => negb (isIdChar c)
  end.

(** The text is empty or ends with a character outside the class. *)
Fixpoint endsOutsideId (s : string) : bool :=
  match s with
  | EmptyString => true
  | String c r =>
      match r with
      | EmptyString => negb (isIdChar c)
      | String _ _ => endsOutsideId r
      end
  end.

(** The name ends with the extension [ext], whatever the case of its
    letters. *)
Definition HasExtension (name ext : string) : Prop :=
  ∃ base e, name = base +:+ e ∧ lowerASCII e = ext.

(** The name of the folder that [ensureClientFolder_] looks for: the
    client, or [Unnamed Client] for a client that counts as false, with the
    white space around it removed; none for a client that is not a text. *)
Definition clientFolderName (client : option value) : option string :=
  match or_else client (VStr "Unnamed Client") with
  | VStr s => Some (trim s)
  | _ => None
  end.

(** The entry carries an embedded image whose content the decoder accepts. *)
Definition decodable (env : Env) (p : option Photo) : bool :=
  match p with
  | None => false
  | Some p =>
      match matchDataUrl (String_or_empty (ph_dataUrl p)) with
      | None => false
      | Some (_, b64) => bool_decide (is_Some (env_base64Decode env b64))
      end
  end.

(** The number of entries of the list that carry an embedded image whose
    content the decoder accepts. *)
Definition decodableCount (env : Env) (photos : list (option Photo)) : nat :=
  length (filter (fun p => decodable env p = true) photos).

(** What one entry of the list of photos does, given the row [r] that is
    free in the Photos sheet [sh] before it. *)
Definition PhotoStep (folder : string) (w : World) (sh : Sheet) (r : nat)
    (res : result bool) (w' : World) : Prop :=
  ∃ new sh' r',
    w_files w' = w_files w ++ new
    ∧ (res = Ok true ∧ length new = 1 ∨ res ≠ Ok true ∧ new = [])
    ∧ (∀ f, f ∈ new → f_folder f = folder ∧ ∃ sub, f_contentType f = "image/" +:+ sub)
    ∧ w_env w' = w_env w ∧ w_props w' = w_props w ∧ w_log w' = w_log w
    ∧ w_ss w' !! SH_PHOTOS = Some sh'
    ∧ nextFreeRowByHeader_ sh' "PhotoID" = Ok r'
    ∧ ((∀ k, env_uuid (w_env w) k ≠ "") → r' = r + length new)
    ∧ (∀ n, n ≠ SH_PHOTOS → w_ss w' !! n = w_ss w !! n).

(* ===================================================================== *)
(** ** Sample data *)
(* ===================================================================== *)

(** A cell that holds the text [s]. *)
Definition textCell (s : string) : option Cell :=
  Some {| cvalue := VStr s; cdisplay := s |}.

(** An Items sheet of five rows: two items, then a row that only has a
    value outside the key column.
<<
      ItemID | BatchID | Code
      A      | b1      | I001
      B      | b2      | I001
             |         | x
>> *)
Definition sampleItems : Sheet :=
  {| maxRows := 5; maxCols := 4;
     cells := fun r c =>
       match r, c with
       | 1, 1 => textCell "ItemID" | 1, 2 => textCell "BatchID" | 1, 3 => textCell "Code"
       | 2, 1 => textCell "A" | 2, 2 => textCell "b1" | 2, 3 => textCell "I001"
       | 3, 1 => textCell "B" | 3, 2 => textCell "b2" | 3, 3 => textCell "I001"
       | 4, 3 => textCell "x"
       | _, _ => None
       end |}.

Definition sampleSpreadsheet : Spreadsheet := {[ SH_ITEMS := sampleItems ]}.

(** A sheet of [rows] rows that holds the names [H] in its header row and
    nothing else. *)
Definition headerSheet (H : list string) (rows : nat) : Sheet :=
  {| maxRows := rows; maxCols := length H;
     cells := fun r c =>
       match r, c with
       | 1, S i => match H !! i with Some h => textCell h | None => None end
       | _, _ => None
       end |}.

Definition sampleSelections : Spreadsheet :=
  {[ SH_SELECT := headerSheet (HEADERS SH_SELECT) 3 ]}.

(** A notes table: a row with a blank code, then two rows for the same
    code. *)
Definition sampleNotesRules : Sheet :=
  {| maxRows := 6; maxCols := 2;
     cells := fun r c =>
       match r, c with
       | 1, 1 => textCell "Code" | 1, 2 => textCell "NoteText"
       | 2, 2 => textCell "no code"
       | 3, 1 => textCell " AGE " | 3, 2 => textCell " Age related wear "
       | 4, 1 => textCell "age" | 4, 2 => textCell "second"
       | _, _ => None
       end |}.

Definition sampleNotesSpreadsheet : Spreadsheet := {[ "NotesRules" := sampleNotesRules ]}.

(** A notes table whose only data row has the number 0 as its code. *)
Definition zeroNotesRules : Sheet :=
  {| maxRows := 3; maxCols := 2;
     cells := fun r c =>
       match r, c with
       | 1, 1 => textCell "Code" | 1, 2 => textCell "NoteText"
       | 2, 1 => Some {| cvalue := VNum 0; cdisplay := "0" |}
       | 2, 2 => textCell "zero"
       | _, _ => None
       end |}.

(** A notes table with a code that is not of the ASCII range. *)
Definition accentNotesRules : Sheet :=
  {| maxRows := 3; maxCols := 2;
     cells := fun r c =>
       match r, c with
       | 1, 1 => textCell "Code" | 1, 2 => textCell "NoteText"
       | 2, 1 => textCell "ÉCLAT" | 2, 2 => textCell "Loss of gloss"
       | _, _ => None
       end |}.

(** Services that always answer. *)
Definition sampleEnv : Env :=
  {| env_uuid := fun n => "uuid" +:+ String_nat n +:+ "-0000-0000";
     env_formatDate := fun n _ => "20240101-" +:+ String_nat n;
     env_base64Decode := fun s => Some s;
     env_createFile := fun n => Some ("file" +:+ String_nat n);
     env_folderOk := fun _ => true |}.

(** A spreadsheet without sheets, no script property, no file. *)
Definition emptyWorld : World :=
  {| w_env := sampleEnv; w_tick := 0; w_ss := ∅; w_props := ∅;
     w_files := []; w_log := [] |}.

(** A state in which the photo folder of the batch [BATCH-1] is recorded
    and the Photos sheet has its header row. *)
Definition batchWorld : World :=
  {| w_env := sampleEnv; w_tick := 0;
     w_ss := {[ SH_PHOTOS := headerSheet (HEADERS SH_PHOTOS) 4 ]};
     w_props := {[ "PHOTOS_BATCH-1" := "folder1" ]};
     w_files := []; w_log := [] |}.

(** A selection with the code [c] and the note [n] only. *)
Definition selectionOf (c n : string) : Selection :=
  {| s_code := Some (VStr c); s_note := Some (VStr n); s_localized := None;
     s_extent := None; s_location := None |}.

(** The payload [{selections: [{code: "STRUCT_DAMAGED"}], historicYes: true}],
    sent without a batch or for the batch [batchId]. *)
Definition structDamagedFor (batchId : option value) : Payload :=
  {| p_batchId := batchId;
     p_selections := [ {| s_code := Some (VStr "STRUCT_DAMAGED"); s_note := None;
                          s_localized := None; s_extent := None;
                          s_location := None |} ];
     p_historicYes := Some (VBool true);
     p_historicCode := None; p_historicNotes := None; p_peril := None;
     p_impact := None; p_type := None; p_title := None; p_artist := None;
     p_material := None; p_date := None; p_dimensions := None;
     p_features := None; p_TreatmentTimeMinutes := None;
     p_TreatmentTimeUnit := None; p_TreatmentTime := None;
     p_incidentNotes := None; p_otherNotes := None |}.

Definition structDamagedPayload : Payload := structDamagedFor None.

(** A payload for the batch [BATCH-1] with one selection, whose note asks
    for a replacement. *)
Definition replacementPayload : Payload :=
  {| p_batchId := Some (VStr "BATCH-1");
     p_selections := [selectionOf "X" "replacement Needed"];
     p_historicYes := None;
     p_historicCode := None; p_historicNotes := None; p_peril := None;
     p_impact := None; p_type := None; p_title := None; p_artist := None;
     p_material := None; p_date := None; p_dimensions := None;
     p_features := None; p_TreatmentTimeMinutes := None;
     p_TreatmentTimeUnit := None; p_TreatmentTime := None;
     p_incidentNotes := None; p_otherNotes := None |}.

Definition structDamagedBatchPayload : Payload :=
  structDamagedFor (Some (VStr "BATCH-1")).

(** A sheet of three rows and two columns without content. *)
Definition blankSheet : Sheet :=
  {| maxRows := 3; maxCols := 2; cells := fun _ _ => None |}.

(** A file store without client folders, which names the folders it
    creates [folder0], [folder1], and so on. *)
Definition sampleDrive : Drive :=
  {| dr_folders := [];
     dr_newId := fun n => Some ("folder" +:+ String_nat n) |}.

(** A state whose spreadsheet has the Batches sheet with its header row
    and nothing else. *)
Definition batchesWorld : World :=
  {| w_env := sampleEnv; w_tick := 0;
     w_ss := {[ SH_BATCHES := headerSheet (HEADERS SH_BATCHES) 3 ]};
     w_props := ∅; w_files := []; w_log := [] |}.

(** A file store that holds one font file and nothing else. *)
Definition sampleAssets : Assets :=
  {| a_file := fun id =>
       if String.eqb id "1YUu6YPSWh87doniA_jLeyXCY78thYr2r"
       then Some {| f_folder := "fonts"; f_name := "GillSans-Light.WOFF2";
                    f_contentType := "application/octet-stream";
                    f_bytes := "abc"; f_id := id |}
       else None;
     a_base64Encode := fun bytes => "b64:" +:+ bytes |}.

(* ===================================================================== *)
(** * Properties *)
(* ===================================================================== *)

(** ** Built-ins *)

(** Decides a closed decidable proposition by evaluation. *)
Ltac by_compute := apply (bool_decide_unpack _); vm_compute; exact I.

Lemma indexOf_None (arr : list value) (x : value) :
  indexOf arr x = None ↔ x ∉ arr.
Proof.
  induction arr as [|y arr IH]; simpl.
  - split; [intros _; apply not_elem_of_nil | done].
  - unfold strict_eq. case_bool_decide as Hy.
    + subst. split; [done | intros H; exfalso; apply H; left].
    + destruct (indexOf arr x) eqn:E.
      * split; [done|]. intros H. exfalso.
        assert (x ∈ arr) as Hin.
        { destruct (decide (x ∈ arr)) as [|Hn]; [done|].
          apply IH in Hn. done. }
        apply H. by right.
      * split; [|done]. intros _ Hin.
        apply elem_of_cons in Hin as [->|Hin]; [done|].
        by apply (proj1 IH).
Qed.

Lemma indexOf_Some (arr : list value) (x : value) (i : nat) :
  indexOf arr x = Some i ↔
  arr !! i = Some x ∧ ∀ j, j < i → arr !! j ≠ Some x.
Proof.
  revert i. induction arr as [|y arr IH]; intros i; simpl.
  - split; [done | intros [H _]; done].
  - unfold strict_eq. case_bool_decide as Hy.
    + subst y. split.
      * intros [= <-]. split; [done | intros j Hj; lia].
      * intros [Hi Hlt]. destruct i as [|i]; [done|].
        exfalso. apply (Hlt 0); [lia | done].
    + destruct (indexOf arr x) as [k|].
      * split.
        -- intros [= <-]. destruct (proj1 (IH k) eq_refl) as [Hk Hlt].
           split; [done|].
           intros [|j] Hj; simpl; [congruence|]. apply Hlt. lia.
        -- intros [Hi Hlt]. destruct i as [|i]; simpl in Hi; [congruence|].
           assert (Some k = Some i) as [= ->]; [|done].
           apply IH. split; [done|].
           intros j Hj. apply (Hlt (S j)). lia.
      * split; [done|]. intros [Hi Hlt].
        destruct i as [|i]; simpl in Hi; [congruence|].
        assert (@None nat = Some i) as E'; [|done].
        apply IH. split; [done|]. intros j Hj. apply (Hlt (S j)). lia.
Qed.

Lemma indexOf_elem (arr : list value) (x : value) :
  x ∈ arr → ∃ i, indexOf arr x = Some i.
Proof.
  intros Hin. destruct (indexOf arr x) as [i|] eqn:E; [eauto|].
  apply indexOf_None in E. done.
Qed.

(** *** Lower case *)

Lemma utf8Decode_nil (s : string) : utf8Decode s = [] → s = "".
Proof.
  destruct s as [|b0 r0]; [done|]. cbn [utf8Decode]. cbv zeta.
  repeat case_match; done.
Qed.

Lemma lowerCodePoint_nonempty (c : Z) : lowerCodePoint c ≠ [].
Proof. unfold lowerCodePoint. repeat case_match; done. Qed.

Lemma lowerCodePoints_nil (before : bool) (l : list Z) :
  lowerCodePoints before l = [] → l = [].
Proof.
  destruct l as [|c r]; [done|]. cbn [lowerCodePoints]. intros E.
  apply app_eq_nil in E as [E _]. destruct (c =? 931)%Z; [done|].
  by apply lowerCodePoint_nonempty in E.
Qed.

Lemma utf8Encode_nil (l : list Z) : utf8Encode l = "" → l = [].
Proof.
  destruct l as [|c r]; [done|]. cbn [utf8Encode]. unfold utf8Bytes.
  repeat case_match; done.
Qed.

Lemma toLowerCase_empty (s : string) : toLowerCase s = "" → s = "".
Proof.
  intros E. apply utf8Decode_nil, (lowerCodePoints_nil false), utf8Encode_nil, E.
Qed.

(** *** White space *)

Section dropSpace.
Variable s2 : ascii → ascii → bool.
Variable s3 : ascii → ascii → ascii → bool.

Lemma dropSpace_id (l : list ascii) :
  startsWithSpace s2 s3 l = false → dropSpace s2 s3 l = l.
Proof.
  destruct l as [|a [|b [|c r]]]; cbn [startsWithSpace dropSpace]; [done|..].
  - rewrite orb_false_r. by intros ->.
  - intros H. apply orb_false_elim in H as [-> H]. rewrite orb_false_r in H.
    by rewrite H.
  - intros H. apply orb_false_elim in H as [-> H].
    apply orb_false_elim in H as [-> ->]. done.
Qed.

Lemma dropSpace_spec (n : nat) (l : list ascii) :
  length l ≤ n →
  startsWithSpace s2 s3 (dropSpace s2 s3 l) = false
  ∧ ∃ p, l = p ++ dropSpace s2 s3 l.
Proof.
  revert l. induction n as [|n IH]; intros l Hn.
  { destruct l; [|simpl in Hn; lia]. split; [done|]. by exists []. }
  destruct l as [|a r]; [split; [done|]; by exists []|].
  cbn [length] in Hn. cbn [dropSpace].
  destruct (Ascii.is_space a) eqn:Ha.
  { destruct (IH r) as [H1 [p H2]]; [lia|]. split; [done|].
    exists (a :: p). by rewrite <- app_comm_cons, <- H2. }
  destruct r as [|b r1].
  { split; [by cbn [startsWithSpace]; rewrite Ha|]. by exists []. }
  cbn [length] in Hn. destruct (s2 a b) eqn:Hab.
  { destruct (IH r1) as [H1 [p H2]]; [lia|]. split; [done|].
    exists (a :: b :: p). by rewrite <- !app_comm_cons, <- H2. }
  destruct r1 as [|c r2].
  { split; [by cbn [startsWithSpace]; rewrite Ha, Hab|]. by exists []. }
  cbn [length] in Hn. destruct (s3 a b c) eqn:Habc.
  { destruct (IH r2) as [H1 [p H2]]; [lia|]. split; [done|].
    exists (a :: b :: c :: p). by rewrite <- !app_comm_cons, <- H2. }
  split; [by cbn [startsWithSpace]; rewrite Ha, Hab, Habc|]. by exists [].
Qed.

Lemma dropSpace_idem (l : list ascii) :
  dropSpace s2 s3 (dropSpace s2 s3 l) = dropSpace s2 s3 l.
Proof. apply dropSpace_id, (dropSpace_spec (length l) l). done. Qed.

Lemma startsWithSpace_app (l k : list ascii) :
  startsWithSpace s2 s3 l = true → startsWithSpace s2 s3 (l ++ k) = true.
Proof.
  destruct l as [|a [|b [|c r]]]; cbn [startsWithSpace app]; [done|..].
  - rewrite orb_false_r. by intros ->.
  - rewrite orb_false_r. intros H. apply orb_true_iff in H as [-> | ->]; [done|].
    by rewrite orb_true_r.
  - done.
Qed.

End dropSpace.

Lemma trim_idem (s : string) : trim (trim s) = trim s.
Proof.
  unfold trim, trimEnd, trimStart.
  rewrite !String.list_ascii_of_string_of_list_ascii.
  set (t := dropSpace space2 space3 (String.list_ascii_of_string s)).
  set (D := dropSpace (fun a b => space2 b a) (fun a b c => space3 c b a)).
  assert (startsWithSpace space2 space3 (rev (D (rev t))) = false) as Hu.
  { destruct (startsWithSpace space2 space3 (rev (D (rev t)))) eqn:E; [|done].
    destruct (dropSpace_spec (fun a b => space2 b a) (fun a b c => space3 c b a)
                (length (rev t)) (rev t)) as [_ [p Hp]]; [done|].
    fold D in Hp. apply (f_equal (fun l => rev l)) in Hp. cbv beta in Hp. rewrite rev_involutive, rev_app_distr in Hp.
    pose proof (dropSpace_spec space2 space3 (length (String.list_ascii_of_string s))
                  (String.list_ascii_of_string s)) as [Ht _]; [done|].
    fold t in Ht. rewrite Hp in Ht.
    by rewrite (startsWithSpace_app _ _ _ _ E) in Ht. }
  rewrite (dropSpace_id _ _ _ Hu), rev_involutive.
  unfold D. by rewrite dropSpace_idem.
Qed.

(** ** Keyed row allocator *)

Lemma getDisplayValues_length sh r c nr nc :
  length (getDisplayValues sh r c nr nc) = nr.
Proof. unfold getDisplayValues. by rewrite length_map, length_seq. Qed.

Lemma getDisplayValues_col sh r c nr i :
  i < nr →
  nth 0 (nth i (getDisplayValues sh r c nr 1) []) "" = displayAt sh (r + i) c.
Proof.
  intros Hi. unfold getDisplayValues.
  rewrite (nth_indep _ [] (map (λ j, displayAt sh 0 j) (seq c 1)))
    by (by rewrite length_map, length_seq).
  rewrite (map_nth (λ i, map (λ j, displayAt sh i j) (seq c 1)) (seq r nr) 0 i).
  by rewrite seq_nth.
Qed.

Lemma scanUp_spec (colVals : list (list string)) (n : nat) :
  (scanUp colVals n = 2
     ∧ ∀ i, i < n → nth 0 (nth i colVals []) "" = "")
  ∨ (∃ i, i < n ∧ scanUp colVals n = i + 3
       ∧ nth 0 (nth i colVals []) "" ≠ ""
       ∧ ∀ j, i < j < n → nth 0 (nth j colVals []) "" = "").
Proof.
  induction n as [|n IH]; simpl.
  - left. split; [done | intros i Hi; lia].
  - destruct (String.eqb (nth 0 (nth n colVals []) "") "") eqn:E; simpl.
    + apply String.eqb_eq in E.
      destruct IH as [[H2 Hall]|(i & Hi & Hr & Hne & Hafter)].
      * left. split; [done|]. intros i Hi.
        destruct (decide (i = n)) as [->|]; [done | apply Hall; lia].
      * right. exists i. repeat split; [lia | done | done |].
        intros j Hj. destruct (decide (j = n)) as [->|]; [done | apply Hafter; lia].
    + apply String.eqb_neq in E. right. exists n.
      repeat split; [lia | lia | done | intros j Hj; lia].
Qed.

(** C1. [nextFreeRowByHeader_] throws when the key column name is not in the
    header row; otherwise it returns the append point of the key column:
    the row after the last row below the header whose displayed value is
    not empty, and row 2 when there is no such row (in particular on a
    sheet without rows below the header). *)
Theorem nextFreeRow_append_point (sh : Sheet) (keyHeader : string) :
  (VStr keyHeader ∉ getHeaders_ sh →
     nextFreeRowByHeader_ sh keyHeader
     = Throw ("Key header not found: " +:+ keyHeader))
  ∧ (VStr keyHeader ∈ getHeaders_ sh →
     ∃ idx r,
       indexOf (getHeaders_ sh) (VStr keyHeader) = Some idx
       ∧ nextFreeRowByHeader_ sh keyHeader = Ok r
       ∧ AppendPoint sh (idx + 1) r).
Proof.
  split.
  - intros Hnot. apply indexOf_None in Hnot.
    unfold nextFreeRowByHeader_. by rewrite Hnot.
  - intros Hin. apply indexOf_elem in Hin as [idx Hidx].
    exists idx. unfold nextFreeRowByHeader_. rewrite Hidx.
    unfold getMaxRows. replace (Nat.max 0 (maxRows sh - 1)) with (maxRows sh - 1) by lia.
    destruct (maxRows sh - 1 =? 0) eqn:E.
    + apply Nat.eqb_eq in E. exists 2. repeat split; [].
      left. split; [done | intros row Hrow; lia].
    + apply Nat.eqb_neq in E. eexists. repeat split; [].
      rewrite getDisplayValues_length.
      destruct (scanUp_spec (getDisplayValues sh 2 (idx + 1) (maxRows sh - 1) 1)
                  (maxRows sh - 1))
        as [[H2 Hall]|(i & Hi & Hr & Hne & Hafter)].
      * left. split; [done|]. intros row Hrow.
        specialize (Hall (row - 2) ltac:(lia)).
        rewrite getDisplayValues_col in Hall by lia.
        by replace (2 + (row - 2)) with row in Hall by lia.
      * right. exists (i + 2).
        rewrite getDisplayValues_col in Hne by lia.
        replace (2 + i) with (i + 2) in Hne by lia.
        repeat split; [lia | lia | lia | done |].
        intros row' Hrow'. specialize (Hafter (row' - 2) ltac:(lia)).
        rewrite getDisplayValues_col in Hafter by lia.
        by replace (2 + (row' - 2)) with row' in Hafter by lia.
Qed.

(** ** The grid *)

(** Case analysis on the comparisons of a goal about grid coordinates. *)
Ltac grid_cases :=
  cbn [maxRows maxCols cells];
  repeat match goal with
         | |- context [?a <=? ?b] => destruct (Nat.leb_spec a b); try lia
         | |- context [?a =? ?b] => destruct (Nat.eqb_spec a b); try lia
         | |- context [?a <? ?b] => destruct (Nat.ltb_spec a b); try lia
         end;
  cbn [andb orb negb]; try done; try lia.

Lemma cellAt_outside (sh : Sheet) (r c : nat) :
  r = 0 ∨ maxRows sh < r ∨ c = 0 ∨ maxCols sh < c → cellAt sh r c = None.
Proof. intros H. unfold cellAt, inGrid. grid_cases. Qed.

Lemma cellAt_Some_inv (sh : Sheet) (r c : nat) (x : Cell) :
  cellAt sh r c = Some x → 1 ≤ r ≤ maxRows sh ∧ 1 ≤ c ≤ maxCols sh.
Proof.
  intros H. destruct (decide (1 ≤ r ≤ maxRows sh ∧ 1 ≤ c ≤ maxCols sh)); [done|].
  rewrite cellAt_outside in H by lia. done.
Qed.

Lemma valueAt_stored (sh : Sheet) (r c : nat) (v : value) :
  cellAt sh r c = stored v → valueAt sh r c = v.
Proof.
  intros H. unfold valueAt. rewrite H. unfold stored.
  by destruct (decide (v = VStr "")) as [->|].
Qed.

Lemma stored_Some (s : string) : s ≠ "" → hasContent (stored (VStr s)) = true.
Proof.
  intros Hs. unfold stored. destruct (decide (VStr s = VStr "")) as [[=]|]; done.
Qed.

Lemma cellAt_setValue (sh : Sheet) (r c : nat) (v : value) (r' c' : nat) :
  1 ≤ r → 1 ≤ c →
  cellAt (setValue sh r c v) r' c'
  = if (r' =? r) && (c' =? c) then stored v else cellAt sh r' c'.
Proof.
  intros Hr Hc. unfold cellAt at 1, inGrid, setValue.
  destruct (cellAt sh r' c') eqn:E.
  - pose proof (cellAt_Some_inv _ _ _ _ E). grid_cases.
  - grid_cases.
Qed.

Lemma cellAt_setRowValues (vals : list value) (sh : Sheet) (r c r' c' : nat) :
  1 ≤ r → 1 ≤ c →
  cellAt (setRowValues sh r c vals) r' c'
  = if (r' =? r) && (c <=? c') && (c' <? c + length vals)
    then match vals !! (c' - c) with Some v => stored v | None => None end
    else cellAt sh r' c'.
Proof.
  revert sh c.
  induction vals as [|v vals IH]; intros sh c Hr Hc; cbn [setRowValues length].
  - grid_cases.
  - rewrite IH by lia. rewrite cellAt_setValue by lia.
    destruct (decide (c' = c)) as [->|Hc'].
    + replace (c - c) with 0 by lia.
      change ((v :: vals) !! 0) with (Some v). grid_cases.
    + destruct (decide (c < c')).
      * replace (c' - c) with (S (c' - S c)) by lia.
        change ((v :: vals) !! S (c' - S c)) with (vals !! (c' - S c)).
        grid_cases.
      * grid_cases.
Qed.

Lemma cellAt_insertColumnsAfter (sh : Sheet) (after n r c : nat) :
  cellAt (insertColumnsAfter sh after n) r c
  = if c <=? after then cellAt sh r c
    else if c <=? after + n then None
    else cellAt sh r (c - n).
Proof.
  unfold cellAt at 1, inGrid, insertColumnsAfter.
  destruct (cellAt sh r c) eqn:E1;
    [pose proof (cellAt_Some_inv _ _ _ _ E1)|];
    (destruct (cellAt sh r (c - n)) eqn:E2;
     [pose proof (cellAt_Some_inv _ _ _ _ E2)|]);
    grid_cases.
Qed.

(** *** The last column with content *)

Lemma last_such_true p n : last_such p n ≠ 0 → p (last_such p n) = true.
Proof.
  induction n; simpl; [done|]. destruct (p (S n)) eqn:E; [done | apply IHn].
Qed.

Lemma last_such_ge p n i : 1 ≤ i ≤ n → p i = true → i ≤ last_such p n.
Proof.
  induction n; simpl; intros Hi Hp; [lia|].
  destruct (p (S n)) eqn:E; [lia|].
  destruct (decide (i = S n)) as [->|]; [congruence|]. apply IHn; [lia | done].
Qed.

Lemma colHasContent_true (sh : Sheet) (c : nat) :
  colHasContent sh c = true ↔ ∃ r, hasContent (cellAt sh r c) = true.
Proof.
  unfold colHasContent. rewrite existsb_exists. split.
  - intros (r & _ & Hr). eauto.
  - intros (r & Hr). exists r. split; [|done].
    destruct (cellAt sh r c) eqn:E; [|done].
    apply cellAt_Some_inv in E. apply in_seq. lia.
Qed.

Lemma rowHasContent_true (sh : Sheet) (r : nat) :
  rowHasContent sh r = true ↔ ∃ c, hasContent (cellAt sh r c) = true.
Proof.
  unfold rowHasContent. rewrite existsb_exists. split.
  - intros (c & _ & Hc). eauto.
  - intros (c & Hc). exists c. split; [|done].
    destruct (cellAt sh r c) eqn:E; [|done].
    apply cellAt_Some_inv in E. apply in_seq. lia.
Qed.

Lemma getLastColumn_ge (sh : Sheet) (r c : nat) :
  hasContent (cellAt sh r c) = true → c ≤ getLastColumn sh.
Proof.
  intros H. unfold getLastColumn. apply last_such_ge.
  - destruct (cellAt sh r c) eqn:E; [|done]. apply cellAt_Some_inv in E. lia.
  - apply colHasContent_true. eauto.
Qed.

Lemma getLastColumn_content (sh : Sheet) :
  getLastColumn sh ≠ 0 → ∃ r, hasContent (cellAt sh r (getLastColumn sh)) = true.
Proof.
  intros H. apply colHasContent_true. by apply last_such_true.
Qed.

Lemma getLastColumn_beyond (sh : Sheet) (r c : nat) :
  getLastColumn sh < c → cellAt sh r c = None.
Proof.
  intros Hc. destruct (cellAt sh r c) eqn:E; [|done].
  assert (c ≤ getLastColumn sh); [|lia].
  apply (getLastColumn_ge sh r). by rewrite E.
Qed.

(** The last column depends on the content of the cells only. *)
Lemma getLastColumn_le_of_content (sh sh' : Sheet) :
  (∀ r c, hasContent (cellAt sh r c) = true → hasContent (cellAt sh' r c) = true) →
  getLastColumn sh ≤ getLastColumn sh'.
Proof.
  intros H. destruct (decide (getLastColumn sh = 0)) as [->|Hne]; [lia|].
  destruct (getLastColumn_content sh Hne) as [r Hr].
  apply (getLastColumn_ge sh' r). by apply H.
Qed.

Lemma getLastColumn_ext (sh sh' : Sheet) :
  (∀ r c, cellAt sh' r c = cellAt sh r c) → getLastColumn sh' = getLastColumn sh.
Proof.
  intros H. apply Nat.le_antisymm; apply getLastColumn_le_of_content;
    intros r c; by rewrite H.
Qed.

Lemma getLastRow_ge (sh : Sheet) (r c : nat) :
  hasContent (cellAt sh r c) = true → r ≤ getLastRow sh.
Proof.
  intros H. unfold getLastRow. apply last_such_ge.
  - destruct (cellAt sh r c) eqn:E; [|done]. apply cellAt_Some_inv in E. lia.
  - apply rowHasContent_true. eauto.
Qed.

Lemma getLastRow_content (sh : Sheet) :
  getLastRow sh ≠ 0 → ∃ c, hasContent (cellAt sh (getLastRow sh) c) = true.
Proof.
  intros H. apply rowHasContent_true. by apply last_such_true.
Qed.

(** *** The header row *)

Lemma getHeaders_eq (sh : Sheet) :
  getHeaders_ sh = map (valueAt sh 1) (seq 1 (Nat.max 1 (getLastColumn sh))).
Proof. done. Qed.

Lemma getHeaders_length (sh : Sheet) :
  length (getHeaders_ sh) = Nat.max 1 (getLastColumn sh).
Proof. rewrite getHeaders_eq. by rewrite length_map, length_seq. Qed.

Lemma getHeaders_lookup (sh : Sheet) (i : nat) :
  i < length (getHeaders_ sh) → getHeaders_ sh !! i = Some (valueAt sh 1 (i + 1)).
Proof.
  intros Hi. rewrite getHeaders_length in Hi. rewrite getHeaders_eq.
  rewrite list_lookup_fmap, lookup_seq_lt by done. simpl. f_equal. f_equal. lia.
Qed.

Lemma getHeaders_lookup_Some (sh : Sheet) (i : nat) (v : value) :
  getHeaders_ sh !! i = Some v →
  i < length (getHeaders_ sh) ∧ v = valueAt sh 1 (i + 1).
Proof.
  intros H. assert (i < length (getHeaders_ sh)) as Hi by (by eapply lookup_lt_Some).
  split; [done|]. rewrite getHeaders_lookup in H by done. congruence.
Qed.

Lemma getHeaders_beyond (sh : Sheet) (r c : nat) :
  length (getHeaders_ sh) < c → cellAt sh r c = None.
Proof.
  rewrite getHeaders_length. intros Hc. apply getLastColumn_beyond. lia.
Qed.

Lemma getHeaders_ext (sh sh' : Sheet) :
  (∀ r c, cellAt sh' r c = cellAt sh r c) → getHeaders_ sh' = getHeaders_ sh.
Proof.
  intros H. rewrite !getHeaders_eq, (getLastColumn_ext sh sh' H).
  apply map_ext. intros c. unfold valueAt. by rewrite H.
Qed.

(** ** Schema manager *)

Lemma ensureSheet_lookup (name : string) (H : list string) (ss : Spreadsheet) :
  (ensureSheet_ name H ss).1 !! name = Some (ensureSheet_ name H ss).2.
Proof.
  unfold ensureSheet_. destruct (ss !! name) as [sh|] eqn:E.
  - repeat case_match; simpl; by rewrite ?lookup_insert_eq.
  - simpl. by rewrite lookup_insert_eq.
Qed.

Lemma ensureSheet_other (name : string) (H : list string) (ss : Spreadsheet) (n : string) :
  n ≠ name → (ensureSheet_ name H ss).1 !! n = ss !! n.
Proof.
  intros Hn. unfold ensureSheet_. destruct (ss !! name) as [sh|] eqn:E.
  - repeat case_match; simpl; by rewrite ?lookup_insert_ne.
  - simpl. by rewrite lookup_insert_ne.
Qed.

(** The cells of a sheet that [ensureSheet_] creates. *)
Lemma ensureSheet_new_cells (name : string) (H : list string) (ss : Spreadsheet)
    (r c : nat) :
  ss !! name = None →
  cellAt (ensureSheet_ name H ss).2 r c
  = if decide (r = 1 ∧ 1 ≤ c ≤ length H)
    then match H !! (c - 1) with Some h => stored (VStr h) | None => None end
    else None.
Proof.
  intros E. unfold ensureSheet_. rewrite E. cbn [snd].
  assert (cellAt newSheet r c = None) as Hnew by (unfold cellAt; by case_match).
  destruct H as [|h H].
  - rewrite decide_False by (simpl; lia). done.
  - replace (0 <? length (h :: H)) with true by (simpl; done).
    rewrite cellAt_setRowValues by lia.
    rewrite length_fmap, list_lookup_fmap, Hnew.
    destruct (decide (r = 1 ∧ 1 ≤ c ≤ length (h :: H))) as [Hd|Hd].
    + replace ((r =? 1) && (1 <=? c) && (c <? 1 + length (h :: H))) with true
        by grid_cases.
      by destruct ((h :: H) !! (c - 1)).
    + replace ((r =? 1) && (1 <=? c) && (c <? 1 + length (h :: H))) with false
        by grid_cases.
      done.
Qed.

(** The cells of an existing sheet after [ensureSheet_]: the missing names
    are written in the header row right after the columns read by
    [getHeaders_]; every other cell is as before. *)
Lemma ensureSheet_existing_cells (name : string) (H : list string)
    (ss : Spreadsheet) (sh : Sheet) (r c : nat) :
  ss !! name = Some sh →
  let current := getHeaders_ sh in
  let missing := missingColumns current H in
  cellAt (ensureSheet_ name H ss).2 r c
  = if decide (r = 1 ∧ length current < c ≤ length current + length missing)
    then match missing !! (c - (length current + 1)) with
         | Some h => stored (VStr h)
         | None => None
         end
    else cellAt sh r c.
Proof.
  intros E current missing. unfold ensureSheet_. rewrite E.
  fold current. fold missing.
  destruct (0 <? length H) eqn:EH.
  - destruct (0 <? length missing) eqn:EM; cbn [snd].
    + rewrite cellAt_setRowValues by lia.
      rewrite length_fmap, list_lookup_fmap, cellAt_insertColumnsAfter.
      destruct (decide (r = 1 ∧ length current < c ≤ length current + length missing))
        as [Hd|Hd].
      * replace ((r =? 1) && (length current + 1 <=? c)
                 && (c <? length current + 1 + length missing)) with true
          by grid_cases.
        by destruct (missing !! (c - (length current + 1))).
      * replace ((r =? 1) && (length current + 1 <=? c)
                 && (c <? length current + 1 + length missing)) with false
          by grid_cases.
        destruct (Nat.leb_spec c (length current)); [done|].
        rewrite (getHeaders_beyond sh r c) by done.
        destruct (Nat.leb_spec c (length current + length missing)); [done|].
        apply getHeaders_beyond. fold current. lia.
    + apply Nat.ltb_ge in EM. rewrite decide_False by lia. done.
  - cbn [snd]. apply Nat.ltb_ge in EH.
    assert (missing = []) as ->.
    { unfold missing. destruct H; [done | simpl in EH; lia]. }
    cbn [length]. rewrite decide_False by lia. done.
Qed.

(** A non-empty name stored in the header row is read back by
    [getHeaders_]. *)
Lemma getHeaders_elem_of_cell (sh : Sheet) (c : nat) (h : string) :
  h ≠ "" → cellAt sh 1 c = stored (VStr h) → getHeaders_ sh !! (c - 1) = Some (VStr h).
Proof.
  intros Hh Hc.
  assert (hasContent (cellAt sh 1 c) = true) as Hcont
    by (rewrite Hc; by apply stored_Some).
  pose proof (getLastColumn_ge sh 1 c Hcont) as Hle.
  assert (1 ≤ c) as Hpos.
  { destruct (cellAt sh 1 c) eqn:E; [|done]. apply cellAt_Some_inv in E. lia. }
  rewrite getHeaders_lookup by (rewrite getHeaders_length; lia).
  replace (c - 1 + 1) with c by lia. f_equal. by apply valueAt_stored.
Qed.

(** Existing columns keep their name and their position. *)
Lemma ensureSheet_keeps_columns (name : string) (H : list string)
    (ss : Spreadsheet) (sh : Sheet) (i : nat) (v : value) :
  ss !! name = Some sh →
  getHeaders_ sh !! i = Some v →
  getHeaders_ (ensureSheet_ name H ss).2 !! i = Some v.
Proof.
  intros E Hi. apply getHeaders_lookup_Some in Hi as [Hlt ->].
  assert (length (getHeaders_ sh) ≤ length (getHeaders_ (ensureSheet_ name H ss).2)) as Hlen.
  { rewrite !getHeaders_length.
    apply Nat.max_le_compat_l, getLastColumn_le_of_content. intros r c Hc.
    rewrite (ensureSheet_existing_cells name H ss sh r c E).
    rewrite decide_False; [done|].
    pose proof (getLastColumn_ge sh r c Hc). rewrite getHeaders_length. lia. }
  rewrite getHeaders_lookup by lia. f_equal. unfold valueAt.
  rewrite (ensureSheet_existing_cells name H ss sh 1 (i + 1) E).
  rewrite decide_False by lia. done.
Qed.

(** After [ensureSheet_], every non-empty name of the canonical header is
    in the header row. *)
Lemma ensureSheet_has_columns (name : string) (H : list string)
    (ss : Spreadsheet) (h : string) :
  h ∈ H → h ≠ "" → VStr h ∈ getHeaders_ (ensureSheet_ name H ss).2.
Proof.
  intros Hin Hne. destruct (ss !! name) as [sh|] eqn:E.
  - destruct (decide (VStr h ∈ getHeaders_ sh)) as [Hcur|Hcur].
    + apply list_elem_of_lookup in Hcur as [i Hi].
      apply list_elem_of_lookup. exists i.
      by apply (ensureSheet_keeps_columns name H ss sh).
    + assert (h ∈ missingColumns (getHeaders_ sh) H) as Hm.
      { unfold missingColumns. apply list_elem_of_filter. split; [|done].
        by apply indexOf_None. }
      apply list_elem_of_lookup in Hm as [j Hj].
      pose proof (lookup_lt_Some _ _ _ Hj) as Hlt.
      apply list_elem_of_lookup. exists (length (getHeaders_ sh) + 1 + j - 1).
      apply getHeaders_elem_of_cell; [done|].
      rewrite (ensureSheet_existing_cells name H ss sh _ _ E).
      rewrite decide_True by lia.
      replace (length (getHeaders_ sh) + 1 + j - (length (getHeaders_ sh) + 1))
        with j by lia.
      by rewrite Hj.
  - apply list_elem_of_lookup in Hin as [j Hj].
    pose proof (lookup_lt_Some _ _ _ Hj) as Hlt.
    apply list_elem_of_lookup. exists (j + 1 - 1).
    apply getHeaders_elem_of_cell; [done|].
    rewrite (ensureSheet_new_cells name H ss _ _ E).
    rewrite decide_True by lia.
    replace (j + 1 - 1) with j by lia. by rewrite Hj.
Qed.

(** The header row of a sheet that [ensureSheet_] creates is the canonical
    header, when none of its names is empty. *)
Lemma ensureSheet_new_headers (name : string) (H : list string) (ss : Spreadsheet) :
  ss !! name = None → H ≠ [] → "" ∉ H →
  getHeaders_ (ensureSheet_ name H ss).2 = VStr <$> H.
Proof.
  intros Hnone Hnil Hne. set (sh := (ensureSheet_ name H ss).2).
  pose proof (fun r c => ensureSheet_new_cells name H ss r c Hnone) as Hcells.
  fold sh in Hcells.
  assert (0 < length H) as Hpos by (destruct H; [done | simpl; lia]).
  assert (∀ i h, H !! i = Some h → cellAt sh 1 (i + 1) = stored (VStr h)) as Hcell.
  { intros i h Hi. pose proof (lookup_lt_Some _ _ _ Hi).
    rewrite Hcells, decide_True by lia.
    replace (i + 1 - 1) with i by lia. by rewrite Hi. }
  assert (length (getHeaders_ sh) = length H) as Hlen.
  { rewrite getHeaders_length.
    assert (length H ≤ getLastColumn sh).
    { destruct (lookup_lt_is_Some_2 H (length H - 1)) as [h Hh]; [lia|].
      apply (getLastColumn_ge sh 1).
      replace (length H) with (length H - 1 + 1) by lia.
      rewrite (Hcell _ _ Hh). apply stored_Some. intros ->.
      apply Hne, list_elem_of_lookup. eauto. }
    assert (getLastColumn sh ≤ length H); [|lia].
    destruct (decide (getLastColumn sh ≤ length H)); [done|].
    destruct (getLastColumn_content sh) as [r Hr]; [lia|].
    rewrite Hcells, decide_False in Hr by lia. done. }
  apply list_eq. intros i. rewrite list_lookup_fmap.
  destruct (H !! i) as [h|] eqn:Eh; simpl.
  - pose proof (lookup_lt_Some _ _ _ Eh).
    rewrite getHeaders_lookup by lia. f_equal. by apply valueAt_stored, Hcell.
  - apply lookup_ge_None in Eh. apply lookup_ge_None. lia.
Qed.

(** The columns that [ensureSheet_] finds missing are the canonical header
    minus the names of the header row, in canonical order. *)
Lemma missingColumns_difference (current : list value) (header : list string) :
  missingColumns current header = filter (fun h => VStr h ∉ current) header.
Proof.
  unfold missingColumns. apply list_filter_iff. intros h. apply indexOf_None.
Qed.

(** The names found missing right after [ensureSheet_] are all empty. *)
Lemma ensureSheet_missing_again (name : string) (H : list string)
    (ss : Spreadsheet) (h : string) :
  h ∈ missingColumns (getHeaders_ (ensureSheet_ name H ss).2) H → h = "".
Proof.
  rewrite missingColumns_difference. intros [Hnot Hin]%list_elem_of_filter.
  destruct (decide (h = "")) as [|Hne]; [done|].
  exfalso. apply Hnot. by apply ensureSheet_has_columns.
Qed.

(** When the canonical header holds no empty name, the second call changes
    nothing at all. *)
Lemma ensureSheet_twice_same_state (name : string) (H : list string)
    (ss0 : Spreadsheet) :
  "" ∉ H →
  ensureSheet_ name H (ensureSheet_ name H ss0).1
  = ((ensureSheet_ name H ss0).1, (ensureSheet_ name H ss0).2).
Proof.
  intros Hne.
  pose proof (ensureSheet_lookup name H ss0) as E1.
  assert (missingColumns (getHeaders_ (ensureSheet_ name H ss0).2) H = []) as Hm.
  { destruct (missingColumns _ H) as [|h m] eqn:E; [done|].
    assert (h = "") as ->.
    { apply (ensureSheet_missing_again name H ss0). rewrite E. left. }
    exfalso. apply Hne.
    assert ("" ∈ missingColumns (getHeaders_ (ensureSheet_ name H ss0).2) H) as Hin
      by (rewrite E; left).
    unfold missingColumns in Hin. by apply list_elem_of_filter in Hin as [_ ?]. }
  unfold ensureSheet_ at 1. rewrite E1, Hm. simpl. by destruct (0 <? length H).
Qed.

(** C3. [ensureSheet_] is idempotent: a second call with the same canonical
    header returns (it has no throwing path) a sheet whose header row is
    the one the first call left and in which no cell has changed, so no
    column is added a second time; the other sheets are as they were.
    When no name of the canonical header is empty, the second call leaves
    the whole spreadsheet as it is. *)
Theorem ensureSheet_idempotent (name : string) (H : list string) (ss0 : Spreadsheet) :
  let ss1 := (ensureSheet_ name H ss0).1 in
  let sh1 := (ensureSheet_ name H ss0).2 in
  let ss2 := (ensureSheet_ name H ss1).1 in
  let sh2 := (ensureSheet_ name H ss1).2 in
  ss2 !! name = Some sh2
  ∧ getHeaders_ sh2 = getHeaders_ sh1
  ∧ (∀ r c, cellAt sh2 r c = cellAt sh1 r c)
  ∧ (∀ n, n ≠ name → ss2 !! n = ss1 !! n)
  ∧ ("" ∉ H → ss2 = ss1 ∧ sh2 = sh1).
Proof.
  intros ss1 sh1 ss2 sh2.
  assert (ss1 !! name = Some sh1) as E1 by apply ensureSheet_lookup.
  assert (∀ r c, cellAt sh2 r c = cellAt sh1 r c) as Hcells.
  { intros r c. unfold sh2.
    rewrite (ensureSheet_existing_cells name H ss1 sh1 r c E1).
    case_decide as Hd; [|done].
    rewrite (getHeaders_beyond sh1 r c) by lia.
    destruct (missingColumns (getHeaders_ sh1) H !! _) as [h|] eqn:Eh; [|done].
    assert (h = "") as ->; [|done].
    apply (ensureSheet_missing_again name H ss0).
    apply list_elem_of_lookup. eauto. }
  split; [apply ensureSheet_lookup|].
  split; [by apply getHeaders_ext|].
  split; [done|].
  split; [intros n Hn; by apply ensureSheet_other|].
  intros Hne. unfold ss2, sh2, ss1.
  by rewrite (ensureSheet_twice_same_state name H ss0 Hne).
Qed.

(** C2. Take an existing sheet whose header row is the one that a call of
    [ensureSheet_] with the canonical header [H1] has left, and a canonical
    header [H2] that extends [H1].  The call with [H2] writes the names of
    [H2] that the header row lacks, in canonical order, in the cells that
    follow the last column of the header row; none of them is a name of
    [H1]; the columns already there keep their name and position, and no
    cell of a data row changes. *)
Theorem ensureSheet_header_growth (name : string) (H1 H2 : list string)
    (ss0 ss1 : Spreadsheet) (sh1 : Sheet) :
  let sh2 := (ensureSheet_ name H2 ss1).2 in
  let current := getHeaders_ sh1 in
  let missing := missingColumns current H2 in
  ss1 !! name = Some sh1 →
  getHeaders_ sh1 = getHeaders_ (ensureSheet_ name H1 ss0).2 →
  H1 ⊆ H2 →
  (ensureSheet_ name H2 ss1).1 !! name = Some sh2
  ∧ missing = filter (fun h => VStr h ∉ current) H2
  ∧ (∀ h, h ∈ missing → h ≠ "" → h ∉ H1)
  ∧ (∀ j h, missing !! j = Some h →
       valueAt sh2 1 (length current + 1 + j) = VStr h)
  ∧ (∀ c, length current + length missing < c → cellAt sh2 1 c = None)
  ∧ (∀ i v, current !! i = Some v → getHeaders_ sh2 !! i = Some v)
  ∧ (∀ c, 1 ≤ c ≤ length current → cellAt sh2 1 c = cellAt sh1 1 c)
  ∧ (∀ r c, 2 ≤ r → cellAt sh2 r c = cellAt sh1 r c)
  ∧ ("" ∉ H2 → getHeaders_ sh2 = current ++ (VStr <$> missing)).
Proof.
  intros sh2 current missing E1 Hprior Hsub.
  pose proof (λ r c, ensureSheet_existing_cells name H2 ss1 sh1 r c E1) as Hcells.
  cbn zeta in Hcells. fold sh2 current missing in Hcells.
  assert (∀ j h, missing !! j = Some h →
            cellAt sh2 1 (length current + 1 + j) = stored (VStr h)) as Hnew.
  { intros j h Hj. pose proof (lookup_lt_Some _ _ _ Hj).
    rewrite Hcells, decide_True by lia.
    replace (length current + 1 + j - (length current + 1)) with j by lia.
    by rewrite Hj. }
  assert (∀ c, length current + length missing < c → cellAt sh2 1 c = None) as Hpast.
  { intros c Hc. rewrite Hcells, decide_False by lia.
    apply getHeaders_beyond. fold current. lia. }
  split; [apply ensureSheet_lookup|].
  split; [apply missingColumns_difference|].
  split.
  { intros h Hm Hne Hin1. unfold missing in Hm.
    rewrite missingColumns_difference in Hm.
    apply list_elem_of_filter in Hm as [Hnot _]. apply Hnot.
    unfold current. rewrite Hprior. by apply ensureSheet_has_columns. }
  split; [intros j h Hj; by apply valueAt_stored, Hnew|].
  split; [done|].
  split; [intros i v Hi; by apply (ensureSheet_keeps_columns name H2 ss1 sh1)|].
  split; [intros c Hc; rewrite Hcells, decide_False by lia; done|].
  split; [intros r c Hr; rewrite Hcells, decide_False by lia; done|].
  intros Hne.
  destruct (decide (missing = [])) as [Hm|Hm].
  { rewrite Hm, app_nil_r. apply getHeaders_ext. intros r c.
    rewrite Hcells, Hm. cbn [length]. by rewrite decide_False by lia. }
  assert (∀ h, h ∈ missing → h ≠ "") as Hnames.
  { intros h Hh ->. apply Hne. unfold missing, missingColumns in Hh.
    by apply list_elem_of_filter in Hh as [_ ?]. }
  assert (length (getHeaders_ sh2) = length current + length missing) as Hlen.
  { rewrite getHeaders_length.
    assert (0 < length missing) as Hpos by (destruct missing; [done | simpl; lia]).
    assert (length current + length missing ≤ getLastColumn sh2).
    { destruct (lookup_lt_is_Some_2 missing (length missing - 1)) as [h Hh]; [lia|].
      apply (getLastColumn_ge sh2 1).
      replace (length current + length missing)
        with (length current + 1 + (length missing - 1)) by lia.
      rewrite (Hnew _ _ Hh). apply stored_Some, Hnames.
      apply list_elem_of_lookup. eauto. }
    assert (getLastColumn sh2 ≤ length current + length missing); [|lia].
    destruct (decide (getLastColumn sh2 ≤ length current + length missing)); [done|].
    destruct (getLastColumn_content sh2) as [r Hr]; [lia|].
    rewrite Hcells, decide_False in Hr by lia.
    rewrite getHeaders_beyond in Hr; [done|]. fold current. lia. }
  apply list_eq. intros i.
  destruct (decide (i < length current)) as [Hi|Hi].
  - rewrite lookup_app_l by done.
    destruct (lookup_lt_is_Some_2 current i Hi) as [v Hv]. rewrite Hv.
    by apply (ensureSheet_keeps_columns name H2 ss1 sh1).
  - rewrite lookup_app_r by lia. rewrite list_lookup_fmap.
    destruct (missing !! (i - length current)) as [h|] eqn:Eh; simpl.
    + pose proof (lookup_lt_Some _ _ _ Eh).
      rewrite getHeaders_lookup by lia. f_equal.
      apply valueAt_stored. rewrite <- (Hnew _ _ Eh). f_equal. lia.
    + apply lookup_ge_None in Eh. apply lookup_ge_None. lia.
Qed.

(** ** Sparse row writer *)

Lemma position_Some (headers : list value) (h : string) (c : nat) :
  position headers h = Some c → 1 ≤ c ∧ headers !! (c - 1) = Some (VStr h).
Proof.
  unfold position. destruct (indexOf headers (VStr h)) as [i|] eqn:E; [|done].
  intros [= <-]. apply indexOf_Some in E as [E _].
  split; [lia|]. by replace (i + 1 - 1) with i by lia.
Qed.

Lemma position_inj (headers : list value) (h h' : string) (c : nat) :
  position headers h = Some c → position headers h' = Some c → h = h'.
Proof.
  intros [_ H1]%position_Some [_ H2]%position_Some. congruence.
Qed.

Lemma cellAt_writeKey (headers : list value) (r : nat) (sh : Sheet)
    (kv : string * value) (r' c : nat) :
  1 ≤ r →
  cellAt (writeKey headers r sh kv) r' c
  = if decide (r' = r ∧ position headers kv.1 = Some c) then stored kv.2
    else cellAt sh r' c.
Proof.
  intros Hr. unfold writeKey, position.
  destruct (indexOf headers (VStr kv.1)) as [i|]; simpl.
  - rewrite cellAt_setValue by lia.
    case_decide as Hd.
    + destruct Hd as [-> [= <-]]. by rewrite !Nat.eqb_refl.
    + destruct (Nat.eqb_spec r' r), (Nat.eqb_spec c (i + 1)); simpl; try done.
      exfalso. apply Hd. split; [done | by f_equal].
  - rewrite decide_False; [done | by intros [_ ?]].
Qed.

(** Cells outside the positions of the record's names are not written. *)
Lemma writeKeys_frame (headers : list value) (r : nat)
    (entries : list (string * value)) (sh : Sheet) (r' c : nat) :
  1 ≤ r →
  (r' ≠ r ∨ ∀ h v, (h, v) ∈ entries → position headers h ≠ Some c) →
  cellAt (writeKeys headers r entries sh) r' c = cellAt sh r' c.
Proof.
  intros Hr. revert sh. unfold writeKeys.
  induction entries as [|[h v] entries IH]; intros sh Hfree; simpl; [done|].
  rewrite IH.
  - rewrite cellAt_writeKey by done. rewrite decide_False; [done|].
    intros [-> Hpos]. destruct Hfree as [?|Hfree]; [done|].
    apply (Hfree h v); [left | done].
  - destruct Hfree as [?|Hfree]; [by left | right].
    intros h' v' Hin. apply (Hfree h' v'). by right.
Qed.

(** Each name of the record that the header row holds is written at its
    position. *)
Lemma writeKeys_written (headers : list value) (r : nat)
    (entries : list (string * value)) (sh : Sheet) (h : string) (v : value) (c : nat) :
  1 ≤ r → NoDup entries.*1 →
  (h, v) ∈ entries → position headers h = Some c →
  cellAt (writeKeys headers r entries sh) r c = stored v.
Proof.
  intros Hr. revert sh. unfold writeKeys.
  induction entries as [|[h' v'] entries IH]; intros sh Hnd Hin Hpos; simpl.
  - by apply elem_of_nil in Hin.
  - apply NoDup_cons in Hnd as [Hfresh Hnd].
    apply elem_of_cons in Hin as [[= <- <-]|Hin].
    + change (foldl (writeKey headers r) ?s entries)
        with (writeKeys headers r entries s).
      rewrite writeKeys_frame; [|done|].
      * rewrite cellAt_writeKey by done. by rewrite decide_True.
      * right. intros h2 v2 Hin2 Hpos2.
        apply Hfresh. rewrite (position_inj headers h h2 c Hpos Hpos2).
        apply list_elem_of_fmap. by exists (h2, v2).
    + by apply IH.
Qed.

(** The cells written do not depend on the order in which the names of
    the record are visited. *)
Lemma writeKeys_order (headers : list value) (r : nat)
    (entries entries' : list (string * value)) (sh : Sheet) (r' c : nat) :
  1 ≤ r → NoDup entries.*1 → entries ≡ₚ entries' →
  cellAt (writeKeys headers r entries sh) r' c
  = cellAt (writeKeys headers r entries' sh) r' c.
Proof.
  intros Hr Hnd Hperm.
  assert (NoDup entries'.*1) as Hnd' by (by rewrite <- Hperm).
  destruct (decide (r' = r ∧ Exists (fun kv => position headers kv.1 = Some c) entries))
    as [[-> Hex]|Hno].
  - apply Exists_exists in Hex as ([h v] & Hin & Hpos).
    rewrite (writeKeys_written headers r entries sh h v c) by done.
    symmetry. apply (writeKeys_written _ _ _ _ h); [done | done | | done].
    by rewrite <- Hperm.
  - assert (r' ≠ r ∨ ∀ h v, (h, v) ∈ entries → position headers h ≠ Some c) as Hfree.
    { destruct (decide (r' = r)) as [->|]; [right | by left].
      intros h v Hin Hpos. apply Hno. split; [done|].
      apply Exists_exists. by exists (h, v). }
    rewrite !writeKeys_frame; try done.
    destruct Hfree as [?|Hfree]; [by left | right].
    intros h v Hin. apply (Hfree h v). by rewrite Hperm.
Qed.

Lemma scanUp_ge_2 (colVals : list (list string)) (n : nat) : 2 ≤ scanUp colVals n.
Proof. induction n; simpl; [lia|]. case_match; lia. Qed.

Lemma nextFreeRow_ge_2 (sh : Sheet) (keyHeader : string) (r : nat) :
  nextFreeRowByHeader_ sh keyHeader = Ok r → 2 ≤ r.
Proof.
  unfold nextFreeRowByHeader_. repeat case_match; intros [= <-]; [lia|].
  apply scanUp_ge_2.
Qed.

Lemma nextFreeRow_Ok (sh : Sheet) (keyHeader : string) :
  VStr keyHeader ∈ getHeaders_ sh → ∃ r, nextFreeRowByHeader_ sh keyHeader = Ok r.
Proof.
  intros [idx Hidx]%indexOf_elem. unfold nextFreeRowByHeader_. rewrite Hidx.
  case_match; eauto.
Qed.

(** C4. [appendRowAtKey_] writes, in the row it allocates, the value of
    each name of the record at the position of that name in the header row,
    for the names the header row holds; it does not throw on the other
    names; and every cell that is not at such a position (in particular the
    cells of the row in columns that the record does not name, and all the
    cells of the other rows) keeps what it held. *)
Theorem appendRowAtKey_sparse_write (name keyHeader : string)
    (obj : gmap string value) (ss : Spreadsheet) (sh : Sheet) :
  ss !! name = Some sh →
  VStr keyHeader ∈ getHeaders_ sh →
  ∃ r sh',
    nextFreeRowByHeader_ sh keyHeader = Ok r
    ∧ appendRowAtKey_ name keyHeader obj ss = Ok (<[name := sh']> ss)
    ∧ (∀ h v c, obj !! h = Some v → position (getHeaders_ sh) h = Some c →
         cellAt sh' r c = stored v)
    ∧ (∀ r' c, (r' ≠ r ∨ ∀ h, is_Some (obj !! h) → position (getHeaders_ sh) h ≠ Some c) →
         cellAt sh' r' c = cellAt sh r' c).
Proof.
  intros Hsh Hkey.
  destruct (nextFreeRow_Ok sh keyHeader Hkey) as [r Hr].
  pose proof (nextFreeRow_ge_2 _ _ _ Hr) as Hge.
  exists r, (writeKeys (getHeaders_ sh) r (map_to_list obj) sh).
  split; [done|]. split.
  { unfold appendRowAtKey_. by rewrite Hsh, Hr. }
  split.
  - intros h v c Hv Hpos. apply (writeKeys_written _ _ _ _ h); [lia | | | done].
    + apply NoDup_fst_map_to_list.
    + by apply elem_of_map_to_list.
  - intros r' c Hfree. apply writeKeys_frame; [lia|].
    destruct Hfree as [?|Hfree]; [by left | right].
    intros h v Hin. apply (Hfree h). apply elem_of_map_to_list in Hin. eauto.
Qed.

(** ** Notes builder *)

Lemma existsb_has (codes : list (option value)) (l : list string) :
  existsb (has (setOf codes)) l
  = bool_decide (Exists (fun c => Some (VStr c) ∈ codes) l).
Proof.
  apply eq_true_iff_eq. rewrite existsb_exists, bool_decide_eq_true, Exists_exists.
  unfold has, setOf. split.
  - intros (c & Hc & Hhas). exists c. split; [by apply list_elem_of_In|].
    apply bool_decide_eq_true in Hhas.
    by apply (proj1 (elem_of_remove_dups _ _)).
  - intros (c & Hc & Hsel). exists c. split; [by apply list_elem_of_In|].
    apply bool_decide_eq_true. by apply (proj2 (elem_of_remove_dups _ _)).
Qed.

(** The sentences collected are those that the specification asks for. *)
Lemma notesLines_expected (payload : Payload) :
  notesLines payload = expectedLines payload.
Proof.
  unfold notesLines, expectedLines. cbn zeta. rewrite !existsb_has.
  assert (negb (length (setOf (s_code <$> p_selections payload)) =? 0)
          = match p_selections payload with [] => false | _ => true end) as ->.
  { unfold setOf. destruct (p_selections payload) as [|s l]; [done|].
    destruct (remove_dups (s_code <$> s :: l)) as [|x k] eqn:E; [|done].
    exfalso. assert (s_code s ∈ remove_dups (s_code <$> s :: l)) as Hin
      by (apply elem_of_remove_dups; rewrite fmap_cons; left).
    rewrite E in Hin. by apply elem_of_nil in Hin. }
  destruct (truthy_opt (p_historicYes payload)), (p_selections payload),
    (bool_decide (Exists _ structural)), (bool_decide (Exists _ flattening));
    reflexivity.
Qed.

(** C5. [buildNotes_] collects the sentences that the specification asks
    for, in its order; for the selections [STRUCT_DAMAGED] with the
    historic-issue flag set these are the two historic sentences, the minor
    difference sentence and the structural sentence, and not the flattening
    sentence.  But it joins them with a backslash followed by the letter n:
    for this input the text it returns holds no line feed, and is not the
    four sentences joined by line feeds. *)
Theorem buildNotes_joins_with_backslash_n :
  (∀ payload, buildNotes_ payload = join (String "\" "n") (expectedLines payload))
  ∧ expectedLines structDamagedPayload
    = [historicSentence1; historicSentence2; minorDifferenceSentence; structuralSentence]
  ∧ buildNotes_ structDamagedPayload
    = historicSentence1 +:+ String "\" "n" +:+ historicSentence2 +:+ String "\" "n"
      +:+ minorDifferenceSentence +:+ String "\" "n" +:+ structuralSentence
  ∧ String.index 0 newline (buildNotes_ structDamagedPayload) = None
  ∧ buildNotes_ structDamagedPayload
    ≠ join newline (expectedLines structDamagedPayload).
Proof.
  split; [intros payload; unfold buildNotes_; by rewrite notesLines_expected|].
  split; [by vm_compute|]. split; [by vm_compute|]. split; [by vm_compute|].
  intros Heq. vm_compute in Heq. discriminate Heq.
Qed.

(** ** Needs-replacement and needs-reupholstery flags *)

Lemma lower_upper_char (c : ascii) : lower_char (upper_char c) = lower_char c.
Proof. by destruct c as [[] [] [] [] [] [] [] []]. Qed.

Lemma upper_lower_char (c : ascii) : upper_char (lower_char c) = upper_char c.
Proof. by destruct c as [[] [] [] [] [] [] [] []]. Qed.

Lemma upper_char_eq_iff (a b : ascii) :
  upper_char a = upper_char b ↔ lower_char a = lower_char b.
Proof.
  split; intros H.
  - by rewrite <- (lower_upper_char a), <- (lower_upper_char b), H.
  - by rewrite <- (upper_lower_char a), <- (upper_lower_char b), H.
Qed.

Lemma string_app_cons (c : ascii) (s t : string) :
  String c s +:+ t = String c (s +:+ t).
Proof. done. Qed.

(** The pattern matches at the start of [s] when [s] begins with a text
    equal to it up to case. *)
Lemma starts_with_ci_spec (pat s : string) :
  starts_with_ci pat s = true
  ↔ ∃ mid post, s = mid +:+ post ∧ lowerASCII mid = lowerASCII pat.
Proof.
  revert s. induction pat as [|a pat IH]; intros s; simpl.
  - split; [|done]. intros _. by exists "", s.
  - destruct s as [|b s].
    + split; [done|]. intros (mid & post & Hs & Hm).
      destruct mid; simpl in Hm; [done|]. by rewrite string_app_cons in Hs.
    + rewrite andb_true_iff, bool_decide_eq_true, IH, upper_char_eq_iff. split.
      * intros [Hab (mid & post & -> & Hm)].
        exists (String b mid), post. split; [done|]. simpl. by rewrite Hm, Hab.
      * intros (mid & post & Hs & Hm).
        destruct mid as [|b' mid]; simpl in Hm; [done|].
        rewrite string_app_cons in Hs. injection Hs as <- ->.
        injection Hm as Hab Hm. split; [done|]. by exists mid, post.
Qed.

(** The test [/pat/i.test(s)] holds exactly when [s] holds [pat] as a
    substring up to case. *)
Lemma test_ci_spec (pat s : string) : test_ci pat s = true ↔ ContainsCI pat s.
Proof.
  unfold ContainsCI. induction s as [|b s IH].
  - simpl. rewrite orb_false_r, starts_with_ci_spec. split.
    + intros (mid & post & Hs & Hm). by exists "", mid, post.
    + intros (pre & mid & post & Hs & Hm).
      destruct pre; [|by rewrite string_app_cons in Hs]. by exists mid, post.
  - cbn [test_ci]. rewrite orb_true_iff, starts_with_ci_spec, IH. split.
    + intros [(mid & post & Hs & Hm)|(pre & mid & post & Hs & Hm)].
      * by exists "", mid, post.
      * exists (String b pre), mid, post. by rewrite string_app_cons, Hs.
    + intros (pre & mid & post & Hs & Hm). destruct pre as [|b' pre].
      * left. by exists mid, post.
      * right. rewrite string_app_cons in Hs. injection Hs as <- ->.
        by exists pre, mid, post.
Qed.

Lemma appendRowAtKey_Ok (name keyHeader : string) (obj : gmap string value)
    (ss : Spreadsheet) (sh : Sheet) :
  ss !! name = Some sh → VStr keyHeader ∈ getHeaders_ sh →
  ∃ r, nextFreeRowByHeader_ sh keyHeader = Ok r
       ∧ appendRowAtKey_ name keyHeader obj ss
         = Ok (<[name := writeKeys (getHeaders_ sh) r (map_to_list obj) sh]> ss).
Proof.
  intros Hsh Hkey. destruct (nextFreeRow_Ok sh keyHeader Hkey) as [r Hr].
  exists r. split; [done|]. unfold appendRowAtKey_. by rewrite Hsh, Hr.
Qed.

(** What [appendRowAtKey_] leaves in the cell of a column, in the row it
    allocates, for a field of the record. *)
Lemma appendRowAtKey_field (name keyHeader : string) (obj : gmap string value)
    (ss : Spreadsheet) (sh : Sheet) (field : string) (v : value) (c : nat) :
  ss !! name = Some sh → VStr keyHeader ∈ getHeaders_ sh →
  obj !! field = Some v → position (getHeaders_ sh) field = Some c →
  ∃ r sh', nextFreeRowByHeader_ sh keyHeader = Ok r
           ∧ appendRowAtKey_ name keyHeader obj ss = Ok (<[name := sh']> ss)
           ∧ cellAt sh' r c = stored v.
Proof.
  intros Hsh Hkey Hv Hpos.
  destruct (appendRowAtKey_Ok name keyHeader obj ss sh Hsh Hkey) as (r & Hr & Happ).
  pose proof (nextFreeRow_ge_2 _ _ _ Hr) as Hge.
  exists r, (writeKeys (getHeaders_ sh) r (map_to_list obj) sh).
  split; [done|]. split; [done|].
  apply (writeKeys_written _ _ _ _ field); [lia | | | done].
  - apply NoDup_fst_map_to_list.
  - by apply elem_of_map_to_list.
Qed.

(** ** Historic note lookup *)







(** C10, as stated, fails: in a table whose only data row has the number 0
    in its first column and the text [zero] in its second, the first
    column is not blank and its value, as a text, is the code [0]; the
    lookup that the specification describes returns [zero], and
    [getNoteFromNotesRules_] returns the empty text. *)
Lemma getNote_skips_zero_cell :
  let rows := drop 1 (getDataRangeValues zeroNotesRules) in
  trim "0" ≠ ""
  ∧ rows = [[VNum 0; VStr "zero"]]
  ∧ cellValueText [VNum 0; VStr "zero"] 0 = "0"
  ∧ claimedNote "0" rows = "zero"
  ∧ getNoteFromNotesRules_ (Some (VStr "0")) {[ "NotesRules" := zeroNotesRules ]} = ""
  ∧ getNoteFromNotesRules_ (Some (VStr "0")) {[ "NotesRules" := zeroNotesRules ]}
    ≠ claimedNote (trim "0") rows.
Proof.
  cbv zeta. split; [by_compute|]. split; [reflexivity|]. split; [reflexivity|].
  split; [reflexivity|]. split; [reflexivity|]. by_compute.
Qed.

(** ** Saving photos *)

Lemma bind_Ok {A B} (m : M A) (k : A → M B) (w w' : World) (a : A) :
  m w = (Ok a, w') → bind m k w = k a w'.
Proof. intros H. unfold bind. by rewrite H. Qed.

(** The counter grows by at most one per entry. *)
Lemma photosLoop_bounds (itemId : value) (when folder : string)
    (photos : list (option Photo)) (idx saved : nat) (w : World) :
  saved ≤ (photosLoop itemId when folder photos idx saved w).1
          ≤ saved + length photos.
Proof.
  revert idx saved w. induction photos as [|p photos IH]; intros idx saved w.
  - simpl. lia.
  - cbn [photosLoop length].
    destruct (savePhoto itemId when folder idx p w) as [[[]|msg] w'].
    + specialize (IH (S idx) (S saved) w'). lia.
    + specialize (IH (S idx) saved w'). lia.
    + specialize (IH (S idx) saved (console_error "photo save failed" msg w')). lia.
Qed.

Lemma ensureSheetM_run (name : string) (header : list string) (w : World) :
  ensureSheetM name header w
  = (Ok (ensureSheet_ name header (w_ss w)).2,
     set_ss (ensureSheet_ name header (w_ss w)).1 w).
Proof. unfold ensureSheetM. by destruct (ensureSheet_ name header (w_ss w)). Qed.

(** What [savePhotosDataUrls] does once the arguments are checked and the
    list is not empty. *)
Lemma savePhotos_run (batchId itemId : value) (photos : list (option Photo))
    (w : World) :
  truthy batchId = true → truthy itemId = true → photos ≠ [] →
  let w1 := set_ss (ensureSheet_ SH_PHOTOS (HEADERS SH_PHOTOS) (w_ss w)).1 w in
  savePhotosDataUrls (Some batchId) (Some itemId) photos w
  = match w_props w !! photosKey batchId with
    | None => (Throw "Photo folder not configured for this batch.", w1)
    | Some folderId =>
        if String.eqb folderId ""
        then (Throw "Photo folder not configured for this batch.", w1)
        else if env_folderOk (w_env w) folderId
        then
          let when := env_formatDate (w_env w) (w_tick w) "yyyyMMdd-HHmmss" in
          let res := photosLoop itemId when folderId photos 0 0 (tick w1) in
          (Ok res.1, res.2)
        else (Throw "No item with the given ID could be found.", w1)
    end.
Proof.
  intros Hb Hi Hne w1. unfold savePhotosDataUrls. rewrite Hb, Hi. cbn [negb orb].
  destruct photos as [|p photos]; [done|]. cbn [length Nat.eqb].
  rewrite (bind_Ok _ _ _ _ _ (ensureSheetM_run _ _ w)). fold w1.
  unfold bind at 1, getProperty. cbn [w_props set_ss w1]. fold (photosKey batchId).
  destruct (w_props w !! photosKey batchId) as [folderId|]; [|done].
  destruct (String.eqb folderId ""); [done|].
  unfold bind at 1, getFolderById. cbn [w_env set_ss w1].
  destruct (env_folderOk (w_env w) folderId); [|done].
  unfold bind, formatNow. cbn [w_env w_tick set_ss w1].
  by destruct (photosLoop _ _ _ _ _ _ _).
Qed.

(** C6, as amended. With a batch and an item identifier: an empty list of
    photos gives [{saved: 0}]; otherwise, when the photo folder of the
    batch is not recorded in the script properties the call throws; when it
    is recorded and the folder opens, the call returns [{saved: n}] with
    [n] at most the number of entries; when it is recorded and the folder
    does not open, the error of the file store is thrown. *)
Theorem savePhotos_result (batchId itemId : value) (photos : list (option Photo))
    (w : World) :
  truthy batchId = true → truthy itemId = true →
  let out := (savePhotosDataUrls (Some batchId) (Some itemId) photos w).1 in
  (photos = [] → out = Ok 0)
  ∧ (photos ≠ [] →
     w_props w !! photosKey batchId = None ∨ w_props w !! photosKey batchId = Some "" →
     out = Throw "Photo folder not configured for this batch.")
  ∧ (photos ≠ [] →
     ∀ folderId, w_props w !! photosKey batchId = Some folderId → folderId ≠ "" →
       env_folderOk (w_env w) folderId = true →
       ∃ n, out = Ok n ∧ 0 ≤ n ≤ length photos)
  ∧ (photos ≠ [] →
     ∀ folderId, w_props w !! photosKey batchId = Some folderId → folderId ≠ "" →
       env_folderOk (w_env w) folderId = false →
       ∃ msg, out = Throw msg).
Proof.
  intros Hb Hi out. split; [|split; [|split]].
  - intros ->. unfold out, savePhotosDataUrls. by rewrite Hb, Hi.
  - intros Hne Hprop. unfold out. rewrite savePhotos_run by done.
    destruct Hprop as [-> | ->]; done.
  - intros Hne folderId Hprop Hfolder Hok. unfold out.
    rewrite savePhotos_run by done. rewrite Hprop, Hok.
    rewrite (proj2 (String.eqb_neq _ _) Hfolder). cbn zeta.
    eexists. split; [done|].
    match goal with |- _ ≤ (photosLoop ?a ?b ?c ?d ?e ?f ?g).1 ≤ _ =>
      pose proof (photosLoop_bounds a b c d e f g) end.
    lia.
  - intros Hne folderId Hprop Hfolder Hok. unfold out.
    rewrite savePhotos_run by done. rewrite Hprop, Hok.
    rewrite (proj2 (String.eqb_neq _ _) Hfolder). eauto.
Qed.

(** C6, as stated, fails: with both identifiers and one photo entry, but no
    photo folder recorded for the batch, the call throws. *)
Lemma savePhotos_throws_without_folder :
  truthy (VStr "BATCH-1") = true ∧ truthy (VStr "ITM-1") = true
  ∧ (savePhotosDataUrls (Some (VStr "BATCH-1")) (Some (VStr "ITM-1"))
       [photoOf (pngDataUrl "aGVsbG8=")] emptyWorld).1
    = Throw "Photo folder not configured for this batch."
  ∧ ¬ ∃ n, (savePhotosDataUrls (Some (VStr "BATCH-1")) (Some (VStr "ITM-1"))
              [photoOf (pngDataUrl "aGVsbG8=")] emptyWorld).1 = Ok n.
Proof.
  assert ((savePhotosDataUrls (Some (VStr "BATCH-1")) (Some (VStr "ITM-1"))
             [photoOf (pngDataUrl "aGVsbG8=")] emptyWorld).1
          = Throw "Photo folder not configured for this batch.") as H.
  { rewrite savePhotos_run by done. done. }
  split; [done|]. split; [done|]. split; [done|].
  intros [n Hn]. rewrite H in Hn. discriminate Hn.
Qed.

Lemma matchDataUrl_png (content : string) :
  content ≠ "" → has_line_terminator content = false →
  matchDataUrl (pngDataUrl content) = Some ("image/png", content).
Proof.
  intros Hne Hlt. unfold matchDataUrl, pngDataUrl.
  change (strip_prefix "data:image/" ("data:image/png;base64," +:+ content))
    with (Some ("png;base64," +:+ content)).
  cbn beta iota.
  change (span_not ";" ("png;base64," +:+ content))
    with ("png", ";base64," +:+ content).
  cbn beta iota.
  change (strip_prefix ";base64," (";base64," +:+ content)) with (Some content).
  cbn beta iota. rewrite (proj2 (String.eqb_neq _ _) Hne), Hlt. done.
Qed.

(** An entry that does not match the pattern changes nothing. *)
Lemma savePhoto_no_match (itemId : value) (when folder : string) (idx : nat)
    (p : Photo) (w : World) :
  matchDataUrl (String_or_empty (ph_dataUrl p)) = None →
  savePhoto itemId when folder idx (Some p) w = (Ok false, w).
Proof. intros H. unfold savePhoto. by rewrite H. Qed.

(** An entry that matches, decodes and is stored is counted, provided the
    Photos sheet is there with its PhotoID column. *)
Lemma savePhoto_saved (itemId : value) (when folder : string) (idx : nat)
    (p : Photo) (w : World) (ct b64 bytes : string) (sh : Sheet) :
  matchDataUrl (String_or_empty (ph_dataUrl p)) = Some (ct, b64) →
  env_base64Decode (w_env w) b64 = Some bytes →
  is_Some (env_createFile (w_env w) (w_tick w)) →
  w_ss w !! SH_PHOTOS = Some sh → VStr "PhotoID" ∈ getHeaders_ sh →
  ∃ w', savePhoto itemId when folder idx (Some p) w = (Ok true, w').
Proof.
  intros Hm Hdec [fileId Hfile] Hsh Hkey. unfold savePhoto. rewrite Hm.
  unfold bind at 1, base64Decode. rewrite Hdec.
  unfold bind at 1, createFile. rewrite Hfile.
  unfold bind at 1, getUuid. unfold bind at 1, formatNow.
  unfold bind, appendRowAtKeyM. cbn [w_ss tick add_file].
  destruct (appendRowAtKey_Ok SH_PHOTOS "PhotoID"
              (photoRecord (env_uuid (w_env w) (S (w_tick w))) itemId fileId
                 (env_formatDate (w_env w) (S (S (w_tick w))) "yyyy-MM-dd HH:mm:ss"))
              (w_ss w) sh Hsh Hkey) as (r & _ & Happ).
  cbn [w_env w_tick tick add_file]. rewrite Happ. eauto.
Qed.

Lemma HEADERS_PHOTOS_PhotoID : "PhotoID" ∈ HEADERS SH_PHOTOS.
Proof. vm_compute. left. Qed.

(** ** Rows of a batch *)

(** A property of the object that [getAll_] builds for a row is the cell of
    the last column with that header; there is no property [__proto__]. *)
Lemma foldl_setProp_lookup (l : list (value * value)) (m : gmap string value)
    (key : string) :
  foldl (fun obj kv => setProp obj kv.1 kv.2) m l !! key
  = if decide (key = "__proto__") then m !! key
    else match last (filter (fun kv => String_ kv.1 = key) l) with
         | Some kv => Some kv.2
         | None => m !! key
         end.
Proof.
  revert m. induction l as [|x l IH]; intros m; cbn [foldl].
  { by destruct (decide _). }
  rewrite IH. unfold setProp. destruct (decide (key = "__proto__")) as [->|Hkey].
  { destruct (decide (String_ x.1 = "__proto__")); [done|].
    by rewrite lookup_insert_ne. }
  rewrite filter_cons. destruct (decide (String_ x.1 = key)) as [Hx|Hx].
  - rewrite decide_False by congruence. rewrite last_cons.
    destruct (last (filter _ l)); [done|]. by rewrite <- Hx, lookup_insert_eq.
  - destruct (last (filter _ l)); [done|].
    destruct (decide (String_ x.1 = "__proto__")); [done|].
    by rewrite lookup_insert_ne.
Qed.

Lemma rowObject_lookup (head row : list value) (key : string) :
  key ≠ "__proto__" → rowObject head row !! key = fieldOf head row key.
Proof.
  intros Hkey. unfold rowObject, fieldOf.
  rewrite foldl_setProp_lookup, lookup_empty, decide_False by done.
  by destruct (last _).
Qed.

Lemma rowObject_proto (head row : list value) :
  rowObject head row !! "__proto__" = None.
Proof. unfold rowObject. by rewrite foldl_setProp_lookup, lookup_empty. Qed.

Lemma length_filter_fmap {A B} (f : A → B) (P : B → Prop)
    `{!∀ x, Decision (P x)} (l : list A) :
  length (filter P (f <$> l)) = length (filter (fun x => P (f x)) l).
Proof.
  induction l as [|x l IH]; [done|].
  rewrite fmap_cons, !filter_cons. case_decide; cbn [length]; by rewrite IH.
Qed.

Lemma nextCode_count (batchId : value) (ss : Spreadsheet) :
  length (filter (fun r : gmap string value => r !! "BatchID" = Some batchId)
            (getAll_ SH_ITEMS ss))
  = itemsInBatch batchId ss.
Proof.
  unfold getAll_, itemsInBatch. destruct (ss !! SH_ITEMS) as [sh|]; [|done].
  cbn zeta. destruct (Nat.leb_spec (length (getDataRangeValues sh)) 1) as [Hle|Hgt].
  - rewrite drop_ge by done. done.
  - change (map ?f ?l) with (f <$> l).
    rewrite (length_filter_fmap (rowObject _)).
    f_equal. apply list_filter_iff. intros row. by rewrite rowObject_lookup.
Qed.

(** ** Saving an item *)

Lemma filter_fmap {A B} (f : A → B) (P : B → Prop) `{!∀ x, Decision (P x)}
    (l : list A) :
  filter P (f <$> l) = f <$> filter (fun x => P (f x)) l.
Proof.
  induction l as [|x l IH]; [done|].
  rewrite fmap_cons, !filter_cons. case_decide; rewrite IH; done.
Qed.

Lemma filter_none {A} (P : A → Prop) `{!∀ x, Decision (P x)} (l : list A) :
  (∀ y, y ∈ l → ¬ P y) → filter P l = [].
Proof.
  induction l as [|y l IH]; intros Hno; [done|].
  rewrite filter_cons, decide_False by (apply Hno; left).
  apply IH. intros z Hz. apply Hno. by right.
Qed.

(** Filtering a duplicate-free list by a property that one element has,
    and only that one. *)
Lemma filter_unique `{EqDecision A} (P : A → Prop) `{!∀ x, Decision (P x)}
    (l : list A) (x : A) :
  NoDup l → x ∈ l → P x → (∀ y, y ∈ l → P y → y = x) → filter P l = [x].
Proof.
  induction l as [|y l IH]; intros Hnd Hin Hx Huniq.
  - by apply elem_of_nil in Hin.
  - apply NoDup_cons in Hnd as [Hy Hnd]. rewrite filter_cons.
    destruct (decide (y = x)) as [->|Hyx].
    + rewrite decide_True by done. f_equal.
      apply filter_none. intros z Hz Hpz.
      assert (z = x) as -> by (apply Huniq; [by right | done]). done.
    + apply elem_of_cons in Hin as [->|Hin]; [done|].
      rewrite decide_False.
      * apply IH; [done | done | done |]. intros z Hz. apply Huniq. by right.
      * intros Hpy. apply Hyx. apply Huniq; [left | done].
Qed.

Lemma filter_ext_in {A} (P Q : A → Prop) `{!∀ x, Decision (P x)}
    `{!∀ x, Decision (Q x)} (l : list A) :
  (∀ y, y ∈ l → (P y ↔ Q y)) → filter P l = filter Q l.
Proof.
  induction l as [|y l IH]; intros Hsame; [done|].
  rewrite !filter_cons.
  destruct (Hsame y ltac:(left)) as [Hpq Hqp].
  rewrite IH by (intros z Hz; apply Hsame; by right).
  destruct (decide (P y)); [rewrite decide_True by auto | rewrite decide_False by auto];
    done.
Qed.

(** Changing the property at one element of a duplicate-free list, from
    false to true, adds one to the count. *)
Lemma length_filter_one_more `{EqDecision A} (P Q : A → Prop)
    `{!∀ x, Decision (P x)}
    `{!∀ x, Decision (Q x)} (l : list A) (x : A) :
  NoDup l → x ∈ l → ¬ P x → Q x → (∀ y, y ∈ l → y ≠ x → (Q y ↔ P y)) →
  length (filter Q l) = S (length (filter P l)).
Proof.
  induction l as [|y l IH]; intros Hnd Hin Hpx Hqx Hsame.
  - by apply elem_of_nil in Hin.
  - apply NoDup_cons in Hnd as [Hy Hnd]. rewrite !filter_cons.
    destruct (decide (y = x)) as [->|Hyx].
    + rewrite decide_True, decide_False by done. cbn [length]. f_equal. f_equal.
      apply filter_ext_in. intros z Hz.
      apply Hsame; [by right|]. intros ->. done.
    + apply elem_of_cons in Hin as [->|Hin]; [done|].
      assert (length (filter Q l) = S (length (filter P l))) as IH'.
      { apply (IH Hnd Hin Hpx Hqx). intros z Hz. apply Hsame. by right. }
      destruct (Hsame y ltac:(left) Hyx) as [Hqp Hpq].
      destruct (decide (P y)) as [Hp|Hp].
      * rewrite decide_True by auto. cbn [length]. by rewrite IH'.
      * rewrite decide_False by auto. done.
Qed.

Lemma getLastRow_beyond (sh : Sheet) (r c : nat) :
  getLastRow sh < r → cellAt sh r c = None.
Proof.
  intros Hr. destruct (cellAt sh r c) eqn:E; [|done].
  assert (r ≤ getLastRow sh); [|lia].
  apply (getLastRow_ge sh r c). by rewrite E.
Qed.

Lemma getDataRangeValues_eq (sh : Sheet) :
  getDataRangeValues sh
  = (fun i => valueAt sh i <$> seq 1 (Nat.max 1 (getLastColumn sh)))
      <$> seq 1 (Nat.max 1 (getLastRow sh)).
Proof. done. Qed.

Lemma OnlyColumn_content (sh : Sheet) (name : string) (col : nat) :
  name ≠ "" → OnlyColumn sh name col →
  1 ≤ col ≤ getLastColumn sh.
Proof.
  intros Hne [Hv _].
  assert (hasContent (cellAt sh 1 col) = true) as Hc.
  { unfold valueAt in Hv. destruct (cellAt sh 1 col); [done | congruence]. }
  split; [|by apply (getLastColumn_ge sh 1)].
  destruct (cellAt sh 1 col) eqn:E; [|done]. apply cellAt_Some_inv in E. lia.
Qed.

Lemma zip_fmap_same {A B C} (f : A → B) (g : A → C) (l : list A) :
  zip (f <$> l) (g <$> l) = (fun x => (f x, g x)) <$> l.
Proof. induction l as [|x l IH]; [done|]. rewrite !fmap_cons. simpl. by rewrite IH. Qed.

(** With a single column of that name, the field of a row is the cell of
    the row in that column. *)
Lemma fieldOf_only_column (sh : Sheet) (name : string) (col i n : nat) :
  OnlyColumn sh name col → 1 ≤ col ≤ n →
  fieldOf (valueAt sh 1 <$> seq 1 n) (valueAt sh i <$> seq 1 n) name
  = Some (valueAt sh i col).
Proof.
  intros [Hv Huniq] Hcol. unfold fieldOf. rewrite zip_fmap_same.
  rewrite (filter_fmap (fun c => (valueAt sh 1 c, valueAt sh i c))).
  cbn [fst].
  rewrite (filter_unique (fun c => String_ (valueAt sh 1 c) = name) (seq 1 n) col).
  - done.
  - apply NoDup_seq.
  - apply elem_of_seq. lia.
  - by rewrite Hv.
  - intros c _ Hc. by apply Huniq.
Qed.

(** The rows of a batch, counted on the cells of the BatchID column. *)
Lemma itemsInBatch_count (ss : Spreadsheet) (sh : Sheet) (b : value) (col : nat) :
  ss !! SH_ITEMS = Some sh → OnlyColumn sh "BatchID" col →
  itemsInBatch b ss
  = length (filter (fun i => valueAt sh i col = b)
              (seq 2 (Nat.max 1 (getLastRow sh) - 1))).
Proof.
  intros Hsh Honly. unfold itemsInBatch. rewrite Hsh. cbn zeta.
  pose proof (OnlyColumn_content sh "BatchID" col ltac:(done) Honly) as Hcol.
  rewrite getDataRangeValues_eq.
  set (nR := Nat.max 1 (getLastRow sh)). set (nC := Nat.max 1 (getLastColumn sh)).
  assert (nth 0 ((fun i => valueAt sh i <$> seq 1 nC) <$> seq 1 nR) []
          = valueAt sh 1 <$> seq 1 nC) as ->.
  { assert (nR = S (nR - 1)) as -> by lia. done. }
  rewrite <- fmap_drop, drop_seq.
  rewrite (length_filter_fmap (fun i => valueAt sh i <$> seq 1 nC)).
  replace (1 + 1) with 2 by done. f_equal.
  apply filter_ext_in. intros i _.
  rewrite (fieldOf_only_column sh "BatchID" col i nC Honly) by lia.
  split; congruence.
Qed.

(** Rows past the last one with content belong to no batch. *)
Lemma count_rows_extend (sh : Sheet) (b : value) (col n : nat) :
  truthy b = true → Nat.max 1 (getLastRow sh) ≤ n →
  length (filter (fun i => valueAt sh i col = b) (seq 2 (n - 1)))
  = length (filter (fun i => valueAt sh i col = b)
              (seq 2 (Nat.max 1 (getLastRow sh) - 1))).
Proof.
  intros Hb Hn. set (nR := Nat.max 1 (getLastRow sh)) in *.
  replace (n - 1) with ((nR - 1) + (n - nR)) by lia.
  rewrite seq_app, filter_app, length_app.
  rewrite (filter_none _ (seq (2 + (nR - 1)) (n - nR))); [simpl; lia|].
  intros i Hi%elem_of_seq Hv.
  unfold valueAt in Hv. rewrite getLastRow_beyond in Hv by lia.
  subst b. done.
Qed.

(** From the row that [nextFreeRowByHeader_] returns on, the key column
    displays nothing. *)
Lemma nextFreeRow_rows_from (sh : Sheet) (keyHeader : string) (idx r row : nat) :
  indexOf (getHeaders_ sh) (VStr keyHeader) = Some idx →
  nextFreeRowByHeader_ sh keyHeader = Ok r →
  r ≤ row → displayAt sh row (idx + 1) = "".
Proof.
  intros Hidx Hr Hrow. unfold nextFreeRowByHeader_ in Hr. rewrite Hidx in Hr.
  unfold getMaxRows in Hr.
  replace (Nat.max 0 (maxRows sh - 1)) with (maxRows sh - 1) in Hr by lia.
  destruct (decide (maxRows sh < row)) as [Hout|Hin].
  { unfold displayAt. rewrite cellAt_outside by lia. done. }
  destruct (maxRows sh - 1 =? 0) eqn:E.
  - apply Nat.eqb_eq in E. injection Hr as <-. lia.
  - apply Nat.eqb_neq in E. injection Hr as <-.
    rewrite getDisplayValues_length in Hrow.
    destruct (scanUp_spec (getDisplayValues sh 2 (idx + 1) (maxRows sh - 1) 1)
                (maxRows sh - 1))
      as [[H2 Hall]|(i & Hi & Hri & Hne & Hafter)].
    + specialize (Hall (row - 2) ltac:(lia)).
      rewrite getDisplayValues_col in Hall by lia.
      by replace (2 + (row - 2)) with row in Hall by lia.
    + specialize (Hafter (row - 2) ltac:(lia)).
      rewrite getDisplayValues_col in Hafter by lia.
      by replace (2 + (row - 2)) with row in Hafter by lia.
Qed.

(** Writing below the header row leaves the header row as it is. *)
Lemma getHeaders_preserved (sh sh' : Sheet) (i : nat) (h : string) :
  (∀ c, cellAt sh' 1 c = cellAt sh 1 c) → h ≠ "" →
  getHeaders_ sh !! i = Some (VStr h) → getHeaders_ sh' !! i = Some (VStr h).
Proof.
  intros Hrow Hne Hi. apply getHeaders_lookup_Some in Hi as [Hlt Hv].
  assert (hasContent (cellAt sh 1 (i + 1)) = true) as Hc.
  { unfold valueAt in Hv. destruct (cellAt sh 1 (i + 1)); [done | congruence]. }
  rewrite <- Hrow in Hc. apply getLastColumn_ge in Hc.
  rewrite getHeaders_lookup by (rewrite getHeaders_length; lia).
  f_equal. unfold valueAt. rewrite Hrow. by rewrite Hv.
Qed.

Lemma getHeaders_elem_preserved (sh sh' : Sheet) (h : string) :
  (∀ c, cellAt sh' 1 c = cellAt sh 1 c) → h ≠ "" →
  VStr h ∈ getHeaders_ sh → VStr h ∈ getHeaders_ sh'.
Proof.
  intros Hrow Hne [i Hi]%list_elem_of_lookup. apply list_elem_of_lookup.
  exists i. by apply (getHeaders_preserved sh).
Qed.

Lemma position_preserved (sh sh' : Sheet) (h : string) (c : nat) :
  (∀ c, cellAt sh' 1 c = cellAt sh 1 c) → h ≠ "" →
  position (getHeaders_ sh) h = Some c → position (getHeaders_ sh') h = Some c.
Proof.
  intros Hrow Hne. unfold position.
  destruct (indexOf (getHeaders_ sh) (VStr h)) as [i|] eqn:E; [|done].
  intros [= <-]. apply indexOf_Some in E as [Hi Hfirst].
  assert (indexOf (getHeaders_ sh') (VStr h) = Some i) as ->; [|done].
  apply indexOf_Some. split; [by apply (getHeaders_preserved sh)|].
  intros j Hj Hj'. apply (Hfirst j Hj).
  apply getHeaders_lookup_Some in Hj' as [_ Hv].
  pose proof (lookup_lt_Some _ _ _ Hi) as Hlt.
  rewrite getHeaders_lookup by lia. f_equal.
  unfold valueAt in *. by rewrite <- Hrow.
Qed.

Lemma OnlyColumn_preserved (sh sh' : Sheet) (name : string) (col : nat) :
  (∀ c, cellAt sh' 1 c = cellAt sh 1 c) →
  OnlyColumn sh name col → OnlyColumn sh' name col.
Proof.
  intros Hrow [Hv Huniq]. unfold OnlyColumn, valueAt in *.
  split; [by rewrite Hrow|]. intros c. rewrite Hrow. apply Huniq.
Qed.

Lemma OnlyColumn_position (sh : Sheet) (name : string) (col : nat) :
  name ≠ "" → OnlyColumn sh name col → position (getHeaders_ sh) name = Some col.
Proof.
  intros Hne Honly. pose proof (OnlyColumn_content sh name col Hne Honly) as Hcol.
  destruct Honly as [Hv Huniq]. unfold position.
  assert (indexOf (getHeaders_ sh) (VStr name) = Some (col - 1)) as ->.
  { apply indexOf_Some. split.
    - rewrite getHeaders_lookup by (rewrite getHeaders_length; lia).
      replace (col - 1 + 1) with col by lia. by rewrite Hv.
    - intros j Hj Hj'. apply getHeaders_lookup_Some in Hj' as [_ Hjv].
      assert (j + 1 = col); [|lia]. apply Huniq. by rewrite <- Hjv. }
  simpl. f_equal. lia.
Qed.

Lemma writeKeys_row1 (headers : list value) (r : nat)
    (entries : list (string * value)) (sh : Sheet) (c : nat) :
  2 ≤ r → cellAt (writeKeys headers r entries sh) 1 c = cellAt sh 1 c.
Proof. intros Hr. apply writeKeys_frame; [lia | left; lia]. Qed.

Lemma writeKeys_lastRow (headers : list value) (r : nat)
    (entries : list (string * value)) (sh : Sheet) :
  2 ≤ r → getLastRow (writeKeys headers r entries sh) ≤ Nat.max (getLastRow sh) r.
Proof.
  intros Hr. set (sh' := writeKeys headers r entries sh).
  destruct (decide (getLastRow sh' = 0)) as [->|Hne]; [lia|].
  destruct (getLastRow_content sh' Hne) as [c Hc].
  destruct (decide (getLastRow sh' = r)) as [->|Hrow]; [lia|].
  assert (cellAt sh' (getLastRow sh') c = cellAt sh (getLastRow sh') c) as Heq
    by (apply writeKeys_frame; [lia | by left]).
  rewrite Heq in Hc. apply getLastRow_ge in Hc. lia.
Qed.

(** Appending a record of the batch [b], in a row that does not hold [b]
    yet, adds one to the rows of the batch. *)
Lemma itemsInBatch_after_append (ss : Spreadsheet) (sh : Sheet) (b : value)
    (col r : nat) (obj : gmap string value) :
  ss !! SH_ITEMS = Some sh → OnlyColumn sh "BatchID" col → truthy b = true →
  2 ≤ r → obj !! "BatchID" = Some b → valueAt sh r col ≠ b →
  itemsInBatch b (<[SH_ITEMS := writeKeys (getHeaders_ sh) r (map_to_list obj) sh]> ss)
  = S (itemsInBatch b ss).
Proof.
  intros Hsh Honly Hb Hr Hobj Hfree.
  set (sh' := writeKeys (getHeaders_ sh) r (map_to_list obj) sh).
  assert (OnlyColumn sh' "BatchID" col) as Honly'.
  { apply (OnlyColumn_preserved sh); [|done]. intros c. by apply writeKeys_row1. }
  rewrite (itemsInBatch_count _ sh' b col) by (by rewrite ?lookup_insert_eq).
  rewrite (itemsInBatch_count ss sh b col) by done.
  pose proof (writeKeys_lastRow (getHeaders_ sh) r (map_to_list obj) sh Hr) as Hlast.
  fold sh' in Hlast.
  set (n := Nat.max (Nat.max 1 (getLastRow sh)) r).
  rewrite <- (count_rows_extend sh' b col n) by (done || lia).
  rewrite <- (count_rows_extend sh b col n) by (done || lia).
  apply (length_filter_one_more _ _ _ r).
  - apply NoDup_seq.
  - apply elem_of_seq. lia.
  - done.
  - apply valueAt_stored. unfold sh'.
    apply (writeKeys_written _ _ _ _ "BatchID"); [lia | | | ].
    + apply NoDup_fst_map_to_list.
    + by apply elem_of_map_to_list.
    + by apply OnlyColumn_position.
  - intros i _ Hi. unfold valueAt, sh'.
    rewrite writeKeys_frame; [done | lia | by left].
Qed.

(** [ensureSheet_] leaves a sheet that holds every canonical name as it
    is. *)
Lemma ensureSheet_satisfied (name : string) (H : list string) (ss : Spreadsheet)
    (sh : Sheet) :
  ss !! name = Some sh → (∀ h, h ∈ H → VStr h ∈ getHeaders_ sh) →
  ensureSheet_ name H ss = (ss, sh).
Proof.
  intros Hsh Hall. unfold ensureSheet_. rewrite Hsh.
  assert (missingColumns (getHeaders_ sh) H = []) as ->.
  { rewrite missingColumns_difference. apply filter_none.
    intros h Hh Hnot. by apply Hnot, Hall. }
  simpl. by destruct (0 <? length H).
Qed.

Lemma HEADERS_nonempty_names (name h : string) : h ∈ HEADERS name → h ≠ "".
Proof.
  unfold HEADERS. intros Hh ->.
  repeat case_decide;
    repeat (apply elem_of_cons in Hh as [Hh|Hh]; [discriminate Hh|]);
    by apply elem_of_nil in Hh.
Qed.

Lemma ensureSheet_satisfied_rows (name : string) (ss : Spreadsheet) (sh0 sh : Sheet) :
  ss !! name = Some sh →
  (∀ h, h ∈ HEADERS name → VStr h ∈ getHeaders_ sh0) →
  (∀ c, cellAt sh 1 c = cellAt sh0 1 c) →
  ensureSheet_ name (HEADERS name) ss = (ss, sh).
Proof.
  intros Hsh Hall Hrow. apply ensureSheet_satisfied; [done|].
  intros h Hh. apply (getHeaders_elem_preserved sh0); [done | | by apply Hall].
  by apply (HEADERS_nonempty_names name).
Qed.

(** The selections are all written: no append fails once the Selections
    sheet has its SelectionID column; the other sheets, and the header row
    of the Selections sheet, are left as they are. *)
Lemma saveSelections_Ok (itemId : string) (itemType : option value)
    (sels : list Selection) (w : World) (shS : Sheet) :
  w_ss w !! SH_SELECT = Some shS → VStr "SelectionID" ∈ getHeaders_ shS →
  ∃ w' shS',
    saveSelections itemId itemType sels w = (Ok tt, w')
    ∧ (∀ n, n ≠ SH_SELECT → w_ss w' !! n = w_ss w !! n)
    ∧ w_ss w' !! SH_SELECT = Some shS'
    ∧ (∀ c, cellAt shS' 1 c = cellAt shS 1 c).
Proof.
  revert w shS. induction sels as [|s sels IH]; intros w shS Hsh Hkey.
  - exists w, shS. by repeat split.
  - cbn [saveSelections]. unfold bind at 1, getUuid.
    unfold bind at 1, appendRowAtKeyM. cbn [w_ss tick].
    destruct (appendRowAtKey_Ok SH_SELECT "SelectionID"
                (selectionRecord ("SEL-" +:+ slice8 (env_uuid (w_env w) (w_tick w)))
                   itemId itemType s) (w_ss w) shS Hsh Hkey) as (r & Hr & Happ).
    rewrite Happ. pose proof (nextFreeRow_ge_2 _ _ _ Hr) as Hge.
    match goal with |- context [set_ss (<[SH_SELECT := ?sh]> _) _] => set (sh1 := sh) end.
    assert (∀ c, cellAt sh1 1 c = cellAt shS 1 c) as Hrow
      by (intros c; by apply writeKeys_row1).
    destruct (IH (set_ss (<[SH_SELECT := sh1]> (w_ss w)) (tick w)) sh1)
      as (w' & shS' & Hrun & Hother & Hsh' & Hrow').
    + cbn [w_ss set_ss]. by rewrite lookup_insert_eq.
    + by apply (getHeaders_elem_preserved shS).
    + exists w', shS'. split; [done|]. split; [|split; [done|]].
      * intros n Hn. rewrite Hother by done. cbn [w_ss set_ss].
        by rewrite lookup_insert_ne.
      * intros c. by rewrite Hrow', Hrow.
Qed.

Lemma itemsInBatch_ext (b : value) (ss ss' : Spreadsheet) :
  ss !! SH_ITEMS = ss' !! SH_ITEMS → itemsInBatch b ss = itemsInBatch b ss'.
Proof. intros H. unfold itemsInBatch. by rewrite H. Qed.

Lemma position_indexOf (headers : list value) (h : string) (c : nat) :
  position headers h = Some c → ∃ idx, indexOf headers (VStr h) = Some idx ∧ c = idx + 1.
Proof.
  unfold position. destruct (indexOf headers (VStr h)) as [idx|]; [|done].
  intros [= <-]. eauto.
Qed.

Lemma displayAt_stored (sh : Sheet) (r c : nat) (s : string) :
  s ≠ "" → cellAt sh r c = stored (VStr s) → displayAt sh r c = s.
Proof.
  intros Hs Hc. unfold displayAt. rewrite Hc. unfold stored.
  destruct (decide (VStr s = VStr "")) as [[=]|]; done.
Qed.

Lemma itemSheetsEnsured_items (ss : Spreadsheet) :
  itemSheetsEnsured ss !! SH_ITEMS
  = Some (ensureSheet_ SH_ITEMS (HEADERS SH_ITEMS) ss).2.
Proof.
  unfold itemSheetsEnsured. rewrite ensureSheet_other by done.
  apply ensureSheet_lookup.
Qed.

(** [saveItem] on a payload with a batch identifier: it succeeds with the
    code that [nextCodeForBatch_] computes once the sheets are ensured; the
    batch then has one more row, provided the Items sheet has a single
    BatchID column and every row of the batch displays an item identifier,
    which remains so. *)
Lemma saveItem_run (payload : Payload) (w : World) (b : value) (shI : Sheet)
    (cItem cBatch : nat) :
  p_batchId payload = Some b → truthy b = true →
  itemSheetsEnsured (w_ss w) !! SH_ITEMS = Some shI →
  position (getHeaders_ shI) "ItemID" = Some cItem →
  OnlyColumn shI "BatchID" cBatch →
  BatchRowsKeyed shI b cItem cBatch →
  ∃ itemId w' shI',
    saveItem payload w
    = (Ok (itemId, nextCodeForBatch_ b (itemSheetsEnsured (w_ss w))), w')
    ∧ w_ss w' !! SH_ITEMS = Some shI'
    ∧ itemSheetsEnsured (w_ss w') = w_ss w'
    ∧ itemsInBatch b (w_ss w') = S (itemsInBatch b (itemSheetsEnsured (w_ss w)))
    ∧ position (getHeaders_ shI') "ItemID" = Some cItem
    ∧ OnlyColumn shI' "BatchID" cBatch
    ∧ BatchRowsKeyed shI' b cItem cBatch.
Proof.
  intros Hbatch Hb HshI Hpos Honly Hkeyed.
  set (ssI := (ensureSheet_ SH_ITEMS (HEADERS SH_ITEMS) (w_ss w)).1).
  set (ss1 := itemSheetsEnsured (w_ss w)) in *.
  set (shS := (ensureSheet_ SH_SELECT (HEADERS SH_SELECT) ssI).2).
  assert (ss1 !! SH_SELECT = Some shS) as HshS by apply ensureSheet_lookup.
  assert (shI = (ensureSheet_ SH_ITEMS (HEADERS SH_ITEMS) (w_ss w)).2) as HshI'.
  { unfold ss1 in HshI. rewrite itemSheetsEnsured_items in HshI. congruence. }
  assert (∀ h, h ∈ HEADERS SH_ITEMS → VStr h ∈ getHeaders_ shI) as HallI.
  { intros h Hh. rewrite HshI'. apply ensureSheet_has_columns; [done|].
    by apply (HEADERS_nonempty_names SH_ITEMS). }
  assert (∀ h, h ∈ HEADERS SH_SELECT → VStr h ∈ getHeaders_ shS) as HallS.
  { intros h Hh. apply ensureSheet_has_columns; [done|].
    by apply (HEADERS_nonempty_names SH_SELECT). }
  destruct (position_indexOf _ _ _ Hpos) as (idx & Hidx & ->).
  assert (VStr "ItemID" ∈ getHeaders_ shI) as HkeyI
    by (apply HallI; by_compute).
  assert (VStr "SelectionID" ∈ getHeaders_ shS) as HkeyS
    by (apply HallS; by_compute).
  set (itemId := "ITM-" +:+ slice8 (env_uuid (w_env w) (w_tick w))).
  set (code := nextCodeForBatch_ b ss1).
  set (createdAt := env_formatDate (w_env w) (S (w_tick w)) "yyyy-MM-dd HH:mm:ss").
  set (notes := getNoteFromNotesRules_
                  (Some (VStr (String_or_empty (p_historicCode payload)))) ss1).
  set (rec := itemRecord payload b itemId code createdAt notes).
  destruct (appendRowAtKey_Ok SH_ITEMS "ItemID" rec ss1 shI HshI HkeyI)
    as (r & Hr & Happ).
  pose proof (nextFreeRow_ge_2 _ _ _ Hr) as Hge.
  set (shI' := writeKeys (getHeaders_ shI) r (map_to_list rec) shI) in *.
  set (w5 := set_ss (<[SH_ITEMS := shI']> ss1)
               (tick (tick (set_ss ss1 (set_ss ssI w))))).
  destruct (saveSelections_Ok itemId (p_type payload) (p_selections payload) w5 shS)
    as (w6 & shS' & Hsel & Hother & HshS' & HrowS);
    [by (cbn [w_ss w5 set_ss]; rewrite lookup_insert_ne) | done |].
  assert (∀ c, cellAt shI' 1 c = cellAt shI 1 c) as HrowI
    by (intros c; by apply writeKeys_row1).
  assert (w_ss w6 !! SH_ITEMS = Some shI') as HshI6.
  { rewrite Hother by done. cbn [w_ss w5 set_ss]. by rewrite lookup_insert_eq. }
  exists itemId, w6, shI'.
  split; [|split; [done|split; [|split; [|split; [|split]]]]].
  - unfold saveItem, saveItemBody. rewrite Hbatch, Hb. cbn [negb].
    unfold bind at 1. rewrite ensureSheetM_run. fold ssI.
    unfold bind at 1. rewrite ensureSheetM_run. cbn [w_ss set_ss].
    change (ensureSheet_ SH_SELECT (HEADERS SH_SELECT) ssI).1 with ss1.
    unfold bind at 1, getUuid. cbn [w_env w_tick set_ss]. fold itemId.
    unfold bind at 1. cbn [w_ss tick set_ss]. fold code.
    unfold bind at 1, formatNow. cbn [w_env w_tick tick set_ss]. fold createdAt.
    unfold bind at 1. cbn [w_ss tick set_ss]. fold notes. fold rec.
    unfold bind at 1, appendRowAtKeyM. cbn [w_ss tick set_ss].
    rewrite Happ. fold w5.
    unfold bind, ret. rewrite Hsel. done.
  - unfold itemSheetsEnsured.
    rewrite (ensureSheet_satisfied_rows SH_ITEMS (w_ss w6) shI shI') by done.
    cbn [fst].
    rewrite (ensureSheet_satisfied_rows SH_SELECT (w_ss w6) shS shS') by done.
    done.
  - rewrite (itemsInBatch_ext b (w_ss w6) (<[SH_ITEMS := shI']> ss1))
      by (by rewrite HshI6, lookup_insert_eq).
    apply (itemsInBatch_after_append ss1 shI b cBatch r rec); try done.
    apply Hkeyed; [done|]. by apply (nextFreeRow_rows_from shI "ItemID" idx r).
  - by apply (position_preserved shI).
  - by apply (OnlyColumn_preserved shI).
  - intros row Hrow Hdisp.
    destruct (decide (row = r)) as [->|Hne].
    + exfalso. revert Hdisp.
      rewrite (displayAt_stored shI' r (idx + 1) itemId); [done | done |].
      apply (writeKeys_written _ _ _ _ "ItemID"); [lia | | | done].
      * apply NoDup_fst_map_to_list.
      * by apply elem_of_map_to_list.
    + assert (∀ c, cellAt shI' row c = cellAt shI row c) as Hsame
        by (intros c; apply writeKeys_frame; [lia | by left]).
      unfold displayAt in Hdisp. unfold valueAt. rewrite Hsame in *.
      by apply Hkeyed.
Qed.

(** In a batch without rows, no row below the header holds the batch
    identifier. *)
Lemma itemsInBatch_zero_keyed (ss : Spreadsheet) (sh : Sheet) (b : value)
    (cItem cBatch : nat) :
  ss !! SH_ITEMS = Some sh → OnlyColumn sh "BatchID" cBatch → truthy b = true →
  itemsInBatch b ss = 0 → BatchRowsKeyed sh b cItem cBatch.
Proof.
  intros Hsh Honly Hb Hzero row Hrow _ Hv.
  rewrite (itemsInBatch_count ss sh b cBatch) in Hzero by done.
  rewrite <- (count_rows_extend sh b cBatch (Nat.max (Nat.max 1 (getLastRow sh)) row))
    in Hzero by (done || lia).
  apply length_zero_iff_nil in Hzero.
  apply (filter_nil_not_elem_of _ _ row) in Hzero; [|done].
  apply Hzero, elem_of_seq. lia.
Qed.

(** The Items sheet that [ensureSheet_] creates has a single BatchID
    column, the second, and no row. *)
Lemma fresh_items_sheet (ss : Spreadsheet) (b : value) :
  ss !! SH_ITEMS = None →
  OnlyColumn (ensureSheet_ SH_ITEMS (HEADERS SH_ITEMS) ss).2 "BatchID" 2
  ∧ itemsInBatch b (itemSheetsEnsured ss) = 0.
Proof.
  intros Hnone.
  set (sh := (ensureSheet_ SH_ITEMS (HEADERS SH_ITEMS) ss).2).
  pose proof (fun r c => ensureSheet_new_cells SH_ITEMS (HEADERS SH_ITEMS) ss r c Hnone)
    as Hcells. fold sh in Hcells.
  assert (OnlyColumn sh "BatchID" 2) as Honly.
  { split.
    - apply valueAt_stored. by rewrite Hcells.
    - intros c Hc. unfold valueAt in Hc. rewrite Hcells in Hc.
      do 23 (destruct c as [|c]; [by vm_compute in Hc|]).
      rewrite decide_False in Hc by (change (length (HEADERS SH_ITEMS)) with 22; lia).
      done. }
  split; [done|].
  rewrite (itemsInBatch_count _ sh b 2) by (by rewrite ?itemSheetsEnsured_items).
  assert (getLastRow sh ≤ 1) as Hlast.
  { destruct (decide (getLastRow sh = 0)) as [->|Hne]; [lia|].
    destruct (getLastRow_content sh Hne) as [c Hc]. rewrite Hcells in Hc.
    case_decide as Hd; [lia | done]. }
  replace (Nat.max 1 (getLastRow sh) - 1) with 0 by lia. done.
Qed.

(** ** Sequential item code *)

Lemma nextCode_formula (batchId : value) (ss : Spreadsheet) :
  nextCodeForBatch_ batchId ss
  = "I" +:+ padStart 3 "0" (String_nat (1 + itemsInBatch batchId ss)).
Proof.
  unfold nextCodeForBatch_. cbn zeta. rewrite nextCode_count.
  by replace (itemsInBatch batchId ss + 1) with (1 + itemsInBatch batchId ss) by lia.
Qed.

(** Two items saved one after the other in a batch without rows. *)
Lemma saveItem_first_two (w : World) (p1 p2 : Payload) (b : value) (shI : Sheet)
    (cBatch : nat) :
  p_batchId p1 = Some b → p_batchId p2 = Some b → truthy b = true →
  itemSheetsEnsured (w_ss w) !! SH_ITEMS = Some shI →
  OnlyColumn shI "BatchID" cBatch →
  itemsInBatch b (itemSheetsEnsured (w_ss w)) = 0 →
  ∃ id1 w1 id2 w2,
    saveItem p1 w = (Ok (id1, "I001"), w1)
    ∧ saveItem p2 w1 = (Ok (id2, "I002"), w2).
Proof.
  intros Hp1 Hp2 Hb HshI Honly Hzero.
  assert (VStr "ItemID" ∈ getHeaders_ shI) as Hkey.
  { rewrite itemSheetsEnsured_items in HshI. injection HshI as <-.
    apply ensureSheet_has_columns; [by_compute | done]. }
  destruct (indexOf_elem _ _ Hkey) as [idx Hidx].
  assert (position (getHeaders_ shI) "ItemID" = Some (idx + 1)) as Hpos
    by (unfold position; by rewrite Hidx).
  pose proof (itemsInBatch_zero_keyed _ shI b (idx + 1) cBatch HshI Honly Hb Hzero)
    as Hkeyed.
  destruct (saveItem_run p1 w b shI (idx + 1) cBatch Hp1 Hb HshI Hpos Honly Hkeyed)
    as (id1 & w1 & shI1 & Hrun1 & Hsh1 & Hens1 & Hcount1 & Hpos1 & Honly1 & Hkeyed1).
  assert (itemSheetsEnsured (w_ss w1) !! SH_ITEMS = Some shI1) as HshI1
    by (by rewrite Hens1).
  destruct (saveItem_run p2 w1 b shI1 (idx + 1) cBatch Hp2 Hb HshI1 Hpos1 Honly1 Hkeyed1)
    as (id2 & w2 & _ & Hrun2 & _).
  exists id1, w1, id2, w2. split.
  - rewrite Hrun1. by rewrite nextCode_formula, Hzero.
  - rewrite Hrun2. by rewrite Hens1, nextCode_formula, Hcount1, Hzero.
Qed.

(** C9. The code that [nextCodeForBatch_] gives is the letter I followed by
    one plus the number of rows of the Items sheet whose BatchID is the
    batch identifier, padded with zeros to three digits: I001 when the
    batch has no row yet, I002 when it has one.  Accordingly, [saveItem]
    returns I001 for the first item of a batch without rows and I002 for
    the second, when the Items sheet has a single BatchID column; so it
    does, in particular, in a spreadsheet that has no Items sheet yet. *)
Theorem nextCode_sequential (batchId : value) (ss : Spreadsheet) :
  nextCodeForBatch_ batchId ss
  = "I" +:+ padStart 3 "0" (String_nat (1 + itemsInBatch batchId ss))
  ∧ (itemsInBatch batchId ss = 0 → nextCodeForBatch_ batchId ss = "I001")
  ∧ (itemsInBatch batchId ss = 1 → nextCodeForBatch_ batchId ss = "I002")
  ∧ (∀ (w : World) (p1 p2 : Payload) (shI : Sheet) (cBatch : nat),
       w_ss w = ss →
       p_batchId p1 = Some batchId → p_batchId p2 = Some batchId →
       truthy batchId = true →
       itemSheetsEnsured ss !! SH_ITEMS = Some shI →
       OnlyColumn shI "BatchID" cBatch →
       itemsInBatch batchId (itemSheetsEnsured ss) = 0 →
       ∃ id1 w1 id2 w2,
         saveItem p1 w = (Ok (id1, "I001"), w1)
         ∧ saveItem p2 w1 = (Ok (id2, "I002"), w2))
  ∧ (∀ (w : World) (p1 p2 : Payload),
       w_ss w = ss → ss !! SH_ITEMS = None →
       p_batchId p1 = Some batchId → p_batchId p2 = Some batchId →
       truthy batchId = true →
       ∃ id1 w1 id2 w2,
         saveItem p1 w = (Ok (id1, "I001"), w1)
         ∧ saveItem p2 w1 = (Ok (id2, "I002"), w2)).
Proof.
  pose proof (nextCode_formula batchId ss) as Heq.
  split; [done|]. split; [|split; [|split]].
  - intros Hn. by rewrite Heq, Hn.
  - intros Hn. by rewrite Heq, Hn.
  - intros w p1 p2 shI cBatch <- Hp1 Hp2 Hb HshI Honly Hzero.
    by apply (saveItem_first_two w p1 p2 batchId shI cBatch).
  - intros w p1 p2 <- Hnone Hp1 Hp2 Hb.
    destruct (fresh_items_sheet (w_ss w) batchId Hnone) as [Honly Hzero].
    apply (saveItem_first_two w p1 p2 batchId
             (ensureSheet_ SH_ITEMS (HEADERS SH_ITEMS) (w_ss w)).2 2); try done.
    apply itemSheetsEnsured_items.
Qed.

(** ** The next free row *)

Lemma displayAt_in_grid (sh : Sheet) (r c : nat) :
  displayAt sh r c ≠ "" → 1 ≤ r ≤ maxRows sh ∧ 1 ≤ c ≤ maxCols sh.
Proof.
  unfold displayAt. destruct (cellAt sh r c) as [x|] eqn:E; [|done].
  intros _. by apply (cellAt_Some_inv sh r c x).
Qed.

Lemma FirstFreeRow_unique (sh : Sheet) (col r1 r2 : nat) :
  FirstFreeRow sh col r1 → FirstFreeRow sh col r2 → r1 = r2.
Proof.
  intros (Hge1 & Hfree1 & Hlast1) (Hge2 & Hfree2 & Hlast2).
  destruct (Nat.lt_trichotomy r1 r2) as [Hlt|[->|Hlt]]; [|done|].
  - destruct Hlast2 as [->|Hne]; [lia|]. destruct Hne. apply Hfree1. lia.
  - destruct Hlast1 as [->|Hne]; [lia|]. destruct Hne. apply Hfree2. lia.
Qed.

Lemma nextFreeRow_first_free (sh : Sheet) (keyHeader : string) (idx : nat) :
  indexOf (getHeaders_ sh) (VStr keyHeader) = Some idx →
  ∃ r, nextFreeRowByHeader_ sh keyHeader = Ok r ∧ FirstFreeRow sh (idx + 1) r.
Proof.
  intros Hidx. unfold nextFreeRowByHeader_. rewrite Hidx.
  unfold getMaxRows. replace (Nat.max 0 (maxRows sh - 1)) with (maxRows sh - 1) by lia.
  assert (∀ row, maxRows sh < row → displayAt sh row (idx + 1) = "") as Hout.
  { intros row Hrow. destruct (decide (displayAt sh row (idx + 1) = "")) as [|Hne]; [done|].
    apply displayAt_in_grid in Hne. lia. }
  destruct (maxRows sh - 1 =? 0) eqn:E.
  - apply Nat.eqb_eq in E. exists 2. split; [done|].
    split; [done|]. split; [|by left]. intros row Hrow. apply Hout. lia.
  - apply Nat.eqb_neq in E. eexists. split; [done|].
    rewrite getDisplayValues_length.
    destruct (scanUp_spec (getDisplayValues sh 2 (idx + 1) (maxRows sh - 1) 1)
                (maxRows sh - 1))
      as [[H2 Hall]|(i & Hi & Hr & Hne & Hafter)].
    + rewrite H2. split; [done|]. split; [|by left]. intros row Hrow.
      destruct (decide (row ≤ maxRows sh)) as [Hin|Hin]; [|apply Hout; lia].
      specialize (Hall (row - 2) ltac:(lia)).
      rewrite getDisplayValues_col in Hall by lia.
      by replace (2 + (row - 2)) with row in Hall by lia.
    + rewrite Hr. rewrite getDisplayValues_col in Hne by lia.
      split; [lia|]. split.
      * intros row Hrow.
        destruct (decide (row ≤ maxRows sh)) as [Hin|Hin]; [|apply Hout; lia].
        specialize (Hafter (row - 2) ltac:(lia)).
        rewrite getDisplayValues_col in Hafter by lia.
        by replace (2 + (row - 2)) with row in Hafter by lia.
      * right. by replace (i + 3 - 1) with (2 + i) by lia.
Qed.

Lemma nextFreeRow_iff (sh : Sheet) (keyHeader : string) (idx r : nat) :
  indexOf (getHeaders_ sh) (VStr keyHeader) = Some idx →
  nextFreeRowByHeader_ sh keyHeader = Ok r ↔ FirstFreeRow sh (idx + 1) r.
Proof.
  intros Hidx. destruct (nextFreeRow_first_free sh keyHeader idx Hidx) as (r0 & Hr0 & Hfree).
  rewrite Hr0. split.
  - intros [= <-]. done.
  - intros Hfree'. f_equal. by apply (FirstFreeRow_unique sh (idx + 1)).
Qed.

Lemma string_of_uint_nonempty (d : Decimal.uint) :
  d ≠ Decimal.Nil → NilEmpty.string_of_uint d ≠ "".
Proof. destruct d; simpl; congruence. Qed.

Lemma display_nonempty (v : value) : v ≠ VStr "" → display v ≠ "".
Proof.
  destruct v as [s|n|[|]]; simpl; try done.
  - congruence.
  - intros _. destruct n as [|p|p]; simpl.
    + done.
    + apply string_of_uint_nonempty. apply DecimalPos.Unsigned.to_uint_nonnil.
    + done.
Qed.

(** ** Rows appended one after the other *)

Lemma displayAt_stored_value (sh : Sheet) (r c : nat) (v : value) :
  cellAt sh r c = stored v → displayAt sh r c = if decide (v = VStr "") then "" else display v.
Proof.
  intros E. unfold displayAt. rewrite E. unfold stored.
  by destruct (decide (v = VStr "")).
Qed.

Lemma writeKeys_obj_cell (headers : list value) (r : nat) (obj : gmap string value)
    (sh : Sheet) (h : string) (c : nat) :
  1 ≤ r → position headers h = Some c →
  cellAt (writeKeys headers r (map_to_list obj) sh) r c
  = match obj !! h with Some v => stored v | None => cellAt sh r c end.
Proof.
  intros Hr Hpos. destruct (obj !! h) as [v|] eqn:E.
  - apply (writeKeys_written headers r (map_to_list obj) sh h v c); try done.
    + apply NoDup_fst_map_to_list.
    + by apply elem_of_map_to_list.
  - apply writeKeys_frame; [done|]. right. intros h' v' Hin Hpos'.
    apply elem_of_map_to_list in Hin.
    assert (h' = h) as -> by (by apply (position_inj headers h' h c)).
    congruence.
Qed.

Lemma indexOf_position (headers : list value) (h : string) (idx : nat) :
  indexOf headers (VStr h) = Some idx ↔ position headers h = Some (idx + 1).
Proof.
  unfold position. destruct (indexOf headers (VStr h)) as [i|]; simpl; [|done].
  split; intros [= E]; f_equal; lia.
Qed.

Lemma writeKeys_next_free (sh : Sheet) (keyHeader : string)
    (obj : gmap string value) (r : nat) :
  keyHeader ≠ "" →
  nextFreeRowByHeader_ sh keyHeader = Ok r →
  nextFreeRowByHeader_ (writeKeys (getHeaders_ sh) r (map_to_list obj) sh) keyHeader
  = Ok (match obj !! keyHeader with
        | Some v => if decide (v = VStr "") then r else r + 1
        | None => r
        end).
Proof.
  intros Hkey Hr.
  destruct (indexOf (getHeaders_ sh) (VStr keyHeader)) as [idx|] eqn:Hidx;
    [|by unfold nextFreeRowByHeader_ in Hr; rewrite Hidx in Hr].
  pose proof (proj1 (nextFreeRow_iff sh keyHeader idx r Hidx) Hr) as (Hge & Hfree & Hlast).
  set (sh' := writeKeys (getHeaders_ sh) r (map_to_list obj) sh).
  assert (position (getHeaders_ sh) keyHeader = Some (idx + 1)) as Hpos
    by (by apply indexOf_position).
  assert (indexOf (getHeaders_ sh') (VStr keyHeader) = Some idx) as Hidx'.
  { apply indexOf_position.
    apply (position_preserved sh sh' keyHeader (idx + 1)); [|done|done].
    intros c. by apply writeKeys_row1. }
  assert (∀ row, row ≠ r → displayAt sh' row (idx + 1) = displayAt sh row (idx + 1))
    as Hother.
  { intros row Hrow. unfold displayAt, sh'.
    rewrite writeKeys_frame; [done | lia | by left]. }
  assert (cellAt sh' r (idx + 1)
          = match obj !! keyHeader with
            | Some v => stored v | None => cellAt sh r (idx + 1) end) as Hcell
    by (apply writeKeys_obj_cell; [lia | done]).
  apply (nextFreeRow_iff sh' keyHeader idx _ Hidx').
  destruct (obj !! keyHeader) as [v|] eqn:Hobj.
  - apply displayAt_stored_value in Hcell.
    destruct (decide (v = VStr "")) as [->|Hv].
    + split; [done|]. split.
      * intros row Hrow. destruct (decide (row = r)) as [->|Hne]; [done|].
        rewrite Hother by done. by apply Hfree.
      * destruct Hlast as [->|Hne]; [by left|]. right.
        rewrite Hother by lia. done.
    + split; [lia|]. split.
      * intros row Hrow. rewrite Hother by lia. apply Hfree. lia.
      * right. replace (r + 1 - 1) with r by lia. rewrite Hcell.
        by apply display_nonempty.
  - assert (displayAt sh' r (idx + 1) = displayAt sh r (idx + 1)) as Hsame
      by (unfold displayAt; by rewrite Hcell).
    split; [done|]. split.
    + intros row Hrow. destruct (decide (row = r)) as [->|Hne].
      * rewrite Hsame. by apply Hfree.
      * rewrite Hother by done. by apply Hfree.
    + destruct Hlast as [->|Hne]; [by left|]. right.
      rewrite Hother by lia. done.
Qed.

(** X1. Two appends never share a row when the record fills the key
    column: after [appendRowAtKey_] has written a record whose value for
    the key column is not the empty text, the next free row is the row
    after the one just written, and a second append leaves the cells of the
    first row as they are.  When the record has no value or the empty text
    for the key column, the next free row stays where it was, so the next
    append is written over the same row. *)
Theorem appendRowAtKey_next_row (name keyHeader : string) (obj : gmap string value)
    (ss : Spreadsheet) (sh : Sheet) (r : nat) :
  ss !! name = Some sh → keyHeader ≠ "" →
  nextFreeRowByHeader_ sh keyHeader = Ok r →
  ∃ sh',
    appendRowAtKey_ name keyHeader obj ss = Ok (<[name := sh']> ss)
    ∧ (∀ v, obj !! keyHeader = Some v → v ≠ VStr "" →
         nextFreeRowByHeader_ sh' keyHeader = Ok (r + 1)
         ∧ ∀ obj2, ∃ sh'',
             appendRowAtKey_ name keyHeader obj2 (<[name := sh']> ss)
             = Ok (<[name := sh'']> ss)
             ∧ ∀ c, cellAt sh'' r c = cellAt sh' r c)
    ∧ (obj !! keyHeader = None ∨ obj !! keyHeader = Some (VStr "") →
         nextFreeRowByHeader_ sh' keyHeader = Ok r).
Proof.
  intros Hsh Hkey Hr.
  exists (writeKeys (getHeaders_ sh) r (map_to_list obj) sh).
  pose proof (writeKeys_next_free sh keyHeader obj r Hkey Hr) as Hnext.
  split; [unfold appendRowAtKey_; by rewrite Hsh, Hr|].
  split.
  - intros v Hv Hne. rewrite Hv, decide_False in Hnext by done.
    split; [done|]. intros obj2. eexists. split.
    + unfold appendRowAtKey_. rewrite lookup_insert_eq, Hnext.
      by rewrite insert_insert_eq.
    + intros c. apply writeKeys_frame; [lia | left; lia].
  - intros [Hnone|Hempty].
    + by rewrite Hnone in Hnext.
    + by rewrite Hempty, decide_True in Hnext.
Qed.

(** X2. The outcomes of [appendRowAtKey_]: it throws when the sheet does
    not exist and when the key column name is not in the header row, and
    writes nothing then; in every other case it succeeds, writes below the
    header row and in the row it was given only, changes no other sheet,
    and with an empty record leaves the sheet as it is. *)
Theorem appendRowAtKey_outcomes (name keyHeader : string) (obj : gmap string value)
    (ss : Spreadsheet) :
  (ss !! name = None →
     appendRowAtKey_ name keyHeader obj ss = Throw ("Missing sheet: " +:+ name))
  ∧ (∀ sh, ss !! name = Some sh → VStr keyHeader ∉ getHeaders_ sh →
       appendRowAtKey_ name keyHeader obj ss
       = Throw ("Key header not found: " +:+ keyHeader))
  ∧ (∀ sh, ss !! name = Some sh → VStr keyHeader ∈ getHeaders_ sh →
       ∃ sh' r,
         appendRowAtKey_ name keyHeader obj ss = Ok (<[name := sh']> ss)
         ∧ nextFreeRowByHeader_ sh keyHeader = Ok r ∧ 2 ≤ r
         ∧ (∀ c, cellAt sh' 1 c = cellAt sh 1 c)
         ∧ (∀ r' c, r' ≠ r → cellAt sh' r' c = cellAt sh r' c)
         ∧ (∀ n, n ≠ name → <[name := sh']> ss !! n = ss !! n)
         ∧ (obj = ∅ → sh' = sh)).
Proof.
  split; [|split].
  - intros Hnone. unfold appendRowAtKey_. by rewrite Hnone.
  - intros sh Hsh Hnot. unfold appendRowAtKey_, nextFreeRowByHeader_.
    rewrite Hsh. apply indexOf_None in Hnot. by rewrite Hnot.
  - intros sh Hsh Hkey.
    destruct (appendRowAtKey_Ok name keyHeader obj ss sh Hsh Hkey) as (r & Hr & Happ).
    pose proof (nextFreeRow_ge_2 sh keyHeader r Hr) as Hge.
    exists (writeKeys (getHeaders_ sh) r (map_to_list obj) sh), r.
    split; [done|]. split; [done|]. split; [done|].
    split; [intros c; by apply writeKeys_row1|].
    split; [intros r' c Hne; apply writeKeys_frame; [lia | by left]|].
    split; [intros n Hn; by rewrite lookup_insert_ne|].
    intros ->. by rewrite map_to_list_empty.
Qed.

(** ** Reading the rows of a sheet *)

Lemma getAll_eq (name : string) (ss : Spreadsheet) (sh : Sheet) :
  ss !! name = Some sh →
  getAll_ name ss
  = (fun i => rowObject (valueAt sh 1 <$> seq 1 (Nat.max 1 (getLastColumn sh)))
                (valueAt sh i <$> seq 1 (Nat.max 1 (getLastColumn sh))))
      <$> seq 2 (getLastRow sh - 1).
Proof.
  intros Hsh. unfold getAll_. rewrite Hsh. cbn zeta.
  rewrite getDataRangeValues_eq.
  set (nC := Nat.max 1 (getLastColumn sh)).
  rewrite length_fmap, length_seq.
  destruct (Nat.leb_spec (Nat.max 1 (getLastRow sh)) 1) as [Hle|Hgt].
  - by replace (getLastRow sh - 1) with 0 by lia.
  - replace (Nat.max 1 (getLastRow sh)) with (S (getLastRow sh - 1)) by lia.
    cbn [seq fmap list_fmap nth drop].
    rewrite drop_0. change (map ?f ?l) with (f <$> l).
    by rewrite <- list_fmap_compose.
Qed.




(** X4. A row that was appended is read back: when the record gives the
    key column a value other than the empty text, [getAll_] returns, at the
    position of the row written, an object that holds the value of the
    record for every name that heads exactly one column (the name
    [__proto__] apart, under which an object never has a property). *)
Theorem getAll_reads_appended_row (name keyHeader : string)
    (obj : gmap string value) (ss : Spreadsheet) (sh : Sheet) (r : nat) (k : value) :
  ss !! name = Some sh → keyHeader ≠ "" →
  nextFreeRowByHeader_ sh keyHeader = Ok r →
  obj !! keyHeader = Some k → k ≠ VStr "" →
  ∃ ss' row,
    appendRowAtKey_ name keyHeader obj ss = Ok ss'
    ∧ getAll_ name ss' !! (r - 2) = Some row
    ∧ ∀ h v c, h ≠ "" → obj !! h = Some v → OnlyColumn sh h c →
        row !! h = if decide (h = "__proto__") then None else Some v.
Proof.
  intros Hsh Hkey Hr Hk Hne.
  set (sh' := writeKeys (getHeaders_ sh) r (map_to_list obj) sh).
  pose proof (nextFreeRow_ge_2 sh keyHeader r Hr) as Hge.
  destruct (indexOf (getHeaders_ sh) (VStr keyHeader)) as [idx|] eqn:Hidx;
    [|by unfold nextFreeRowByHeader_ in Hr; rewrite Hidx in Hr].
  assert (cellAt sh' r (idx + 1) = stored k) as Hcell.
  { unfold sh'. rewrite (writeKeys_obj_cell _ r obj sh keyHeader (idx + 1)), Hk;
      [done | lia | by apply indexOf_position]. }
  assert (r ≤ getLastRow sh') as Hlast.
  { apply (getLastRow_ge sh' r (idx + 1)). rewrite Hcell. unfold stored.
    by rewrite decide_False. }
  exists (<[name := sh']> ss). eexists.
  split; [unfold appendRowAtKey_; by rewrite Hsh, Hr|].
  rewrite (getAll_eq name _ sh') by apply lookup_insert_eq.
  split.
  { rewrite list_lookup_fmap, lookup_seq_lt by lia.
    replace (2 + (r - 2)) with r by lia. done. }
  intros h v c Hh Hv Honly.
  destruct (decide (h = "__proto__")) as [->|Hproto]; [apply rowObject_proto|].
  rewrite rowObject_lookup by done.
  assert (OnlyColumn sh' h c) as Honly'.
  { apply (OnlyColumn_preserved sh sh'); [|done]. intros c'. by apply writeKeys_row1. }
  pose proof (OnlyColumn_content sh' h c Hh Honly') as Hc.
  rewrite (fieldOf_only_column sh' h c r _ Honly') by lia.
  f_equal. apply valueAt_stored. unfold sh'.
  rewrite (writeKeys_obj_cell _ r obj sh h c), Hv; [done | lia |].
  by apply OnlyColumn_position.
Qed.

(** ** Creating and repairing sheets *)

Lemma ensureSheet_existing_headers (name : string) (H : list string)
    (ss : Spreadsheet) (sh : Sheet) :
  ss !! name = Some sh → "" ∉ H →
  getHeaders_ (ensureSheet_ name H ss).2
  = getHeaders_ sh ++ (VStr <$> missingColumns (getHeaders_ sh) H).
Proof.
  intros E1 Hne.
  set (sh2 := (ensureSheet_ name H ss).2).
  set (current := getHeaders_ sh). set (missing := missingColumns current H).
  pose proof (λ r c, ensureSheet_existing_cells name H ss sh r c E1) as Hcells.
  cbn zeta in Hcells. fold sh2 current missing in Hcells.
  assert (∀ j h, missing !! j = Some h →
            cellAt sh2 1 (length current + 1 + j) = stored (VStr h)) as Hnew.
  { intros j h Hj. pose proof (lookup_lt_Some _ _ _ Hj).
    rewrite Hcells, decide_True by lia.
    replace (length current + 1 + j - (length current + 1)) with j by lia.
    by rewrite Hj. }
  destruct (decide (missing = [])) as [Hm|Hm].
  { rewrite Hm, app_nil_r. apply getHeaders_ext. intros r c.
    rewrite Hcells, Hm. cbn [length]. by rewrite decide_False by lia. }
  assert (∀ h, h ∈ missing → h ≠ "") as Hnames.
  { intros h Hh ->. apply Hne. unfold missing, missingColumns in Hh.
    by apply list_elem_of_filter in Hh as [_ ?]. }
  assert (length (getHeaders_ sh2) = length current + length missing) as Hlen.
  { rewrite getHeaders_length.
    assert (0 < length missing) as Hpos by (destruct missing; [done | simpl; lia]).
    assert (length current + length missing ≤ getLastColumn sh2).
    { destruct (lookup_lt_is_Some_2 missing (length missing - 1)) as [h Hh]; [lia|].
      apply (getLastColumn_ge sh2 1).
      replace (length current + length missing)
        with (length current + 1 + (length missing - 1)) by lia.
      rewrite (Hnew _ _ Hh). apply stored_Some, Hnames.
      apply list_elem_of_lookup. eauto. }
    assert (getLastColumn sh2 ≤ length current + length missing); [|lia].
    destruct (decide (getLastColumn sh2 ≤ length current + length missing)); [done|].
    destruct (getLastColumn_content sh2) as [r Hr]; [lia|].
    rewrite Hcells, decide_False in Hr by lia.
    rewrite getHeaders_beyond in Hr; [done|]. fold current. lia. }
  apply list_eq. intros i.
  destruct (decide (i < length current)) as [Hi|Hi].
  - rewrite lookup_app_l by done.
    destruct (lookup_lt_is_Some_2 current i Hi) as [v Hv]. rewrite Hv.
    by apply (ensureSheet_keeps_columns name H ss sh).
  - rewrite lookup_app_r by lia. rewrite list_lookup_fmap.
    destruct (missing !! (i - length current)) as [h|] eqn:Eh; simpl.
    + pose proof (lookup_lt_Some _ _ _ Eh).
      rewrite getHeaders_lookup by lia. f_equal.
      apply valueAt_stored. rewrite <- (Hnew _ _ Eh). f_equal. lia.
    + apply lookup_ge_None in Eh. apply lookup_ge_None. lia.
Qed.

Lemma getLastRow_le (sh : Sheet) (n : nat) :
  (∀ r c, n < r → cellAt sh r c = None) → getLastRow sh ≤ n.
Proof.
  intros Hnone. destruct (decide (getLastRow sh ≤ n)) as [|Hgt]; [done|].
  destruct (getLastRow_content sh) as [c Hc]; [lia|].
  rewrite Hnone in Hc by lia. done.
Qed.

Lemma indexOf_fmap_VStr (H : list string) (h : string) :
  h ∈ H → ∃ idx, indexOf (VStr <$> H) (VStr h) = Some idx.
Proof. intros Hin. apply indexOf_elem. by apply list_elem_of_fmap_2. Qed.

(** X5. On a spreadsheet without a sheet of the name, [ensureSheet_]
    creates it: its header row is the canonical header, in order and from
    column A, nothing is below it, so every canonical column has row 2 as
    its next free row and [getAll_] reads no row; the other sheets are as
    they were. *)
Theorem ensureSheet_creates_sheet (name : string) (H : list string)
    (ss : Spreadsheet) :
  ss !! name = None → H ≠ [] → "" ∉ H →
  let ss' := (ensureSheet_ name H ss).1 in
  let sh := (ensureSheet_ name H ss).2 in
  ss' !! name = Some sh
  ∧ getHeaders_ sh = VStr <$> H
  ∧ (∀ r c, 2 ≤ r → cellAt sh r c = None)
  ∧ (∀ h, h ∈ H → nextFreeRowByHeader_ sh h = Ok 2)
  ∧ getAll_ name ss' = []
  ∧ (∀ n, n ≠ name → ss' !! n = ss !! n).
Proof.
  intros Hnone Hnil Hne ss' sh.
  pose proof (ensureSheet_new_headers name H ss Hnone Hnil Hne) as Hhead.
  fold sh in Hhead.
  assert (∀ r c, 2 ≤ r → cellAt sh r c = None) as Hrows.
  { intros r c Hr. unfold sh. rewrite ensureSheet_new_cells by done.
    by rewrite decide_False by lia. }
  assert (ss' !! name = Some sh) as Hsh by apply ensureSheet_lookup.
  split; [done|]. split; [done|]. split; [done|]. split; [|split].
  - intros h Hh. destruct (indexOf_fmap_VStr H h Hh) as [idx Hidx].
    rewrite <- Hhead in Hidx. apply (nextFreeRow_iff sh h idx 2 Hidx).
    split; [done|]. split; [|by left].
    intros row Hrow. unfold displayAt. by rewrite Hrows.
  - rewrite (getAll_eq name ss' sh Hsh).
    assert (getLastRow sh ≤ 1) as Hlast
      by (apply getLastRow_le; intros r c Hr; apply Hrows; lia).
    by replace (getLastRow sh - 1) with 0 by lia.
  - intros n Hn. by apply ensureSheet_other.
Qed.

Lemma filter_all {A} (P : A → Prop) `{!∀ x, Decision (P x)} (l : list A) :
  (∀ y, y ∈ l → P y) → filter P l = l.
Proof.
  induction l as [|x l IH]; intros Hall; [done|].
  rewrite filter_cons, decide_True by (apply Hall; left).
  f_equal. apply IH. intros y Hy. apply Hall. by right.
Qed.

Lemma getLastColumn_blank (sh : Sheet) :
  (∀ r c, cellAt sh r c = None) → getLastColumn sh = 0.
Proof.
  intros Hblank. destruct (decide (getLastColumn sh = 0)) as [|Hne]; [done|].
  destruct (getLastColumn_content sh Hne) as [r Hr]. by rewrite Hblank in Hr.
Qed.

(** X6. On a sheet that exists but has no content, [ensureSheet_] does not
    write the canonical header from column A: the header row read from
    such a sheet is one empty cell, so all the names are missing and are
    written after it.  Column A stays empty, the name at position [i] of
    the header is in column [i + 2], and the rows below stay empty. *)
Theorem ensureSheet_blank_sheet_shifts_header (name : string) (H : list string)
    (ss : Spreadsheet) (sh : Sheet) :
  ss !! name = Some sh → (∀ r c, cellAt sh r c = None) → "" ∉ H →
  let sh' := (ensureSheet_ name H ss).2 in
  getHeaders_ sh = [VStr ""]
  ∧ missingColumns (getHeaders_ sh) H = H
  ∧ getHeaders_ sh' = VStr "" :: (VStr <$> H)
  ∧ cellAt sh' 1 1 = None
  ∧ (∀ i h, H !! i = Some h → valueAt sh' 1 (i + 2) = VStr h)
  ∧ (∀ r c, 2 ≤ r → cellAt sh' r c = None).
Proof.
  intros Hsh Hblank Hne sh'.
  assert (getHeaders_ sh = [VStr ""]) as Hcur.
  { rewrite getHeaders_eq, getLastColumn_blank by done.
    cbn. unfold valueAt. by rewrite Hblank. }
  assert (missingColumns (getHeaders_ sh) H = H) as Hmiss.
  { rewrite Hcur, missingColumns_difference.
    apply filter_all. intros h Hh Hin.
    apply list_elem_of_singleton in Hin. injection Hin as ->. done. }
  assert (∀ r c, cellAt sh' r c
                 = if decide (r = 1 ∧ 1 < c ≤ 1 + length H)
                   then match H !! (c - 2) with
                        | Some h => stored (VStr h)
                        | None => None
                        end
                   else None) as Hcells.
  { intros r c. unfold sh'.
    rewrite (ensureSheet_existing_cells name H ss sh r c Hsh).
    rewrite Hmiss, Hcur, Hblank. done. }
  split; [done|]. split; [done|]. split; [|split; [|split]].
  - unfold sh'. rewrite (ensureSheet_existing_headers name H ss sh) by done.
    by rewrite Hmiss, Hcur.
  - by rewrite Hcells, decide_False by lia.
  - intros i h Hi. pose proof (lookup_lt_Some _ _ _ Hi).
    apply valueAt_stored. rewrite Hcells, decide_True by lia.
    replace (i + 2 - 2) with i by lia. by rewrite Hi.
  - intros r c Hr. by rewrite Hcells, decide_False by lia.
Qed.

(** ** Setting up the database *)

Lemma ensureSheet_sheet_ext (name : string) (H : list string) (ss1 ss2 : Spreadsheet) :
  ss1 !! name = ss2 !! name → (ensureSheet_ name H ss1).2 = (ensureSheet_ name H ss2).2.
Proof.
  intros E. unfold ensureSheet_. rewrite E.
  destruct (ss2 !! name) as [sh|]; [|done].
  destruct (0 <? length H); [|done].
  by destruct (0 <? length (missingColumns (getHeaders_ sh) H)).
Qed.

Lemma ensureAll_cons (n0 : string) (names : list string) (ss : Spreadsheet) :
  ensureAll (n0 :: names) ss = ensureAll names (ensureSheet_ n0 (HEADERS n0) ss).1.
Proof. done. Qed.

Lemma ensureAll_other (names : list string) (ss : Spreadsheet) (n : string) :
  n ∉ names → ensureAll names ss !! n = ss !! n.
Proof.
  revert ss. induction names as [|n0 names IH]; intros ss Hn; [done|].
  apply not_elem_of_cons in Hn as [Hne Hn].
  rewrite ensureAll_cons.
  rewrite IH by done. by apply ensureSheet_other.
Qed.

Lemma ensureAll_lookup (names : list string) (ss : Spreadsheet) (name : string) :
  NoDup names → name ∈ names →
  ensureAll names ss !! name = Some (ensureSheet_ name (HEADERS name) ss).2.
Proof.
  revert ss. induction names as [|n0 names IH]; intros ss Hnd Hin.
  { by apply elem_of_nil in Hin. }
  apply NoDup_cons in Hnd as [Hn0 Hnd].
  rewrite ensureAll_cons.
  destruct (decide (name = n0)) as [->|Hne].
  - rewrite ensureAll_other by done. apply ensureSheet_lookup.
  - apply elem_of_cons in Hin as [?|Hin]; [done|].
    rewrite IH by done. f_equal. apply ensureSheet_sheet_ext.
    by apply ensureSheet_other.
Qed.

Lemma ensureAll_fixed (names : list string) (ss : Spreadsheet) :
  (∀ name, name ∈ names →
     ∃ sh, ss !! name = Some sh ∧ ∀ h, h ∈ HEADERS name → VStr h ∈ getHeaders_ sh) →
  ensureAll names ss = ss.
Proof.
  induction names as [|n0 names IH]; intros Hall; [done|].
  rewrite ensureAll_cons.
  destruct (Hall n0) as (sh & Hsh & Hcols); [left|].
  rewrite (ensureSheet_satisfied n0 (HEADERS n0) ss sh Hsh Hcols). cbn [fst].
  apply IH. intros name Hin. apply Hall. by right.
Qed.

Lemma sheetUrls_lookup (url : string) (gid : string → nat) (names : list string)
    (ss : Spreadsheet) (n : string) :
  sheetUrls url gid names ss !! n
  = if decide (n ∈ names ∧ is_Some (ss !! n))
    then Some (url +:+ "#gid=" +:+ String_nat (gid n)) else None.
Proof.
  unfold sheetUrls.
  assert (∀ acc : gmap string string,
            foldl (fun urls name =>
                     match ss !! name with
                     | Some _ => <[name := url +:+ "#gid=" +:+ String_nat (gid name)]> urls
                     | None => urls
                     end) acc names !! n
            = if decide (n ∈ names ∧ is_Some (ss !! n))
              then Some (url +:+ "#gid=" +:+ String_nat (gid n)) else acc !! n) as Hgen.
  { induction names as [|n0 names IH]; intros acc.
    - cbn [foldl]. rewrite decide_False; [done|]. intros [Hin _].
      by apply elem_of_nil in Hin.
    - cbn [foldl]. rewrite IH.
      destruct (decide (n ∈ names ∧ is_Some (ss !! n))) as [[Hin Hs]|Hno].
      + rewrite decide_True; [done|]. split; [by right | done].
      + destruct (decide (n = n0)) as [->|Hne].
        * destruct (ss !! n0) as [sh|] eqn:E.
          -- rewrite lookup_insert_eq, decide_True; [done|].
             split; [left | eauto].
          -- rewrite decide_False; [done|]. intros [_ [? ?]]. done.
        * assert (match ss !! n0 with
                  | Some _ => <[n0 := url +:+ "#gid=" +:+ String_nat (gid n0)]> acc
                  | None => acc
                  end !! n = acc !! n) as ->.
          { destruct (ss !! n0); [by rewrite lookup_insert_ne|done]. }
          rewrite decide_False; [done|]. intros [Hin Hs]. apply Hno.
          apply elem_of_cons in Hin as [?|Hin]; done. }
  rewrite Hgen. destruct (decide _); [done | apply lookup_empty].
Qed.

Lemma sheetNames_NoDup : NoDup sheetNames.
Proof. by_compute. Qed.

(** X7. After [initializeDatabase] each of the four sheets exists and has
    every name of its canonical header in its header row, and the object
    returned holds a link for each of them.  A sheet that existed keeps its
    header cells in place and every cell below the header row; sheets
    of other names are not touched. *)
Theorem initializeDatabase_complete (url : string) (gid : string → nat)
    (ss : Spreadsheet) :
  let ss' := (initializeDatabase url gid ss).1 in
  let out := (initializeDatabase url gid ss).2 in
  out.1 = url
  ∧ (∀ name, name ∈ sheetNames →
       out.2 !! name = Some (url +:+ "#gid=" +:+ String_nat (gid name))
       ∧ ∃ sh', ss' !! name = Some sh'
           ∧ (∀ h, h ∈ HEADERS name → VStr h ∈ getHeaders_ sh')
           ∧ (∀ sh, ss !! name = Some sh →
                (∀ i v, getHeaders_ sh !! i = Some v → getHeaders_ sh' !! i = Some v)
                ∧ (∀ r c, 2 ≤ r → cellAt sh' r c = cellAt sh r c)))
  ∧ (∀ n, n ∉ sheetNames → ss' !! n = ss !! n ∧ out.2 !! n = None).
Proof.
  intros ss' out. unfold initializeDatabase in ss', out. cbn [fst snd] in ss', out.
  split; [done|]. split.
  - intros name Hin.
    pose proof (ensureAll_lookup sheetNames ss name sheetNames_NoDup Hin) as Hsh.
    fold ss' in Hsh. split.
    + unfold out. cbn [snd]. rewrite sheetUrls_lookup, decide_True; [done|].
      split; [done|]. fold ss'. rewrite Hsh. eauto.
    + eexists. split; [done|]. split.
      * intros h Hh. apply ensureSheet_has_columns; [done|].
        by apply (HEADERS_nonempty_names name).
      * intros sh Hold. split.
        -- intros i v Hi. by apply (ensureSheet_keeps_columns name _ ss sh).
        -- intros r c Hr.
           rewrite (ensureSheet_existing_cells name _ ss sh r c Hold).
           by rewrite decide_False by lia.
  - intros n Hn. split; [by apply ensureAll_other|].
    unfold out. cbn [snd]. rewrite sheetUrls_lookup, decide_False; [done|].
    by intros [? _].
Qed.

(** X8. [initializeDatabase] is safe to run again: a second run leaves the
    spreadsheet exactly as the first run left it and returns the same
    object. *)
Theorem initializeDatabase_idempotent (url : string) (gid : string → nat)
    (ss : Spreadsheet) :
  initializeDatabase url gid (initializeDatabase url gid ss).1
  = initializeDatabase url gid ss.
Proof.
  unfold initializeDatabase. cbn [fst].
  assert (ensureAll sheetNames (ensureAll sheetNames ss) = ensureAll sheetNames ss)
    as Hfix.
  { apply ensureAll_fixed. intros name Hin.
    rewrite (ensureAll_lookup sheetNames ss name sheetNames_NoDup Hin).
    eexists. split; [done|]. intros h Hh.
    apply ensureSheet_has_columns; [done|].
    by apply (HEADERS_nonempty_names name). }
  by rewrite Hfix.
Qed.

(** ** Fonts and logo *)

Lemma string_app_assoc (a b c : string) : (a +:+ b) +:+ c = a +:+ (b +:+ c).
Proof. induction a as [|x a IH]; [done|]. by rewrite !string_app_cons, IH. Qed.

Lemma string_app_length (a b : string) :
  String.length (a +:+ b) = String.length a + String.length b.
Proof. induction a as [|x a IH]; [done|]. rewrite string_app_cons. simpl. by rewrite IH. Qed.

Lemma takeIdChars_split (s : string) :
  ∃ post, s = takeIdChars s +:+ post ∧ startsOutsideId post = true
          ∧ allIdChars (takeIdChars s) = true.
Proof.
  induction s as [|c s (post & Hs & Hpost & Hall)].
  - by exists "".
  - simpl. destruct (isIdChar c) eqn:E.
    + exists post. rewrite string_app_cons, <- Hs. simpl. by rewrite E.
    + exists (String c s). simpl. by rewrite E.
Qed.

Lemma takeIdChars_app (id post : string) :
  allIdChars id = true → startsOutsideId post = true →
  takeIdChars (id +:+ post) = id.
Proof.
  intros Hall Hpost. induction id as [|c id IH].
  - destruct post as [|d post]; [done|]. simpl in *.
    by destruct (isIdChar d).
  - simpl in Hall. apply andb_true_iff in Hall as [Hc Hall].
    rewrite string_app_cons. simpl. by rewrite Hc, IH.
Qed.

Lemma takeIdChars_app_stop (s t : string) :
  s ≠ "" → endsOutsideId s = true → takeIdChars (s +:+ t) = takeIdChars s.
Proof.
  induction s as [|c s IH]; [done|]. intros _ Hend.
  rewrite string_app_cons. simpl. destruct (isIdChar c) eqn:E; [|done].
  f_equal. destruct s as [|d s]; [by simpl in Hend; rewrite E in Hend|].
  by apply IH.
Qed.

Lemma matchId_sound (s m : string) :
  matchId s = Some m →
  ∃ pre post, s = pre +:+ m +:+ post ∧ allIdChars m = true
              ∧ 25 ≤ String.length m ∧ startsOutsideId post = true.
Proof.
  induction s as [|c s IH]; [done|]. intros Hm. cbn [matchId] in Hm.
  destruct (Nat.leb_spec 25 (String.length (takeIdChars (String c s)))) as [Hlen|Hlen].
  - injection Hm as <-.
    destruct (takeIdChars_split (String c s)) as (post & Hs & Hpost & Hall).
    by exists "", post.
  - destruct (IH Hm) as (pre & post & -> & Hrest).
    exists (String c pre), post. by rewrite string_app_cons.
Qed.

Lemma takeIdChars_length (s : string) :
  String.length (takeIdChars s) ≤ String.length s.
Proof. induction s as [|c s IH]; [done|]. simpl. destruct (isIdChar c); simpl; lia. Qed.

Lemma matchId_short (s : string) : String.length s < 25 → matchId s = None.
Proof.
  induction s as [|c s IH]; [done|]. intros Hlen. cbn [matchId].
  pose proof (takeIdChars_length (String c s)).
  destruct (Nat.leb_spec 25 (String.length (takeIdChars (String c s)))); [lia|].
  apply IH. simpl in Hlen. lia.
Qed.

Lemma matchId_extracts (pre id post : string) :
  allIdChars id = true → 25 ≤ String.length id →
  matchId pre = None → endsOutsideId pre = true → startsOutsideId post = true →
  matchId (pre +:+ id +:+ post) = Some id.
Proof.
  intros Hall Hlen Hpre Hend Hpost. induction pre as [|c pre IH].
  - destruct id as [|d id]; [simpl in Hlen; lia|].
    change ("" +:+ String d id +:+ post) with (String d (id +:+ post)).
    cbn [matchId]. rewrite <- string_app_cons.
    rewrite takeIdChars_app by done.
    by destruct (Nat.leb_spec 25 (String.length (String d id))); [|lia].
  - rewrite string_app_cons. cbn [matchId] in Hpre |- *.
    rewrite <- string_app_cons.
    rewrite (takeIdChars_app_stop (String c pre)) by done.
    destruct (25 <=? String.length (takeIdChars (String c pre))); [done|].
    apply IH; [done|]. destruct pre as [|d pre]; [done|]. done.
Qed.

(** X9. [toId] of [getFontData_] finds the file identifier in a text: a
    result is a part of the text made of at least 25 letters, digits,
    underscores and hyphens, and ends where such characters end; a value
    that counts as false and a text of fewer than 25 characters give no
    identifier; and an identifier that stands in a text (a shared link,
    say) between characters outside that class is returned as it is, when
    nothing before it is long enough to be taken for one. *)
Theorem toId_finds_identifier :
  (∀ val m, toId val = Some m →
     ∃ v pre post, val = Some v ∧ String_ v = pre +:+ m +:+ post
                   ∧ allIdChars m = true ∧ 25 ≤ String.length m
                   ∧ startsOutsideId post = true)
  ∧ (∀ val, truthy_opt val = false → toId val = None)
  ∧ (∀ v, String.length (String_ v) < 25 → toId (Some v) = None)
  ∧ (∀ pre id post,
       allIdChars id = true → 25 ≤ String.length id →
       matchId pre = None → endsOutsideId pre = true → startsOutsideId post = true →
       toId (Some (VStr (pre +:+ id +:+ post))) = Some id).
Proof.
  split; [|split; [|split]].
  - intros [v|] m Hm; [|done]. unfold toId in Hm.
    destruct (truthy v); [|done]. cbn [negb] in Hm.
    destruct (matchId_sound _ _ Hm) as (pre & post & Hs & Hrest).
    by exists v, pre, post.
  - intros [v|] Hv; [|done]. unfold toId. simpl in Hv. by rewrite Hv.
  - intros v Hlen. unfold toId. destruct (truthy v); [|done].
    by apply matchId_short.
  - intros pre id post Hall Hlen Hpre Hend Hpost. unfold toId.
    assert (truthy (VStr (pre +:+ id +:+ post)) = true) as ->.
    { simpl. apply negb_true_iff, String.eqb_neq. intros E.
      apply (f_equal String.length) in E. rewrite !string_app_length in E.
      simpl in E. lia. }
    by apply matchId_extracts.
Qed.

Lemma endsWith_spec (s suffix : string) :
  endsWith s suffix = true ↔ ∃ pre, s = pre +:+ suffix.
Proof.
  induction s as [|c s IH]; cbn [endsWith].
  - rewrite orb_false_r. split.
    + intros E. apply String.eqb_eq in E as <-. by exists "".
    + intros [pre E]. apply String.eqb_eq. destruct pre; [done|].
      by rewrite string_app_cons in E.
  - rewrite orb_true_iff, IH. split.
    + intros [E|[pre ->]].
      * apply String.eqb_eq in E as <-. by exists "".
      * exists (String c pre). by rewrite string_app_cons.
    + intros [[|d pre] E].
      * left. apply String.eqb_eq. done.
      * right. rewrite string_app_cons in E. injection E as _ ->. by exists pre.
Qed.

Lemma lowerASCII_app (a b : string) :
  lowerASCII (a +:+ b) = lowerASCII a +:+ lowerASCII b.
Proof.
  induction a as [|c a IH]; [done|].
  rewrite string_app_cons. simpl. by rewrite IH, string_app_cons.
Qed.

Lemma lowerASCII_split (s p q : string) :
  lowerASCII s = p +:+ q →
  ∃ a b, s = a +:+ b ∧ lowerASCII a = p ∧ lowerASCII b = q.
Proof.
  revert s. induction p as [|c p IH]; intros s E.
  - by exists "", s.
  - rewrite string_app_cons in E. destruct s as [|d s]; [done|].
    simpl in E. injection E as Hc E.
    destruct (IH s E) as (a & b & -> & Ha & Hb).
    exists (String d a), b. rewrite string_app_cons. simpl. by rewrite Hc, Ha.
Qed.

Lemma HasExtension_endsWith (name ext : string) :
  HasExtension name ext ↔ endsWith (lowerASCII name) ext = true.
Proof.
  rewrite endsWith_spec. split.
  - intros (base & e & -> & He). exists (lowerASCII base).
    by rewrite lowerASCII_app, He.
  - intros [pre E]. destruct (lowerASCII_split _ _ _ E) as (a & b & -> & _ & Hb).
    by exists a, b.
Qed.

Lemma string_app_inv_suffix (p1 p2 a b : string) :
  p1 +:+ a = p2 +:+ b → String.length a ≤ String.length b →
  ∃ q, b = q +:+ a.
Proof.
  revert p1. induction p2 as [|d p2 IH]; intros p1 E Hlen.
  - exists p1. by rewrite E.
  - destruct p1 as [|c p1].
    + apply (f_equal String.length) in E.
      change (String.length ("" +:+ a)) with (String.length a) in E.
      rewrite string_app_length in E. simpl in E. lia.
    + rewrite !string_app_cons in E. injection E as _ E. by apply (IH p1).
Qed.

Lemma endsWith_both (s a b : string) :
  endsWith s a = true → endsWith s b = true →
  String.length a ≤ String.length b → endsWith b a = true.
Proof.
  intros Ha Hb Hlen. apply endsWith_spec in Ha as [p1 ->].
  apply endsWith_spec in Hb as [p2 E].
  apply endsWith_spec. by apply (string_app_inv_suffix p1 p2).
Qed.

Lemma lowerASCII_toUpperCase (s : string) :
  lowerASCII (toUpperCase s) = lowerASCII s.
Proof.
  induction s as [|c s IH]; [done|]. simpl. by rewrite lower_upper_char, IH.
Qed.

(** X10. [mimeFor] of [getFontData_] goes by the extension of the file
    name, whatever the case of its letters: [.woff2], [.woff], [.otf] and
    [.ttf] give their font type, and every other name gives
    [application/octet-stream]. *)
Theorem mimeFor_by_extension (name : value) :
  let n := String_ name in
  (mimeFor name = "font/woff2" ↔ HasExtension n ".woff2")
  ∧ (mimeFor name = "font/woff" ↔ HasExtension n ".woff")
  ∧ (mimeFor name = "font/otf" ↔ HasExtension n ".otf")
  ∧ (mimeFor name = "font/ttf" ↔ HasExtension n ".ttf")
  ∧ (mimeFor name = "application/octet-stream"
     ↔ ¬ (HasExtension n ".woff2" ∨ HasExtension n ".woff"
          ∨ HasExtension n ".otf" ∨ HasExtension n ".ttf"))
  ∧ mimeFor (VStr (toUpperCase n)) = mimeFor name.
Proof.
  intros n. rewrite !HasExtension_endsWith. unfold mimeFor.
  cbn [String_]. rewrite lowerASCII_toUpperCase. fold n.
  set (l := lowerASCII n).
  assert (∀ a b, String.length a ≤ String.length b → endsWith b a = false →
            endsWith l a = true → endsWith l b = true → False) as Hexcl.
  { intros a b Hlen Hno Ha Hb.
    pose proof (endsWith_both l a b Ha Hb Hlen). congruence. }
  pose proof (Hexcl ".woff" ".woff2" ltac:(simpl; lia) eq_refl) as H12.
  pose proof (Hexcl ".otf" ".woff2" ltac:(simpl; lia) eq_refl) as H13.
  pose proof (Hexcl ".ttf" ".woff2" ltac:(simpl; lia) eq_refl) as H14.
  pose proof (Hexcl ".otf" ".woff" ltac:(simpl; lia) eq_refl) as H23.
  pose proof (Hexcl ".ttf" ".woff" ltac:(simpl; lia) eq_refl) as H24.
  pose proof (Hexcl ".otf" ".ttf" ltac:(simpl; lia) eq_refl) as H34.
  clear Hexcl.
  destruct (endsWith l ".woff2"), (endsWith l ".woff"), (endsWith l ".otf"),
    (endsWith l ".ttf");
    try (exfalso; auto; fail);
    (repeat split; try done; try (intros; exfalso; auto; fail); try tauto;
     try (intros [?|[?|[?|?]]]; done)).
Qed.

Lemma fontEntry_outcome (a : Assets) (out : gmap string string) (kv : string * value) :
  fontEntry a out kv
  = match toId (Some kv.2) with
    | None => Ok out
    | Some id =>
        match a_file a id with
        | Some f => Ok (<[kv.1 := dataUrlOf (mimeFor (VStr (f_name f)))
                                    (a_base64Encode a (f_bytes f))]> out)
        | None => Throw "No item with the given ID could be found."
        end
    end.
Proof.
  unfold fontEntry, getFileById. destruct (toId (Some kv.2)) as [id|]; [|done].
  by destruct (a_file a id).
Qed.

Lemma fontLoop_ok (a : Assets) (ids : list (string * value)) (out : gmap string string) :
  NoDup ids.*1 →
  (∀ key val id, (key, val) ∈ ids → toId (Some val) = Some id → is_Some (a_file a id)) →
  ∃ out', fontLoop a ids out = Ok out'
    ∧ (∀ key, key ∉ ids.*1 → out' !! key = out !! key)
    ∧ (∀ key val, (key, val) ∈ ids → toId (Some val) = None → out' !! key = out !! key)
    ∧ (∀ key val id f, (key, val) ∈ ids → toId (Some val) = Some id →
         a_file a id = Some f →
         out' !! key = Some (dataUrlOf (mimeFor (VStr (f_name f)))
                               (a_base64Encode a (f_bytes f)))).
Proof.
  revert out. induction ids as [|[k v] ids IH]; intros out Hnd Hfiles.
  { exists out. split; [done|]. split; [done|].
    split; intros; by match goal with H : _ ∈ [] |- _ => apply elem_of_nil in H end. }
  rewrite fmap_cons in Hnd. apply NoDup_cons in Hnd as [Hk Hnd]. cbn [fst] in Hk.
  assert (∀ key val, (key, val) ∈ ids → key ≠ k) as Hrest.
  { intros key val Hin ->. apply Hk. apply list_elem_of_fmap. by exists (k, val). }
  cbn [fontLoop]. rewrite fontEntry_outcome. cbn [fst snd].
  destruct (toId (Some v)) as [id|] eqn:Hid.
  - destruct (Hfiles k v id ltac:(left) Hid) as [f Hf]. rewrite Hf.
    destruct (IH (<[k := dataUrlOf (mimeFor (VStr (f_name f)))
                          (a_base64Encode a (f_bytes f))]> out) Hnd)
      as (out' & Hrun & Hout & Hskip & Hfont).
    { intros key val id' Hin. apply (Hfiles key val id'). by right. }
    exists out'. split; [done|]. split; [|split].
    + intros key Hkey. rewrite fmap_cons in Hkey.
      apply not_elem_of_cons in Hkey as [Hne Hkey]. cbn [fst] in Hne.
      by rewrite Hout, lookup_insert_ne.
    + intros key val Hin Hnone. apply elem_of_cons in Hin as [[= -> ->]|Hin].
      * congruence.
      * rewrite (Hskip key val Hin Hnone), lookup_insert_ne; [done|].
        by intros <-; apply (Hrest _ _ Hin).
    + intros key val id' f' Hin Hid' Hf'. apply elem_of_cons in Hin as [[= -> ->]|Hin].
      * rewrite Hout by done. rewrite lookup_insert_eq. congruence.
      * by apply (Hfont key val id' f').
  - destruct (IH out Hnd) as (out' & Hrun & Hout & Hskip & Hfont).
    { intros key val id' Hin. apply (Hfiles key val id'). by right. }
    exists out'. split; [done|]. split; [|split].
    + intros key Hkey. rewrite fmap_cons in Hkey.
      apply not_elem_of_cons in Hkey as [_ Hkey]. by apply Hout.
    + intros key val Hin Hnone. apply elem_of_cons in Hin as [[= -> ->]|Hin].
      * by apply Hout.
      * by apply (Hskip key val).
    + intros key val id' f' Hin Hid' Hf'. apply elem_of_cons in Hin as [[= -> ->]|Hin].
      * congruence.
      * by apply (Hfont key val id' f').
Qed.

Lemma fontLoop_throws (a : Assets) (ids : list (string * value))
    (out : gmap string string) (key : string) (val : value) (id : string) :
  (key, val) ∈ ids → toId (Some val) = Some id → a_file a id = None →
  ∃ msg, fontLoop a ids out = Throw msg.
Proof.
  revert out. induction ids as [|kv ids IH]; intros out Hin Hid Hf.
  { by apply elem_of_nil in Hin. }
  cbn [fontLoop]. rewrite fontEntry_outcome.
  apply elem_of_cons in Hin as [<-|Hin].
  - cbn [snd]. rewrite Hid, Hf. eauto.
  - destruct (toId (Some kv.2)) as [id'|]; [|by apply IH].
    destruct (a_file a id'); [by apply IH | eauto].
Qed.

(** X11. The fonts of the page.  With the table of identifiers as it
    stands in the script, every entry of which is empty, [getFontData_]
    reads no file and returns the empty object, whatever the file store
    holds.  For a table in general, whose names are distinct: when the
    file of every entry that holds an identifier can be read, the object
    returned has the link [data:<type>;base64,<content>] for each such
    entry and nothing for an entry without an identifier; and when the
    file of one entry cannot be read, the call throws and no font at all
    is returned. *)
Theorem getFontData_entries (a : Assets) :
  getFontData_ a = Ok ∅
  ∧ (∀ ids out, NoDup ids.*1 →
       (∀ key val id, (key, val) ∈ ids → toId (Some val) = Some id →
          is_Some (a_file a id)) →
       ∃ out', fontLoop a ids out = Ok out'
         ∧ (∀ key, key ∉ ids.*1 → out' !! key = out !! key)
         ∧ (∀ key val, (key, val) ∈ ids → toId (Some val) = None →
              out' !! key = out !! key)
         ∧ (∀ key val id f, (key, val) ∈ ids → toId (Some val) = Some id →
              a_file a id = Some f →
              out' !! key = Some (dataUrlOf (mimeFor (VStr (f_name f)))
                                    (a_base64Encode a (f_bytes f)))))
  ∧ (∀ ids out key val id,
       (key, val) ∈ ids → toId (Some val) = Some id → a_file a id = None →
       ∃ msg, fontLoop a ids out = Throw msg).
Proof.
  split; [done|]. split.
  - intros ids out. apply fontLoop_ok.
  - intros ids out key val id. apply fontLoop_throws.
Qed.

(** X12. [getLogoDataUrl_] never throws.  When the logo file is read, it
    returns the link [data:<type>;base64,<content>] and changes nothing;
    when it cannot be read, it returns the empty text and writes one line
    to the console.  The spreadsheet, the script properties and the files
    are the same after the call in both cases. *)
Theorem getLogoDataUrl_never_throws (a : Assets) (w : World) :
  ∃ s w', getLogoDataUrl_ a w = (Ok s, w')
    ∧ match a_file a LOGO_FILE_ID with
      | Some f =>
          s = dataUrlOf (f_contentType f) (a_base64Encode a (f_bytes f)) ∧ w' = w
      | None =>
          s = "" ∧ ∃ msg, w' = console_error "getLogoDataUrl_ failed" msg w
      end
    ∧ w_ss w' = w_ss w ∧ w_props w' = w_props w ∧ w_files w' = w_files w.
Proof.
  unfold getLogoDataUrl_, getLogoBody, getFileById. cbn [truthy negb].
  change (String.eqb LOGO_FILE_ID "") with false. cbn [negb].
  destruct (a_file a LOGO_FILE_ID) as [f|].
  - eexists _, _. split; [done|]. by repeat split.
  - eexists _, _. split; [done|]. repeat split; eauto.
Qed.

(** ** Client folders *)

Lemma ensureClientFolder_run (rootId : string) (client : option value)
    (d : Drive) (w : World) :
  ensureClientFolder_ rootId client d w
  = if env_folderOk (w_env w) rootId then
      match clientFolderName client with
      | Some name =>
          match getFoldersByName rootId name d with
          | f :: _ => (Ok (f, d), w)
          | [] =>
              match dr_newId d (length (dr_folders d)) with
              | Some id =>
                  let f := {| d_parent := rootId; d_name := name; d_id := id |} in
                  (Ok (f, {| dr_folders := dr_folders d ++ [f];
                             dr_newId := dr_newId d |}), w)
              | None => (Throw "Service error: Drive", w)
              end
          end
      | None => (Throw "TypeError: trim is not a function", w)
      end
    else (Throw "No item with the given ID could be found.", w).
Proof.
  unfold ensureClientFolder_, bind, getFolderById, clientFolderName, createFolder.
  destruct (env_folderOk (w_env w) rootId); [|done].
  destruct (or_else client (VStr "Unnamed Client")) as [s| |]; try done.
  destruct (getFoldersByName rootId (trim s) d); [|done].
  by destruct (dr_newId d (length (dr_folders d))).
Qed.

Lemma ensureClientFolder_head (rootId : string) (client : option value)
    (d d' : Drive) (w w' : World) (f : DriveFolder) :
  ensureClientFolder_ rootId client d w = (Ok (f, d'), w') →
  w' = w ∧ env_folderOk (w_env w) rootId = true
  ∧ ∃ name fs,
      clientFolderName client = Some name
      ∧ getFoldersByName rootId name d' = f :: fs
      ∧ (getFoldersByName rootId name d = f :: fs ∧ d' = d
         ∨ getFoldersByName rootId name d = [] ∧ fs = []
           ∧ f = {| d_parent := rootId; d_name := name; d_id := d_id f |}
           ∧ dr_folders d' = dr_folders d ++ [f]).
Proof.
  intros Hrun. rewrite ensureClientFolder_run in Hrun.
  destruct (env_folderOk (w_env w) rootId) eqn:Hroot; [|done].
  destruct (clientFolderName client) as [name|]; [|done].
  destruct (getFoldersByName rootId name d) as [|f0 fs] eqn:Hfind.
  - destruct (dr_newId d (length (dr_folders d))) as [id|]; [|done].
    injection Hrun as <- <- <-. split; [done|]. split; [done|].
    exists name, []. split; [done|]. split; [|right; by repeat split].
    unfold getFoldersByName in Hfind |- *. cbn [dr_folders].
    rewrite filter_app, Hfind. cbn [app].
    by rewrite filter_cons, decide_True by done.
  - injection Hrun as <- <- <-. split; [done|]. split; [done|].
    exists name, fs. split; [done|]. split; [done|]. by left.
Qed.

Lemma ensureClientFolder_again (rootId : string) (client client2 : option value)
    (d d' : Drive) (w w' w2 : World) (f : DriveFolder) :
  ensureClientFolder_ rootId client d w = (Ok (f, d'), w') →
  clientFolderName client2 = clientFolderName client →
  w_env w2 = w_env w →
  ensureClientFolder_ rootId client2 d' w2 = (Ok (f, d'), w2).
Proof.
  intros Hrun Hname Henv.
  destruct (ensureClientFolder_head _ _ _ _ _ _ _ Hrun)
    as (_ & Hroot & name & fs & Hn & Hfind & _).
  by rewrite ensureClientFolder_run, Henv, Hroot, Hname, Hn, Hfind.
Qed.

(** X13. [ensureClientFolder_] makes one folder per client name.  A call
    that succeeds returns a folder of the root folder whose name is the
    client name without the white space around it; it returns the first
    folder of that name when there is one and leaves the folders as they
    are, and otherwise creates that one folder.  A second call for a client
    with the same name up to that white space returns the same folder and
    creates nothing.  The call changes nothing else. *)
Theorem ensureClientFolder_one_folder_per_name (rootId : string)
    (client client2 : option value) (d d' : Drive) (w w' : World) (f : DriveFolder) :
  ensureClientFolder_ rootId client d w = (Ok (f, d'), w') →
  clientFolderName client2 = clientFolderName client →
  w' = w
  ∧ d_parent f = rootId ∧ clientFolderName client = Some (d_name f)
  ∧ (match getFoldersByName rootId (d_name f) d with
     | f0 :: _ => f = f0 ∧ d' = d
     | [] => dr_folders d' = dr_folders d ++ [f]
     end)
  ∧ ensureClientFolder_ rootId client2 d' w' = (Ok (f, d'), w').
Proof.
  intros Hrun Hname.
  destruct (ensureClientFolder_head _ _ _ _ _ _ _ Hrun)
    as (-> & Hroot & name & fs & Hn & Hfind & Hcases).
  assert (d_parent f = rootId ∧ d_name f = name) as [Hp Hf].
  { assert (f ∈ getFoldersByName rootId name d') as Hin by (rewrite Hfind; left).
    by apply list_elem_of_filter in Hin as [? _]. }
  split; [done|]. split; [done|]. split; [by rewrite Hn, Hf|]. split.
  - rewrite Hf. destruct Hcases as [[-> ->]|(-> & _ & _ & Hd)]; done.
  - by apply (ensureClientFolder_again rootId client client2 d d' w w).
Qed.

(** ** Creating a batch *)

Lemma append_after_ensure (name key : string) (obj : gmap string value)
    (ss : Spreadsheet) :
  key ∈ HEADERS name →
  ∃ r, nextFreeRowByHeader_ (ensureSheet_ name (HEADERS name) ss).2 key = Ok r
       ∧ appendRowAtKey_ name key obj (ensureSheet_ name (HEADERS name) ss).1
         = Ok (<[name := writeKeys (getHeaders_ (ensureSheet_ name (HEADERS name) ss).2)
                           r (map_to_list obj) (ensureSheet_ name (HEADERS name) ss).2]>
                 (ensureSheet_ name (HEADERS name) ss).1).
Proof.
  intros Hkey. apply appendRowAtKey_Ok; [apply ensureSheet_lookup|].
  apply ensureSheet_has_columns; [done|]. by apply (HEADERS_nonempty_names name).
Qed.

Lemma HEADERS_BATCHES_BatchID : "BatchID" ∈ HEADERS SH_BATCHES.
Proof. by_compute. Qed.

(** The state and the folders that [newBatch] leaves once the client
    folder [folder] is there. *)
Lemma newBatch_run (client assessorName : value) (d : Drive) (w : World) :
  truthy client = true → truthy assessorName = true →
  let batchId := "BATCH-" +:+ env_formatDate (w_env w) (w_tick w) "yyyyMMdd-HHmmss-SSS" in
  let startDate := env_formatDate (w_env w) (w_tick w) "yyyy-MM-dd" in
  let obj := batchRecord batchId client startDate assessorName in
  let sh1 := (ensureSheet_ SH_BATCHES (HEADERS SH_BATCHES) (w_ss w)).2 in
  let ss1 := (ensureSheet_ SH_BATCHES (HEADERS SH_BATCHES) (w_ss w)).1 in
  match ensureClientFolder_ PHOTOS_ROOT_ID (Some client) d (tick w) with
  | (Throw msg, w1) =>
      newBatch (Some client) (Some assessorName) d w = (Throw msg, (tick w, d))
  | (Ok (folder, d'), w1) =>
      ∃ r, nextFreeRowByHeader_ sh1 "BatchID" = Ok r
        ∧ newBatch (Some client) (Some assessorName) d w
          = (Ok (batchId, d_id folder),
             (set_ss (<[SH_BATCHES := writeKeys (getHeaders_ sh1) r (map_to_list obj) sh1]> ss1)
                (setProperty ("PHOTOS_" +:+ batchId) (d_id folder)
                   (setProperty ("CLIENT_" +:+ batchId) (String_ client) (tick w))),
              d'))
  end.
Proof.
  intros Hc Ha batchId startDate obj sh1 ss1.
  unfold newBatch. rewrite Hc, Ha. cbn [negb].
  rewrite ensureClientFolder_run. cbn [w_env tick].
  destruct (env_folderOk (w_env w) PHOTOS_ROOT_ID); [|done].
  destruct (clientFolderName (Some client)) as [name|]; [|done].
  destruct (append_after_ensure SH_BATCHES "BatchID" obj (w_ss w)
              HEADERS_BATCHES_BatchID) as (r & Hr & Happ).
  fold sh1 ss1 in Hr, Happ.
  destruct (getFoldersByName PHOTOS_ROOT_ID name d) as [|f0 fs].
  - destruct (dr_newId d (length (dr_folders d))) as [id|]; [|done].
    exists r. split; [done|].
    match goal with
    | |- context [appendRowAtKey_ SH_BATCHES "BatchID" ?o ?s] =>
        change (appendRowAtKey_ SH_BATCHES "BatchID" o s)
          with (appendRowAtKey_ SH_BATCHES "BatchID" obj ss1)
    end.
    by rewrite Happ.
  - exists r. split; [done|].
    match goal with
    | |- context [appendRowAtKey_ SH_BATCHES "BatchID" ?o ?s] =>
        change (appendRowAtKey_ SH_BATCHES "BatchID" o s)
          with (appendRowAtKey_ SH_BATCHES "BatchID" obj ss1)
    end.
    by rewrite Happ.
Qed.

Lemma truthy_VStr_app (c : ascii) (p s : string) :
  truthy (VStr (String c p +:+ s)) = true.
Proof. by rewrite string_app_cons. Qed.


Lemma batchRecord_names (batchId : string) (client : value) (startDate : string)
    (assessorName : value) (field : string) (v : value) :
  batchRecord batchId client startDate assessorName !! field = Some v → field ≠ "".
Proof. intros E ->. done. Qed.

(** X15. What a successful [newBatch] records.  For a client given as a
    text, an assessor, a root folder that is found and a client folder
    that exists or can be created, [newBatch] returns the identifier
    [BATCH-<time>] and the identifier of the client folder, which is a
    folder of the root folder named after the client; it records the
    client and the folder under the properties [CLIENT_<batch>] and
    [PHOTOS_<batch>] and changes no other property; and it writes the
    record of the batch, with the status [Open], in the next free row of
    the Batches sheet, after which the next free row is the row below.
    Other sheets, the files and the console are not touched. *)
Theorem newBatch_records_batch (c : string) (assessorName : value) (d : Drive)
    (w : World) :
  c ≠ "" → truthy assessorName = true →
  env_folderOk (w_env w) PHOTOS_ROOT_ID = true →
  (getFoldersByName PHOTOS_ROOT_ID (trim c) d ≠ []
   ∨ is_Some (dr_newId d (length (dr_folders d)))) →
  let batchId := "BATCH-" +:+ env_formatDate (w_env w) (w_tick w) "yyyyMMdd-HHmmss-SSS" in
  let startDate := env_formatDate (w_env w) (w_tick w) "yyyy-MM-dd" in
  ∃ folder d' w' sh r,
    newBatch (Some (VStr c)) (Some assessorName) d w
    = (Ok (batchId, d_id folder), (w', d'))
    ∧ d_parent folder = PHOTOS_ROOT_ID ∧ d_name folder = trim c
    ∧ folder ∈ dr_folders d'
    ∧ w_props w' !! ("CLIENT_" +:+ batchId) = Some c
    ∧ w_props w' !! ("PHOTOS_" +:+ batchId) = Some (d_id folder)
    ∧ (∀ key, key ≠ "CLIENT_" +:+ batchId → key ≠ "PHOTOS_" +:+ batchId →
         w_props w' !! key = w_props w !! key)
    ∧ w_ss w' !! SH_BATCHES = Some sh
    ∧ nextFreeRowByHeader_ (ensureSheet_ SH_BATCHES (HEADERS SH_BATCHES) (w_ss w)).2
        "BatchID" = Ok r
    ∧ (∀ field v col,
         batchRecord batchId (VStr c) startDate assessorName !! field = Some v →
         position (getHeaders_ sh) field = Some col → cellAt sh r col = stored v)
    ∧ nextFreeRowByHeader_ sh "BatchID" = Ok (r + 1)
    ∧ (∀ n, n ≠ SH_BATCHES → w_ss w' !! n = w_ss w !! n)
    ∧ w_files w' = w_files w ∧ w_log w' = w_log w.
Proof.
  intros Hc Ha Hroot Hfolder batchId startDate.
  assert (truthy (VStr c) = true) as Hct
    by (simpl; by apply negb_true_iff, String.eqb_neq).
  pose proof (newBatch_run (VStr c) assessorName d w Hct Ha) as Hrun.
  cbn zeta in Hrun. fold batchId startDate in Hrun.
  rewrite ensureClientFolder_run in Hrun.
  change (w_env (tick w)) with (w_env w) in Hrun. rewrite Hroot in Hrun.
  assert (clientFolderName (Some (VStr c)) = Some (trim c)) as Hname
    by (unfold clientFolderName, or_else; by rewrite Hct).
  rewrite Hname in Hrun.
  set (sh1 := (ensureSheet_ SH_BATCHES (HEADERS SH_BATCHES) (w_ss w)).2) in *.
  set (ss1 := (ensureSheet_ SH_BATCHES (HEADERS SH_BATCHES) (w_ss w)).1) in *.
  set (obj := batchRecord batchId (VStr c) startDate assessorName) in *.
  assert (∃ folder d',
            d_parent folder = PHOTOS_ROOT_ID ∧ d_name folder = trim c
            ∧ folder ∈ dr_folders d'
            ∧ ∃ r, nextFreeRowByHeader_ sh1 "BatchID" = Ok r
                ∧ newBatch (Some (VStr c)) (Some assessorName) d w
                  = (Ok (batchId, d_id folder),
                     (set_ss (<[SH_BATCHES := writeKeys (getHeaders_ sh1) r
                                                (map_to_list obj) sh1]> ss1)
                        (setProperty ("PHOTOS_" +:+ batchId) (d_id folder)
                           (setProperty ("CLIENT_" +:+ batchId) c (tick w))),
                      d')))
    as (folder & d' & Hparent & Hfname & Hin & r & Hr & Hnew).
  { destruct (getFoldersByName PHOTOS_ROOT_ID (trim c) d) as [|f0 fs] eqn:Hfind.
    - destruct Hfolder as [?|[id Hid]]; [done|]. rewrite Hid in Hrun.
      eexists _, _. split; [|split; [|split; [|exact Hrun]]]; [done | done |].
      cbn [dr_folders]. apply elem_of_app. right. left.
    - assert (f0 ∈ getFoldersByName PHOTOS_ROOT_ID (trim c) d) as Hf0
        by (rewrite Hfind; left).
      apply list_elem_of_filter in Hf0 as [[Hp Hn] Hf0].
      exists f0, d. by repeat split. }
  clear Hrun.
  eexists folder, d', _, (writeKeys (getHeaders_ sh1) r (map_to_list obj) sh1), r.
  split; [exact Hnew|].
  assert ("PHOTOS_" +:+ batchId ≠ "CLIENT_" +:+ batchId) as Hkeys
    by (rewrite !string_app_cons; congruence).
  split; [done|]. split; [done|]. split; [done|].
  cbn [w_props w_ss w_files w_log set_ss setProperty tick].
  split; [by rewrite lookup_insert_ne, lookup_insert_eq|].
  split; [by rewrite lookup_insert_eq|].
  split; [intros key H1 H2; by rewrite !lookup_insert_ne|].
  split; [by rewrite lookup_insert_eq|].
  split; [done|].
  assert (2 ≤ r) as Hge by (by apply (nextFreeRow_ge_2 sh1 "BatchID")).
  split.
  { intros field v col Hv Hpos.
    rewrite (writeKeys_obj_cell _ r obj sh1 field col), Hv; [done | lia |].
    apply (position_preserved _ sh1 field col) in Hpos; [done | |].
    - intros c0. symmetry. by apply writeKeys_row1.
    - by apply (batchRecord_names _ _ _ _ _ _ Hv). }
  split.
  { rewrite (writeKeys_next_free sh1 "BatchID" obj r) by done.
    assert (obj !! "BatchID" = Some (VStr batchId)) as -> by done.
    rewrite decide_False; [done|]. by intros [= E]. }
  split; [|done].
  intros n Hn. rewrite lookup_insert_ne by done. by apply ensureSheet_other.
Qed.

(** X16. A second batch for the same client reuses the client folder:
    after a [newBatch] that succeeded, a [newBatch] for a client with the
    same name up to the white space around it returns the identifier of
    the same folder and creates no folder. *)
Theorem newBatch_reuses_client_folder (c c2 : string) (a a2 : value)
    (d d1 : Drive) (w w1 : World) (batchId folderId : string) :
  newBatch (Some (VStr c)) (Some a) d w = (Ok (batchId, folderId), (w1, d1)) →
  c2 ≠ "" → trim c2 = trim c → truthy a2 = true →
  ∃ batchId2 w2,
    newBatch (Some (VStr c2)) (Some a2) d1 w1 = (Ok (batchId2, folderId), (w2, d1)).
Proof.
  intros Hfirst Hc2 Htrim Ha2.
  destruct (truthy (VStr c)) eqn:Hc;
    [|by unfold newBatch in Hfirst; rewrite Hc in Hfirst; destruct (truthy a)].
  destruct (truthy a) eqn:Ha;
    [|by unfold newBatch in Hfirst; rewrite Hc, Ha in Hfirst].
  pose proof (newBatch_run (VStr c) a d w Hc Ha) as Hrun. cbn zeta in Hrun.
  destruct (ensureClientFolder_ PHOTOS_ROOT_ID (Some (VStr c)) d (tick w))
    as [[[folder d']|msg] w0] eqn:Hfolder; [|congruence].
  destruct Hrun as (r & _ & Hrun). rewrite Hrun in Hfirst.
  injection Hfirst as _ <- Hw <-.
  assert (w_env w1 = w_env w) as Henv by (by rewrite <- Hw).
  assert (truthy (VStr c2) = true) as Hc2t
    by (simpl; by apply negb_true_iff, String.eqb_neq).
  pose proof (newBatch_run (VStr c2) a2 d' w1 Hc2t Ha2) as Hrun2. cbn zeta in Hrun2.
  rewrite (ensureClientFolder_again PHOTOS_ROOT_ID (Some (VStr c)) (Some (VStr c2))
             d d' (tick w) w0 (tick w1) folder) in Hrun2; [| done | | done].
  - destruct Hrun2 as (r2 & _ & Hrun2). eauto.
  - unfold clientFolderName, or_else. rewrite Hc, Hc2t. by rewrite Htrim.
Qed.

(** X17. [newBatch] is what makes [savePhotosDataUrls] work for a batch:
    with the batch identifier that a successful [newBatch] returned, an
    item identifier and a list of photos that is not empty,
    [savePhotosDataUrls] returns a count between 0 and the number of
    photos, as long as the file store finds the client folder; while in a
    state that holds no photo folder for the identifier it throws. *)
Theorem newBatch_enables_photos (c : string) (a : value) (d d1 : Drive)
    (w w1 : World) (batchId folderId : string) (itemId : value)
    (photos : list (option Photo)) :
  newBatch (Some (VStr c)) (Some a) d w = (Ok (batchId, folderId), (w1, d1)) →
  truthy itemId = true → photos ≠ [] →
  folderId ≠ "" → env_folderOk (w_env w) folderId = true →
  (∃ n, (savePhotosDataUrls (Some (VStr batchId)) (Some itemId) photos w1).1 = Ok n
        ∧ n ≤ length photos)
  ∧ (w_props w !! photosKey (VStr batchId) = None →
     (savePhotosDataUrls (Some (VStr batchId)) (Some itemId) photos w).1
     = Throw "Photo folder not configured for this batch.").
Proof.
  intros Hfirst Hitem Hphotos Hfid Hok.
  destruct (truthy (VStr c)) eqn:Hc;
    [|by unfold newBatch in Hfirst; rewrite Hc in Hfirst; destruct (truthy a)].
  destruct (truthy a) eqn:Ha;
    [|by unfold newBatch in Hfirst; rewrite Hc, Ha in Hfirst].
  pose proof (newBatch_run (VStr c) a d w Hc Ha) as Hrun. cbn zeta in Hrun.
  destruct (ensureClientFolder_ PHOTOS_ROOT_ID (Some (VStr c)) d (tick w))
    as [[[folder d']|msg] w0] eqn:Hfolder; [|congruence].
  destruct Hrun as (r & _ & Hrun). rewrite Hrun in Hfirst.
  injection Hfirst as <- <- <- <-.
  assert (truthy (VStr ("BATCH-" +:+ env_formatDate (w_env w) (w_tick w)
                                       "yyyyMMdd-HHmmss-SSS")) = true) as Hb
    by apply truthy_VStr_app.
  split.
  - rewrite savePhotos_run by done. cbn zeta.
    unfold photosKey. cbn [String_ w_props set_ss setProperty w_env tick].
    rewrite lookup_insert_eq.
    assert (String.eqb (d_id folder) "" = false) as -> by (by apply String.eqb_neq).
    rewrite Hok. cbn [fst]. eexists. split; [done|].
    apply (photosLoop_bounds itemId _ _ photos 0 0).
  - intros Hnone. rewrite savePhotos_run by done. cbn zeta. by rewrite Hnone.
Qed.

(** ** Saving an item: the rows written *)

Lemma selectionRecord_names (selectionId itemId : string) (itemType : option value)
    (s : Selection) (field : string) (v : value) :
  selectionRecord selectionId itemId itemType s !! field = Some v → field ≠ "".
Proof.
  intros E ->.
  assert (selectionRecord selectionId itemId itemType s !! "" = None) as Hnone
    by reflexivity.
  congruence.
Qed.

Lemma selectionRecord_key (selectionId itemId : string) (itemType : option value)
    (s : Selection) :
  selectionRecord selectionId itemId itemType s !! "SelectionID"
  = Some (VStr selectionId).
Proof. done. Qed.

Lemma saveSelections_rows (itemId : string) (itemType : option value)
    (sels : list Selection) (w : World) (shS : Sheet) (rS : nat) :
  w_ss w !! SH_SELECT = Some shS →
  nextFreeRowByHeader_ shS "SelectionID" = Ok rS →
  ∃ w' shS',
    saveSelections itemId itemType sels w = (Ok tt, w')
    ∧ (∀ n, n ≠ SH_SELECT → w_ss w' !! n = w_ss w !! n)
    ∧ w_ss w' !! SH_SELECT = Some shS'
    ∧ nextFreeRowByHeader_ shS' "SelectionID" = Ok (rS + length sels)
    ∧ (∀ r c, r < rS → cellAt shS' r c = cellAt shS r c)
    ∧ (∀ i s field v c,
         sels !! i = Some s →
         selectionRecord ("SEL-" +:+ slice8 (env_uuid (w_env w) (w_tick w + i)))
           itemId itemType s !! field = Some v →
         position (getHeaders_ shS) field = Some c →
         cellAt shS' (rS + i) c = stored v)
    ∧ w_env w' = w_env w ∧ w_tick w' = w_tick w + length sels
    ∧ w_props w' = w_props w ∧ w_files w' = w_files w ∧ w_log w' = w_log w.
Proof.
  revert w shS rS. induction sels as [|s sels IH]; intros w shS rS Hsh Hr.
  - exists w, shS. cbn [length]. rewrite !Nat.add_0_r.
    split; [done|]. split; [done|]. split; [done|]. split; [done|].
    split; [done|]. split; [|done]. intros i s field v c Hi. done.
  - cbn [saveSelections]. unfold bind at 1, getUuid.
    unfold bind at 1, appendRowAtKeyM. cbn [w_ss tick].
    set (rec := selectionRecord ("SEL-" +:+ slice8 (env_uuid (w_env w) (w_tick w)))
                  itemId itemType s).
    assert (appendRowAtKey_ SH_SELECT "SelectionID" rec (w_ss w)
            = Ok (<[SH_SELECT := writeKeys (getHeaders_ shS) rS (map_to_list rec) shS]>
                    (w_ss w))) as Happ
      by (unfold appendRowAtKey_; by rewrite Hsh, Hr).
    rewrite Happ. pose proof (nextFreeRow_ge_2 _ _ _ Hr) as Hge.
    set (sh1 := writeKeys (getHeaders_ shS) rS (map_to_list rec) shS).
    assert (nextFreeRowByHeader_ sh1 "SelectionID" = Ok (rS + 1)) as Hr1.
    { unfold sh1. rewrite (writeKeys_next_free shS "SelectionID" rec rS) by done.
      unfold rec. rewrite selectionRecord_key, decide_False; [done|].
      by intros [= E]. }
    destruct (IH (set_ss (<[SH_SELECT := sh1]> (w_ss w)) (tick w)) sh1 (rS + 1))
      as (w' & shS' & Hrun & Hother & Hsh' & Hnext & Hbefore & Hrows
          & Henv & Htick & Hprops & Hfiles & Hlog);
      [by cbn [w_ss set_ss]; rewrite lookup_insert_eq | done |].
    exists w', shS'. split; [done|]. split; [|split; [done|]].
    { intros n Hn. rewrite Hother by done. cbn [w_ss set_ss].
      by rewrite lookup_insert_ne. }
    split; [rewrite Hnext; cbn [length]; f_equal; lia|].
    split.
    { intros r c Hlt. rewrite Hbefore by lia.
      apply writeKeys_frame; [lia | left; lia]. }
    split.
    { intros i s' field v c Hi Hv Hpos. destruct i as [|i].
      - injection Hi as <-. rewrite Nat.add_0_r in *.
        rewrite Hbefore by lia. unfold sh1.
        rewrite (writeKeys_obj_cell _ rS rec shS field c) by (lia || done).
        fold rec in Hv. by rewrite Hv.
      - cbn [lookup list_lookup] in Hi.
        replace (rS + S i) with (rS + 1 + i) by lia.
        apply (Hrows i s' field v c Hi).
        + cbn [w_env w_tick set_ss tick].
          by replace (S (w_tick w) + i) with (w_tick w + S i) by lia.
        + apply (position_preserved shS sh1); [|by apply (selectionRecord_names _ _ _ _ _ _ Hv)|done].
          intros c0. by apply writeKeys_row1. }
    rewrite Henv, Htick, Hprops, Hfiles, Hlog.
    cbn [w_env w_tick w_props w_files w_log set_ss tick length].
    split; [reflexivity|]. split; [clear; lia|]. split; [|split]; reflexivity.
Qed.

Lemma itemRecord_key (payload : Payload) (b : value)
    (itemId code createdAt notes : string) :
  itemRecord payload b itemId code createdAt notes !! "ItemID" = Some (VStr itemId).
Proof. reflexivity. Qed.

Lemma HEADERS_ITEMS_ItemID : "ItemID" ∈ HEADERS SH_ITEMS.
Proof. by_compute. Qed.

Lemma HEADERS_SELECT_SelectionID : "SelectionID" ∈ HEADERS SH_SELECT.
Proof. by_compute. Qed.

(** One run of [saveItem] for a payload with a batch identifier. *)
Lemma saveItem_rows (payload : Payload) (w : World) (b : value) :
  p_batchId payload = Some b → truthy b = true →
  let ss1 := itemSheetsEnsured (w_ss w) in
  let itemId := "ITM-" +:+ slice8 (env_uuid (w_env w) (w_tick w)) in
  let code := nextCodeForBatch_ b ss1 in
  let createdAt := env_formatDate (w_env w) (S (w_tick w)) "yyyy-MM-dd HH:mm:ss" in
  let notes := getNoteFromNotesRules_
                 (Some (VStr (String_or_empty (p_historicCode payload)))) ss1 in
  ∃ w' shI shS shI' shS' rI rS,
    saveItem payload w = (Ok (itemId, code), w')
    ∧ ss1 !! SH_ITEMS = Some shI ∧ ss1 !! SH_SELECT = Some shS
    ∧ nextFreeRowByHeader_ shI "ItemID" = Ok rI
    ∧ nextFreeRowByHeader_ shS "SelectionID" = Ok rS
    ∧ w_ss w' !! SH_ITEMS = Some shI' ∧ w_ss w' !! SH_SELECT = Some shS'
    ∧ nextFreeRowByHeader_ shI' "ItemID" = Ok (rI + 1)
    ∧ nextFreeRowByHeader_ shS' "SelectionID" = Ok (rS + length (p_selections payload))
    ∧ (∀ field v c,
         itemRecord payload b itemId code createdAt notes !! field = Some v →
         position (getHeaders_ shI) field = Some c → cellAt shI' rI c = stored v)
    ∧ (∀ r c, r ≠ rI → cellAt shI' r c = cellAt shI r c)
    ∧ (∀ i s field v c,
         p_selections payload !! i = Some s →
         selectionRecord ("SEL-" +:+ slice8 (env_uuid (w_env w) (w_tick w + 2 + i)))
           itemId (p_type payload) s !! field = Some v →
         position (getHeaders_ shS) field = Some c →
         cellAt shS' (rS + i) c = stored v)
    ∧ (∀ r c, r < rS → cellAt shS' r c = cellAt shS r c)
    ∧ (∀ n, n ≠ SH_ITEMS → n ≠ SH_SELECT → w_ss w' !! n = w_ss w !! n)
    ∧ w_env w' = w_env w
    ∧ w_tick w' = w_tick w + 2 + length (p_selections payload)
    ∧ w_props w' = w_props w ∧ w_files w' = w_files w ∧ w_log w' = w_log w.
Proof.
  intros Hbatch Hb ss1 itemId code createdAt notes.
  set (ssI := (ensureSheet_ SH_ITEMS (HEADERS SH_ITEMS) (w_ss w)).1).
  set (shI := (ensureSheet_ SH_ITEMS (HEADERS SH_ITEMS) (w_ss w)).2).
  set (shS := (ensureSheet_ SH_SELECT (HEADERS SH_SELECT) ssI).2).
  assert (ss1 !! SH_SELECT = Some shS) as HshS by apply ensureSheet_lookup.
  assert (ss1 !! SH_ITEMS = Some shI) as HshI by apply itemSheetsEnsured_items.
  assert (VStr "ItemID" ∈ getHeaders_ shI) as HkeyI.
  { apply ensureSheet_has_columns; [apply HEADERS_ITEMS_ItemID | done]. }
  assert (VStr "SelectionID" ∈ getHeaders_ shS) as HkeyS.
  { apply ensureSheet_has_columns; [apply HEADERS_SELECT_SelectionID | done]. }
  destruct (nextFreeRow_Ok shI "ItemID" HkeyI) as [rI HrI].
  destruct (nextFreeRow_Ok shS "SelectionID" HkeyS) as [rS HrS].
  pose proof (nextFreeRow_ge_2 _ _ _ HrI) as HgeI.
  set (rec := itemRecord payload b itemId code createdAt notes).
  set (shI' := writeKeys (getHeaders_ shI) rI (map_to_list rec) shI).
  assert (appendRowAtKey_ SH_ITEMS "ItemID" rec ss1 = Ok (<[SH_ITEMS := shI']> ss1))
    as Happ by (unfold appendRowAtKey_; by rewrite HshI, HrI).
  set (w5 := set_ss (<[SH_ITEMS := shI']> ss1)
               (tick (tick (set_ss ss1 (set_ss ssI w))))).
  destruct (saveSelections_rows itemId (p_type payload) (p_selections payload)
              w5 shS rS)
    as (w6 & shS' & Hsel & Hother & HshS' & HnextS & HbeforeS & HrowsS
        & Henv & Htick & Hprops & Hfiles & Hlog);
    [by (cbn [w_ss w5 set_ss]; rewrite lookup_insert_ne) | done |].
  exists w6, shI, shS, shI', shS', rI, rS.
  split.
  { unfold saveItem, saveItemBody. rewrite Hbatch, Hb. cbn [negb].
    unfold bind at 1. rewrite ensureSheetM_run. fold ssI.
    unfold bind at 1. rewrite ensureSheetM_run. cbn [w_ss set_ss].
    change (ensureSheet_ SH_SELECT (HEADERS SH_SELECT) ssI).1 with ss1.
    unfold bind at 1, getUuid. cbn [w_env w_tick set_ss]. fold itemId.
    unfold bind at 1. cbn [w_ss tick set_ss]. fold code.
    unfold bind at 1, formatNow. cbn [w_env w_tick tick set_ss]. fold createdAt.
    unfold bind at 1. cbn [w_ss tick set_ss]. fold notes. fold rec.
    unfold bind at 1, appendRowAtKeyM. cbn [w_ss tick set_ss].
    rewrite Happ. fold w5.
    unfold bind, ret. rewrite Hsel. reflexivity. }
  split; [exact HshI|]. split; [exact HshS|]. split; [exact HrI|].
  split; [exact HrS|].
  split.
  { rewrite Hother by done. cbn [w_ss w5 set_ss]. by rewrite lookup_insert_eq. }
  split; [exact HshS'|].
  split.
  { unfold shI'. rewrite (writeKeys_next_free shI "ItemID" rec rI) by done.
    unfold rec. rewrite itemRecord_key, decide_False; [reflexivity|].
    by intros [= E]. }
  split; [exact HnextS|].
  split.
  { intros field v c Hv Hpos. unfold shI'.
    rewrite (writeKeys_obj_cell _ rI rec shI field c) by (lia || done).
    fold rec in Hv. by rewrite Hv. }
  split.
  { intros r c Hne. apply writeKeys_frame; [lia | by left]. }
  split.
  { intros i s field v c Hi Hv Hpos. apply (HrowsS i s field v c Hi); [|exact Hpos].
    cbn [w_env w_tick w5 set_ss tick].
    by replace (S (S (w_tick w)) + i) with (w_tick w + 2 + i) by (clear; lia). }
  split; [exact HbeforeS|].
  split.
  { intros n HnI HnS. rewrite Hother by done. cbn [w_ss w5 set_ss].
    rewrite lookup_insert_ne by done. unfold ss1, itemSheetsEnsured.
    by rewrite !ensureSheet_other. }
  rewrite Henv, Htick, Hprops, Hfiles, Hlog.
  cbn [w_env w_tick w_props w_files w_log w5 set_ss tick].
  split; [reflexivity|]. split; [clear; lia|]. split; [|split]; reflexivity.
Qed.

Lemma HEADERS_SELECT_flags :
  "NeedsReplacement" ∈ HEADERS SH_SELECT ∧ "NeedsReupholstery" ∈ HEADERS SH_SELECT.
Proof. split; by_compute. Qed.

Lemma valueAt_flag (sh : Sheet) (r c : nat) (b : bool) :
  cellAt sh r c = stored (VStr (if b then "TRUE" else "FALSE")) →
  (valueAt sh r c = VStr "TRUE" ↔ b = true)
  ∧ (valueAt sh r c = VStr "FALSE" ↔ b = false).
Proof.
  intros Hcell. unfold valueAt. rewrite Hcell. by destruct b.
Qed.

(** C8. The record written for a selection holds ["TRUE"] under
    [NeedsReplacement] exactly when the note of the selection holds
    "Replacement needed" as a substring up to case, and ["FALSE"]
    otherwise; likewise under [NeedsReupholstery] for
    "Reupholstery needed".  Written to the Selections sheet, the record
    leaves each of its fields in the cell of the column of that name, in
    the row allocated.  And [saveItem] writes this record for each
    selection of the payload: after a [saveItem] for a payload with a
    batch identifier, the row of the Selections sheet written for the
    selection holds [TRUE] in the column [NeedsReplacement] exactly when
    the note holds "Replacement needed" up to case and [FALSE] otherwise,
    and likewise in the column [NeedsReupholstery]. *)
Theorem selection_needs_flags (selectionId itemId : string) (itemType : option value)
    (s : Selection) :
  let note := String_or_empty (s_note s) in
  let row := selectionRecord selectionId itemId itemType s in
  (row !! "NeedsReplacement" = Some (VStr "TRUE")
     ↔ ContainsCI "Replacement needed" note)
  ∧ (row !! "NeedsReplacement" = Some (VStr "FALSE")
     ↔ ¬ ContainsCI "Replacement needed" note)
  ∧ (row !! "NeedsReupholstery" = Some (VStr "TRUE")
     ↔ ContainsCI "Reupholstery needed" note)
  ∧ (row !! "NeedsReupholstery" = Some (VStr "FALSE")
     ↔ ¬ ContainsCI "Reupholstery needed" note)
  ∧ (∀ ss sh field v c,
       ss !! SH_SELECT = Some sh → VStr "SelectionID" ∈ getHeaders_ sh →
       row !! field = Some v → position (getHeaders_ sh) field = Some c →
       ∃ r sh', nextFreeRowByHeader_ sh "SelectionID" = Ok r
                ∧ appendRowAtKey_ SH_SELECT "SelectionID" row ss
                  = Ok (<[SH_SELECT := sh']> ss)
                ∧ cellAt sh' r c = stored v)
  ∧ (∀ payload w b i,
       p_batchId payload = Some b → truthy b = true →
       p_selections payload !! i = Some s →
       ∃ out w' shS shS' rS cRepl cReuph,
         saveItem payload w = (Ok out, w')
         ∧ itemSheetsEnsured (w_ss w) !! SH_SELECT = Some shS
         ∧ nextFreeRowByHeader_ shS "SelectionID" = Ok rS
         ∧ w_ss w' !! SH_SELECT = Some shS'
         ∧ position (getHeaders_ shS') "NeedsReplacement" = Some cRepl
         ∧ position (getHeaders_ shS') "NeedsReupholstery" = Some cReuph
         ∧ (valueAt shS' (rS + i) cRepl = VStr "TRUE"
            ↔ ContainsCI "Replacement needed" note)
         ∧ (valueAt shS' (rS + i) cRepl = VStr "FALSE"
            ↔ ¬ ContainsCI "Replacement needed" note)
         ∧ (valueAt shS' (rS + i) cReuph = VStr "TRUE"
            ↔ ContainsCI "Reupholstery needed" note)
         ∧ (valueAt shS' (rS + i) cReuph = VStr "FALSE"
            ↔ ¬ ContainsCI "Reupholstery needed" note)).
Proof.
  intros note row.
  assert (row !! "NeedsReplacement"
          = Some (VStr (if test_ci "Replacement needed" note then "TRUE" else "FALSE")))
    as -> by done.
  assert (row !! "NeedsReupholstery"
          = Some (VStr (if test_ci "Reupholstery needed" note then "TRUE" else "FALSE")))
    as -> by done.
  rewrite <- !test_ci_spec.
  split; [|split; [|split; [|split; [|split]]]].
  - destruct (test_ci "Replacement needed" note); naive_solver.
  - destruct (test_ci "Replacement needed" note); naive_solver.
  - destruct (test_ci "Reupholstery needed" note); naive_solver.
  - destruct (test_ci "Reupholstery needed" note); naive_solver.
  - intros ss sh field v c. apply appendRowAtKey_field.
  - intros payload w b i Hbatch Hb Hi.
    destruct (saveItem_rows payload w b Hbatch Hb)
      as (w' & shI & shS & shI' & shS' & rI & rS & Hrun & _ & HshS & _ & HrS
          & _ & HshS' & _ & _ & _ & _ & Hsels & Hbefore & _).
    assert (∀ name, name ∈ HEADERS SH_SELECT →
              ∃ c, position (getHeaders_ shS) name = Some c
                   ∧ position (getHeaders_ shS') name = Some c) as Hcol.
    { intros name Hname.
      assert (VStr name ∈ getHeaders_ shS) as Hin.
      { unfold itemSheetsEnsured in HshS. rewrite ensureSheet_lookup in HshS.
        injection HshS as <-.
        apply ensureSheet_has_columns; [done|]. by apply (HEADERS_nonempty_names SH_SELECT). }
      apply indexOf_elem in Hin as [idx Hidx]. exists (idx + 1).
      pose proof (proj1 (indexOf_position _ _ _) Hidx) as Hpos. split; [done|].
      apply (position_preserved shS shS'); [| |done].
      - intros c0. apply Hbefore. pose proof (nextFreeRow_ge_2 _ _ _ HrS). lia.
      - by apply (HEADERS_nonempty_names SH_SELECT). }
    destruct (Hcol "NeedsReplacement" (proj1 HEADERS_SELECT_flags)) as (cRepl & HcRepl & HcRepl').
    destruct (Hcol "NeedsReupholstery" (proj2 HEADERS_SELECT_flags)) as (cReuph & HcReuph & HcReuph').
    pose proof (Hsels i s "NeedsReplacement" _ cRepl Hi eq_refl HcRepl) as Hc1.
    pose proof (Hsels i s "NeedsReupholstery" _ cReuph Hi eq_refl HcReuph) as Hc2.
    apply valueAt_flag in Hc1 as [H1 H2]. apply valueAt_flag in Hc2 as [H3 H4].
    fold note in H1, H2, H3, H4.
    eexists _, w', shS, shS', rS, cRepl, cReuph.
    split; [exact Hrun|]. split; [exact HshS|]. split; [exact HrS|].
    split; [exact HshS'|]. split; [exact HcRepl'|]. split; [exact HcReuph'|].
    rewrite H1, H2, H3, H4, <- !test_ci_spec.
    split; [done|]. split; [by rewrite not_true_iff_false|].
    split; [done|]. by rewrite not_true_iff_false.
Qed.

(** ** Photos *)

Lemma strip_prefix_spec (p s r : string) :
  strip_prefix p s = Some r ↔ s = p +:+ r.
Proof.
  revert s. induction p as [|a p IH]; intros s.
  - change ("" +:+ r) with r. cbn [strip_prefix]. split; congruence.
  - destruct s as [|b s]; [by rewrite string_app_cons|].
    rewrite string_app_cons. cbn [strip_prefix]. case_bool_decide as Hab.
    + subst b. rewrite IH. split; congruence.
    + split; [done | congruence].
Qed.

(** [span_not] splits the text at the first occurrence of the character. *)
Lemma span_not_spec (c : ascii) (s a b : string) :
  span_not c s = (a, b)
  ↔ s = a +:+ b ∧ (∀ p q, a ≠ p +:+ String c q)
    ∧ (b = "" ∨ ∃ q, b = String c q).
Proof.
  revert a b. induction s as [|x s IH]; intros a b.
  - cbn [span_not]. split.
    + intros [= <- <-]. split; [done|]. split; [|by left].
      intros [|] q; by rewrite ?string_app_cons.
    + intros (E & _ & _). destruct a; [|by rewrite string_app_cons in E].
      change ("" +:+ b) with b in E. by subst b.
  - cbn [span_not]. case_bool_decide as Hx.
    + subst x. split.
      * intros [= <- <-]. split; [done|]. split; [|right; eauto].
        intros [|] q; by rewrite ?string_app_cons.
      * intros (E & Hno & Hb). destruct a as [|y a].
        -- change ("" +:+ b) with b in E. by subst b.
        -- rewrite string_app_cons in E. injection E as <- E.
           by destruct (Hno "" a).
    + destruct (span_not c s) as [p q] eqn:Hspan. split.
      * intros [= <- <-]. destruct (proj1 (IH p q) eq_refl) as (-> & Hno & Hb).
        split; [by rewrite string_app_cons|]. split; [|done].
        intros [|y p'] q' E.
        -- change ("" +:+ String c q') with (String c q') in E. congruence.
        -- rewrite string_app_cons in E. injection E as _ E. by apply (Hno p' q').
      * intros (E & Hno & Hb). destruct a as [|y a].
        -- change ("" +:+ b) with b in E. subst b.
           destruct Hb as [|[q' [= ? _]]]; done.
        -- rewrite string_app_cons in E. injection E as <- E.
           assert ((p, q) = (a, b)) as [= -> ->]; [|done].
           apply IH. split; [done|]. split; [|done].
           intros p' q' Ea. apply (Hno (String x p') q').
           by rewrite string_app_cons, Ea.
Qed.

Lemma matchDataUrl_image (dataUrl contentType content : string) :
  matchDataUrl dataUrl = Some (contentType, content) →
  ∃ sub, contentType = "image/" +:+ sub.
Proof.
  unfold matchDataUrl.
  destruct (strip_prefix "data:image/" dataUrl) as [r|]; [|done].
  destruct (span_not ";" r) as [sub rest].
  destruct (String.eqb sub ""); [done|].
  destruct (strip_prefix ";base64," rest) as [b|]; [|done].
  destruct (String.eqb b "" || has_line_terminator b); [done|].
  intros [= <- _]. eauto.
Qed.

(** X18. What counts as an embedded image for [savePhotosDataUrls]: a text
    matches exactly when it reads [data:image/<subtype>;base64,<content>]
    with a subtype that is not empty and holds no semicolon and a content
    that is not empty and holds no line break; the two parts read from it
    are the type [image/<subtype>] and the content. *)
Theorem matchDataUrl_spec (dataUrl contentType content : string) :
  matchDataUrl dataUrl = Some (contentType, content)
  ↔ ∃ sub,
      contentType = "image/" +:+ sub
      ∧ dataUrl = "data:" +:+ contentType +:+ ";base64," +:+ content
      ∧ sub ≠ "" ∧ (∀ p q, sub ≠ p +:+ String ";" q)
      ∧ content ≠ "" ∧ has_line_terminator content = false.
Proof.
  unfold matchDataUrl. split.
  - destruct (strip_prefix "data:image/" dataUrl) as [r|] eqn:Hr; [|done].
    apply strip_prefix_spec in Hr as ->.
    destruct (span_not ";" r) as [sub rest] eqn:Hspan.
    apply span_not_spec in Hspan as (-> & Hno & _).
    destruct (String.eqb_spec sub ""); [done|].
    destruct (strip_prefix ";base64," rest) as [b|] eqn:Hb; [|done].
    apply strip_prefix_spec in Hb as ->.
    destruct (String.eqb_spec b ""); [done|]. cbn [orb].
    destruct (has_line_terminator b) eqn:Hlt; [done|].
    intros [= <- <-]. exists sub. by repeat split.
  - intros (sub & -> & -> & Hsub & Hno & Hc & Hlt).
    assert (strip_prefix "data:image/"
              ("data:" +:+ ("image/" +:+ sub) +:+ ";base64," +:+ content)
            = Some (sub +:+ ";base64," +:+ content)) as ->.
    { apply strip_prefix_spec. by rewrite !string_app_assoc. }
    assert (span_not ";" (sub +:+ ";base64," +:+ content)
            = (sub, ";base64," +:+ content)) as ->.
    { apply span_not_spec. split; [done|]. split; [done|].
      right. rewrite string_app_cons. eauto. }
    destruct (String.eqb_spec sub ""); [done|].
    assert (strip_prefix ";base64," (";base64," +:+ content) = Some content) as ->
      by (by apply strip_prefix_spec).
    destruct (String.eqb_spec content ""); [done|]. cbn [orb].
    by rewrite Hlt.
Qed.

Lemma photoRecord_key (photoId : string) (itemId : value) (fileId takenAt : string) :
  photoRecord photoId itemId fileId takenAt !! "PhotoID" = Some (VStr photoId).
Proof. reflexivity. Qed.

Lemma PhotoStep_skip (folder : string) (w : World) (sh : Sheet) (r : nat)
    (res : result bool) (w' : World) :
  w_ss w !! SH_PHOTOS = Some sh → nextFreeRowByHeader_ sh "PhotoID" = Ok r →
  res ≠ Ok true → w_files w' = w_files w → w_env w' = w_env w →
  w_props w' = w_props w → w_log w' = w_log w → w_ss w' = w_ss w →
  PhotoStep folder w sh r res w'.
Proof.
  intros Hsh Hr Hres Hf He Hp Hl Hs. exists [], sh, r.
  rewrite app_nil_r, Hs. cbn [length]. rewrite Nat.add_0_r.
  split; [done|]. split; [by right|].
  split; [intros f Hin; by apply elem_of_nil in Hin|]. by repeat split.
Qed.

(** One entry of the list of photos, once the Photos sheet has its key
    column: the entry adds a file exactly when it is counted. *)
Lemma savePhoto_step (itemId : value) (when folder : string) (idx : nat)
    (p : option Photo) (w : World) (sh : Sheet) (r : nat) :
  w_ss w !! SH_PHOTOS = Some sh → nextFreeRowByHeader_ sh "PhotoID" = Ok r →
  PhotoStep folder w sh r (savePhoto itemId when folder idx p w).1
    (savePhoto itemId when folder idx p w).2.
Proof.
  intros Hsh Hr.
  destruct p as [p|]; [|by (unfold throw; cbn [fst snd]; apply PhotoStep_skip)].
  cbn [savePhoto].
  destruct (matchDataUrl (String_or_empty (ph_dataUrl p))) as [[ct b64]|] eqn:Hm;
    [|by (unfold ret; cbn [fst snd]; apply PhotoStep_skip)].
  unfold bind, base64Decode.
  destruct (env_base64Decode (w_env w) b64) as [bytes|] eqn:Hdec;
    [|by (cbn [fst snd]; apply PhotoStep_skip)].
  unfold createFile.
  destruct (env_createFile (w_env w) (w_tick w)) as [fileId|] eqn:Hcreate;
    [|by (cbn [fst snd]; apply PhotoStep_skip)].
  unfold getUuid, formatNow, appendRowAtKeyM.
  cbn [w_ss w_env w_tick tick add_file].
  set (photoId := env_uuid (w_env w) (S (w_tick w))).
  set (takenAt := env_formatDate (w_env w) (S (S (w_tick w))) "yyyy-MM-dd HH:mm:ss").
  set (rec := photoRecord photoId itemId fileId takenAt).
  assert (appendRowAtKey_ SH_PHOTOS "PhotoID" rec (w_ss w)
          = Ok (<[SH_PHOTOS := writeKeys (getHeaders_ sh) r (map_to_list rec) sh]>
                  (w_ss w))) as Happ
    by (unfold appendRowAtKey_; by rewrite Hsh, Hr).
  rewrite Happ. unfold ret. cbn [fst snd].
  eexists [_], _, _.
  cbn [w_files w_env w_props w_log w_ss set_ss tick add_file length].
  split; [reflexivity|]. split; [by left|]. split.
  { intros f' Hin. apply list_elem_of_singleton in Hin as ->.
    cbn [f_folder f_contentType].
    split; [done|]. by apply (matchDataUrl_image _ _ _ Hm). }
  split; [reflexivity|]. split; [reflexivity|]. split; [reflexivity|].
  split; [by rewrite lookup_insert_eq|].
  split; [by apply (writeKeys_next_free sh "PhotoID" rec r)|].
  split.
  { intros Huuid. unfold rec. rewrite photoRecord_key, decide_False; [done|].
    intros [= E]. by apply (Huuid (S (w_tick w))). }
  intros n Hn. by rewrite lookup_insert_ne.
Qed.

Lemma photosLoop_files (itemId : value) (when folder : string)
    (photos : list (option Photo)) (idx saved : nat) (w : World) (sh : Sheet)
    (r : nat) :
  w_ss w !! SH_PHOTOS = Some sh → nextFreeRowByHeader_ sh "PhotoID" = Ok r →
  ∃ new sh' r',
    w_files (photosLoop itemId when folder photos idx saved w).2 = w_files w ++ new
    ∧ (photosLoop itemId when folder photos idx saved w).1 = saved + length new
    ∧ (∀ f, f ∈ new → f_folder f = folder ∧ ∃ sub, f_contentType f = "image/" +:+ sub)
    ∧ w_env (photosLoop itemId when folder photos idx saved w).2 = w_env w
    ∧ w_props (photosLoop itemId when folder photos idx saved w).2 = w_props w
    ∧ w_ss (photosLoop itemId when folder photos idx saved w).2 !! SH_PHOTOS = Some sh'
    ∧ nextFreeRowByHeader_ sh' "PhotoID" = Ok r'
    ∧ ((∀ k, env_uuid (w_env w) k ≠ "") → r' = r + length new)
    ∧ (∀ n, n ≠ SH_PHOTOS →
         w_ss (photosLoop itemId when folder photos idx saved w).2 !! n = w_ss w !! n).
Proof.
  revert idx saved w sh r.
  induction photos as [|p photos IH]; intros idx saved w sh r Hsh Hr.
  { exists [], sh, r. cbn [photosLoop fst snd length]. rewrite app_nil_r, !Nat.add_0_r.
    split; [done|]. split; [done|].
    split; [intros f Hin; by apply elem_of_nil in Hin|]. by repeat split. }
  destruct (savePhoto_step itemId when folder idx p w sh r Hsh Hr)
    as (new1 & sh1 & r1 & Hfiles1 & Hres1 & Hnew1 & Henv1 & Hprops1 & _ & Hsh1
        & Hr1 & Hrows1 & Hother1).
  cbn [photosLoop].
  destruct (savePhoto itemId when folder idx p w) as [res w1].
  cbn [fst snd] in *.
  assert (∃ saved1 w2,
            match res with
            | Ok true => photosLoop itemId when folder photos (S idx) (S saved) w1
            | Ok false => photosLoop itemId when folder photos (S idx) saved w1
            | Throw msg =>
                photosLoop itemId when folder photos (S idx) saved
                  (console_error "photo save failed" msg w1)
            end = photosLoop itemId when folder photos (S idx) saved1 w2
            ∧ saved1 = saved + length new1
            ∧ w_files w2 = w_files w1 ∧ w_env w2 = w_env w1
            ∧ w_props w2 = w_props w1 ∧ w_ss w2 = w_ss w1)
    as (saved1 & w2 & -> & -> & Hf2 & He2 & Hp2 & Hs2).
  { destruct res as [[|]|msg].
    - exists (S saved), w1. destruct Hres1 as [[_ ->]|[? _]]; [|done].
      repeat split; try done. lia.
    - exists saved, w1. destruct Hres1 as [[? _]|[_ ->]]; [done|].
      cbn [length]. rewrite Nat.add_0_r. by repeat split.
    - exists saved, (console_error "photo save failed" msg w1).
      destruct Hres1 as [[? _]|[_ ->]]; [done|].
      cbn [length]. rewrite Nat.add_0_r. by repeat split. }
  destruct (IH (S idx) (saved + length new1) w2 sh1 r1)
    as (new & sh' & r' & Hfiles & Hcount & Hnew & Henv & Hprops & Hsh' & Hr'
        & Hrows & Hother); [by rewrite Hs2 | done |].
  exists (new1 ++ new), sh', r'.
  rewrite Hfiles, Hcount, Henv, Hprops, Hf2, He2, Hp2, Hfiles1, Henv1, Hprops1.
  rewrite length_app, <- app_assoc.
  split; [done|]. split; [lia|]. split.
  { intros f Hin. apply elem_of_app in Hin as [Hin|Hin]; [by apply Hnew1 | by apply Hnew]. }
  split; [done|]. split; [done|]. split; [done|]. split; [done|]. split.
  { intros Huuid. rewrite Hrows, Hrows1; [lia | done |].
    intros k. rewrite He2, Henv1. apply Huuid. }
  intros n Hn. rewrite Hother, Hs2 by done. by apply Hother1.
Qed.

Lemma HEADERS_PHOTOS_key (ss : Spreadsheet) :
  ∃ r, nextFreeRowByHeader_ (ensureSheet_ SH_PHOTOS (HEADERS SH_PHOTOS) ss).2 "PhotoID"
       = Ok r.
Proof.
  apply nextFreeRow_Ok, ensureSheet_has_columns; [apply HEADERS_PHOTOS_PhotoID | done].
Qed.

Lemma savePhoto_counted (itemId : value) (when folder : string) (idx : nat)
    (p : option Photo) (w w' : World) :
  savePhoto itemId when folder idx p w = (Ok true, w') →
  decodable (w_env w) p = true.
Proof.
  destruct p as [p|]; [|done]. cbn [savePhoto decodable].
  destruct (matchDataUrl (String_or_empty (ph_dataUrl p))) as [[ct b64]|]; [|done].
  unfold bind at 1, base64Decode.
  destruct (env_base64Decode (w_env w) b64) as [bytes|]; [|done].
  intros _. by apply bool_decide_eq_true.
Qed.

Lemma nextFreeRow_has_key (sh : Sheet) (keyHeader : string) (r : nat) :
  nextFreeRowByHeader_ sh keyHeader = Ok r → VStr keyHeader ∈ getHeaders_ sh.
Proof.
  intros Hr. destruct (indexOf (getHeaders_ sh) (VStr keyHeader)) as [idx|] eqn:Hidx.
  - apply indexOf_Some in Hidx as [Hidx _]. apply list_elem_of_lookup. eauto.
  - unfold nextFreeRowByHeader_ in Hr. by rewrite Hidx in Hr.
Qed.

Lemma savePhoto_decodable (itemId : value) (when folder : string) (idx : nat)
    (p : option Photo) (w : World) (sh : Sheet) (r : nat) :
  decodable (w_env w) p = true →
  is_Some (env_createFile (w_env w) (w_tick w)) →
  w_ss w !! SH_PHOTOS = Some sh → nextFreeRowByHeader_ sh "PhotoID" = Ok r →
  ∃ w', savePhoto itemId when folder idx p w = (Ok true, w').
Proof.
  intros Hdec Hfile Hsh Hr. destruct p as [p|]; [|done]. cbn [decodable] in Hdec.
  destruct (matchDataUrl (String_or_empty (ph_dataUrl p))) as [[ct b64]|] eqn:Hm;
    [|done].
  apply bool_decide_eq_true in Hdec as [bytes Hbytes].
  apply (savePhoto_saved itemId when folder idx p w ct b64 bytes sh); try done.
  by apply (nextFreeRow_has_key sh "PhotoID" r).
Qed.

(** The counter of the loop: at most one more per entry that carries an
    image that decodes, and exactly one more per such entry when the file
    store never refuses. *)
Lemma photosLoop_count (itemId : value) (when folder : string)
    (photos : list (option Photo)) (idx saved : nat) (w : World) (sh : Sheet)
    (r : nat) :
  w_ss w !! SH_PHOTOS = Some sh → nextFreeRowByHeader_ sh "PhotoID" = Ok r →
  (photosLoop itemId when folder photos idx saved w).1
  ≤ saved + decodableCount (w_env w) photos
  ∧ ((∀ k, is_Some (env_createFile (w_env w) k)) →
     (photosLoop itemId when folder photos idx saved w).1
     = saved + decodableCount (w_env w) photos).
Proof.
  unfold decodableCount. revert idx saved w sh r.
  induction photos as [|p photos IH]; intros idx saved w sh r Hsh Hr.
  { cbn [photosLoop fst filter length]. rewrite filter_nil. cbn [length]. lia. }
  destruct (savePhoto_step itemId when folder idx p w sh r Hsh Hr)
    as (new1 & sh1 & r1 & _ & _ & _ & Henv1 & _ & _ & Hsh1 & Hr1 & _ & _).
  pose proof (savePhoto_counted itemId when folder idx p w) as Hcounted.
  pose proof (fun Hd Hf => savePhoto_decodable itemId when folder idx p w sh r Hd Hf Hsh Hr)
    as Hdecodable.
  cbn [photosLoop]. rewrite filter_cons.
  destruct (savePhoto itemId when folder idx p w) as [[[|]|msg] w1];
    cbn [fst snd] in Henv1, Hsh1.
  - rewrite decide_True by (by apply (Hcounted w1)). cbn [length].
    destruct (IH (S idx) (S saved) w1 sh1 r1 Hsh1 Hr1) as [Hle Heq].
    rewrite Henv1 in Hle, Heq. split; [lia|]. intros Hfile. rewrite Heq by done. lia.
  - destruct (IH (S idx) saved w1 sh1 r1 Hsh1 Hr1) as [Hle Heq].
    rewrite Henv1 in Hle, Heq. split.
    + case_decide; cbn [length]; lia.
    + intros Hfile. rewrite Heq by done. rewrite decide_False; [done|].
      intros Hd. destruct (Hdecodable Hd (Hfile _)) as [w2 Hw2]. congruence.
  - destruct (IH (S idx) saved (console_error "photo save failed" msg w1) sh1 r1
                Hsh1 Hr1) as [Hle Heq].
    cbn [w_env console_error] in Hle, Heq. rewrite Henv1 in Hle, Heq. split.
    + case_decide; cbn [length]; lia.
    + intros Hfile. rewrite Heq by done. rewrite decide_False; [done|].
      intros Hd. destruct (Hdecodable Hd (Hfile _)) as [w2 Hw2]. congruence.
Qed.

(** C7. In [savePhotosDataUrls], an entry whose payload does not match the
    embedded-image pattern leaves the state and the counter as they are,
    and the loop goes on with the next entry; an entry for which the
    decoding or the file store throws is logged with [console.error], not
    counted, and the loop goes on with the next entry.  For every list of
    photos that reaches the loop, [savePhotosDataUrls] returns the counter
    of that loop: it does not throw, it counts no entry that does not
    match or does not decode, and it counts every other entry when the
    file store never refuses.  So a well-formed PNG entry that decodes and
    is stored, together with one entry that does not match, gives
    [{saved: 1}], in either order. *)
Theorem savePhotos_skips_bad_entries (itemId : value) (when folder : string) :
  (∀ p rest idx saved w,
     matchDataUrl (String_or_empty (ph_dataUrl p)) = None →
     savePhoto itemId when folder idx (Some p) w = (Ok false, w)
     ∧ photosLoop itemId when folder (Some p :: rest) idx saved w
       = photosLoop itemId when folder rest (S idx) saved w)
  ∧ (∀ p rest idx saved w msg w',
       savePhoto itemId when folder idx p w = (Throw msg, w') →
       photosLoop itemId when folder (p :: rest) idx saved w
       = photosLoop itemId when folder rest (S idx) saved
           (console_error "photo save failed" msg w'))
  ∧ (∀ p idx w ct b64,
       matchDataUrl (String_or_empty (ph_dataUrl p)) = Some (ct, b64) →
       env_base64Decode (w_env w) b64 = None →
       ∃ msg, savePhoto itemId when folder idx (Some p) w = (Throw msg, w))
  ∧ (∀ p idx w ct b64 bytes,
       matchDataUrl (String_or_empty (ph_dataUrl p)) = Some (ct, b64) →
       env_base64Decode (w_env w) b64 = Some bytes →
       env_createFile (w_env w) (w_tick w) = None →
       ∃ msg, savePhoto itemId when folder idx (Some p) w = (Throw msg, tick w))
  ∧ (∀ batchId photos w folderId,
       truthy batchId = true → truthy itemId = true → photos ≠ [] →
       w_props w !! photosKey batchId = Some folderId → folderId ≠ "" →
       env_folderOk (w_env w) folderId = true →
       let w1 := tick (set_ss (ensureSheet_ SH_PHOTOS (HEADERS SH_PHOTOS) (w_ss w)).1 w) in
       let res := photosLoop itemId
                    (env_formatDate (w_env w) (w_tick w) "yyyyMMdd-HHmmss")
                    folderId photos 0 0 w1 in
       savePhotosDataUrls (Some batchId) (Some itemId) photos w = (Ok res.1, res.2)
       ∧ res.1 ≤ decodableCount (w_env w) photos
       ∧ ((∀ k, is_Some (env_createFile (w_env w) k)) →
          res.1 = decodableCount (w_env w) photos))
  ∧ (∀ batchId w folderId content bytes other,
       truthy batchId = true → truthy itemId = true →
       w_props w !! photosKey batchId = Some folderId → folderId ≠ "" →
       env_folderOk (w_env w) folderId = true →
       content ≠ "" → has_line_terminator content = false →
       env_base64Decode (w_env w) content = Some bytes →
       is_Some (env_createFile (w_env w) (S (w_tick w))) →
       matchDataUrl other = None →
       (savePhotosDataUrls (Some batchId) (Some itemId)
          [photoOf (pngDataUrl content); photoOf other] w).1 = Ok 1
       ∧ (savePhotosDataUrls (Some batchId) (Some itemId)
            [photoOf other; photoOf (pngDataUrl content)] w).1 = Ok 1).
Proof.
  split; [|split; [|split; [|split; [|split]]]].
  - intros p rest idx saved w Hm.
    pose proof (savePhoto_no_match itemId when folder idx p w Hm) as Hs.
    split; [done|]. cbn [photosLoop]. by rewrite Hs.
  - intros p rest idx saved w msg w' Hs. cbn [photosLoop]. by rewrite Hs.
  - intros p idx w ct b64 Hm Hdec. unfold savePhoto. rewrite Hm.
    unfold bind, base64Decode. rewrite Hdec. eauto.
  - intros p idx w ct b64 bytes Hm Hdec Hfile. unfold savePhoto. rewrite Hm.
    unfold bind at 1, base64Decode. rewrite Hdec.
    unfold bind, createFile. rewrite Hfile. eauto.
  - intros batchId photos w folderId Hb Hi Hne Hprop Hfolder Hok w1 res.
    split.
    { rewrite savePhotos_run by done. rewrite Hprop, Hok.
      by rewrite (proj2 (String.eqb_neq _ _) Hfolder). }
    destruct (HEADERS_PHOTOS_key (w_ss w)) as [r Hr].
    apply (photosLoop_count itemId _ folderId photos 0 0 w1
             (ensureSheet_ SH_PHOTOS (HEADERS SH_PHOTOS) (w_ss w)).2 r); [|exact Hr].
    apply ensureSheet_lookup.
  - intros batchId w folderId content bytes other
      Hb Hi Hprop Hfolder Hok Hne Hlt Hdec Hfile Hother.
    assert (String_or_empty (Some (VStr other)) = other) as Hjunk.
    { unfold String_or_empty, or_empty, truthy.
      destruct (String.eqb_spec other ""); simpl; congruence. }
    assert (String_or_empty (Some (VStr (pngDataUrl content))) = pngDataUrl content)
      as Hpng by done.
    set (ss1 := (ensureSheet_ SH_PHOTOS (HEADERS SH_PHOTOS) (w_ss w)).1).
    set (sh1 := (ensureSheet_ SH_PHOTOS (HEADERS SH_PHOTOS) (w_ss w)).2).
    assert (ss1 !! SH_PHOTOS = Some sh1) as Hsh by apply ensureSheet_lookup.
    assert (VStr "PhotoID" ∈ getHeaders_ sh1) as Hkey
      by (apply ensureSheet_has_columns; [apply HEADERS_PHOTOS_PhotoID | done]).
    set (w2 := tick (set_ss ss1 w)).
    destruct (savePhoto_saved itemId
                (env_formatDate (w_env w) (w_tick w) "yyyyMMdd-HHmmss") folderId 0
                {| ph_dataUrl := Some (VStr (pngDataUrl content)) |} w2
                "image/png" content bytes sh1) as [w3 Hsave0];
      [cbn [ph_dataUrl]; rewrite Hpng; by apply matchDataUrl_png
      | done | done | done | done |].
    destruct (savePhoto_saved itemId
                (env_formatDate (w_env w) (w_tick w) "yyyyMMdd-HHmmss") folderId 1
                {| ph_dataUrl := Some (VStr (pngDataUrl content)) |} w2
                "image/png" content bytes sh1) as [w4 Hsave1];
      [cbn [ph_dataUrl]; rewrite Hpng; by apply matchDataUrl_png
      | done | done | done | done |].
    split.
    + rewrite savePhotos_run by done. rewrite Hprop, Hok.
      rewrite (proj2 (String.eqb_neq _ _) Hfolder). cbn zeta.
      fold ss1. fold w2. unfold photoOf. cbn [photosLoop].
      rewrite Hsave0. rewrite savePhoto_no_match by (cbn [ph_dataUrl]; by rewrite Hjunk). done.
    + rewrite savePhotos_run by done. rewrite Hprop, Hok.
      rewrite (proj2 (String.eqb_neq _ _) Hfolder). cbn zeta.
      fold ss1. fold w2. unfold photoOf. cbn [photosLoop].
      rewrite savePhoto_no_match by (cbn [ph_dataUrl]; by rewrite Hjunk). rewrite Hsave1. done.
Qed.

(** X19. Every photo that [savePhotosDataUrls] counts has its file: the
    files of the state after a call that returns are those before it
    followed by new files, at least as many as the count says, each of
    them in the photo folder recorded for the batch and of an image type.
    The script properties and the sheets other than Photos are as before.
    When the identifier generator never gives an empty identifier, the
    next free row of the Photos sheet has moved by at least the count. *)
Theorem savePhotos_counted_have_file_and_row (batchId itemId : option value)
    (photos : list (option Photo)) (w w' : World) (n : nat) :
  savePhotosDataUrls batchId itemId photos w = (Ok n, w') →
  ∃ new,
    w_files w' = w_files w ++ new ∧ n ≤ length new
    ∧ (∀ f, f ∈ new →
         (∃ b, batchId = Some b ∧ w_props w !! photosKey b = Some (f_folder f))
         ∧ ∃ sub, f_contentType f = "image/" +:+ sub)
    ∧ w_props w' = w_props w
    ∧ (∀ name, name ≠ SH_PHOTOS → w_ss w' !! name = w_ss w !! name)
    ∧ (photos ≠ [] → (∀ k, env_uuid (w_env w) k ≠ "") →
       ∃ r r' sh',
         nextFreeRowByHeader_ (ensureSheet_ SH_PHOTOS (HEADERS SH_PHOTOS) (w_ss w)).2
           "PhotoID" = Ok r
         ∧ w_ss w' !! SH_PHOTOS = Some sh'
         ∧ nextFreeRowByHeader_ sh' "PhotoID" = Ok r' ∧ r + n ≤ r').
Proof.
  intros Hrun.
  destruct batchId as [b|]; [|done]. destruct itemId as [i|]; [|done].
  destruct (truthy b) eqn:Hb;
    [|by unfold savePhotosDataUrls in Hrun; rewrite Hb in Hrun].
  destruct (truthy i) eqn:Hi;
    [|by unfold savePhotosDataUrls in Hrun; rewrite Hb, Hi in Hrun].
  destruct (decide (photos = [])) as [->|Hne].
  { unfold savePhotosDataUrls in Hrun. rewrite Hb, Hi in Hrun.
    injection Hrun as <- <-. exists []. rewrite app_nil_r.
    split; [done|]. split; [done|].
    split; [intros f Hin; by apply elem_of_nil in Hin|]. by repeat split. }
  rewrite (savePhotos_run b i photos w Hb Hi Hne) in Hrun. cbn zeta in Hrun.
  destruct (w_props w !! photosKey b) as [folderId|] eqn:Hprop; [|done].
  destruct (String.eqb folderId ""); [done|].
  destruct (env_folderOk (w_env w) folderId); [|done].
  set (ss1 := (ensureSheet_ SH_PHOTOS (HEADERS SH_PHOTOS) (w_ss w)).1) in *.
  set (sh1 := (ensureSheet_ SH_PHOTOS (HEADERS SH_PHOTOS) (w_ss w)).2).
  destruct (HEADERS_PHOTOS_key (w_ss w)) as [r Hr]. fold sh1 in Hr.
  destruct (photosLoop_files i
              (env_formatDate (w_env w) (w_tick w) "yyyyMMdd-HHmmss") folderId photos
              0 0 (tick (set_ss ss1 w)) sh1 r)
    as (new & sh' & r' & Hfiles & Hcount & Hnew & Henv & Hprops & Hsh' & Hr'
        & Hrows & Hother); [apply ensureSheet_lookup | done |].
  injection Hrun as Hn Hw. rewrite Hw in *. rewrite Hn in Hcount.
  exists new. split; [exact Hfiles|]. split; [by rewrite Hcount|]. split.
  { intros f Hin. destruct (Hnew f Hin) as [-> Hct]. split; [eauto | done]. }
  split; [exact Hprops|]. split.
  { intros name Hname. rewrite Hother by done. cbn [w_ss tick set_ss].
    by apply ensureSheet_other. }
  intros _ Huuid. exists r, r', sh'. split; [done|]. split; [done|].
  split; [done|]. rewrite Hcount, (Hrows Huuid). clear. lia.
Qed.

(** X20. [savePhotosDataUrls] with nothing to do.  Without a batch or an
    item identifier it throws, and for an empty list of photos it returns
    0; in both cases the state is exactly as before (no sheet is created).
    A call that throws later has created no file, changed no property and
    written nothing to the console, but it has already created or
    repaired the Photos sheet. *)
Theorem savePhotos_early_exits (batchId itemId : option value)
    (photos : list (option Photo)) (w : World) :
  (truthy_opt batchId = false ∨ truthy_opt itemId = false →
     savePhotosDataUrls batchId itemId photos w
     = (Throw "Missing batchId or itemId", w))
  ∧ (truthy_opt batchId = true → truthy_opt itemId = true → photos = [] →
     savePhotosDataUrls batchId itemId photos w = (Ok 0, w))
  ∧ (∀ msg w', savePhotosDataUrls batchId itemId photos w = (Throw msg, w') →
       w' = w
       ∨ (w' = set_ss (ensureSheet_ SH_PHOTOS (HEADERS SH_PHOTOS) (w_ss w)).1 w
          ∧ msg ≠ "Missing batchId or itemId")).
Proof.
  split; [|split].
  - intros Hmissing. unfold savePhotosDataUrls.
    destruct batchId as [b|]; [|done]. destruct itemId as [i|]; [|done].
    cbn [truthy_opt] in Hmissing.
    destruct Hmissing as [-> | ->]; [done|]. by rewrite orb_true_r.
  - intros Hb Hi ->. unfold savePhotosDataUrls.
    destruct batchId as [b|]; [|done]. destruct itemId as [i|]; [|done].
    cbn [truthy_opt] in Hb, Hi. by rewrite Hb, Hi.
  - intros msg w' Hthrow.
    destruct batchId as [b|]; [|left; by injection Hthrow].
    destruct itemId as [i|]; [|left; by injection Hthrow].
    destruct (truthy b) eqn:Hb;
      [|left; unfold savePhotosDataUrls in Hthrow; rewrite Hb in Hthrow;
        by injection Hthrow].
    destruct (truthy i) eqn:Hi;
      [|left; unfold savePhotosDataUrls in Hthrow; rewrite Hb, Hi in Hthrow;
        by injection Hthrow].
    destruct (decide (photos = [])) as [->|Hne].
    { unfold savePhotosDataUrls in Hthrow. by rewrite Hb, Hi in Hthrow. }
    rewrite (savePhotos_run b i photos w Hb Hi Hne) in Hthrow. cbn zeta in Hthrow.
    right.
    destruct (w_props w !! photosKey b) as [folderId|];
      [|by injection Hthrow as <- <-].
    destruct (String.eqb folderId ""); [by injection Hthrow as <- <-|].
    destruct (env_folderOk (w_env w) folderId); [done|].
    by injection Hthrow as <- <-.
Qed.

(** X21. What [saveItem] throws it has logged: without a batch identifier
    it throws [Missing batchId], writes that one line to the console and
    leaves everything else as it was (no sheet is created); whatever it
    throws, the error comes from its body and the last line of the console
    is [saveItem error] followed by the message; and a call that returns
    has written nothing to the console. *)
Theorem saveItem_logs_what_it_throws (payload : Payload) (w : World) :
  (truthy_opt (p_batchId payload) = false →
     saveItem payload w
     = (Throw "Missing batchId", console_error "saveItem error" "Missing batchId" w))
  ∧ (∀ msg w', saveItem payload w = (Throw msg, w') →
       ∃ w0, saveItemBody payload w = (Throw msg, w0)
             ∧ w' = console_error "saveItem error" msg w0
             ∧ last (w_log w') = Some ("saveItem error" +:+ " " +:+ msg))
  ∧ (∀ out w', saveItem payload w = (Ok out, w') → w_log w' = w_log w).
Proof.
  split; [|split].
  - intros Hb. unfold saveItem, saveItemBody.
    destruct (p_batchId payload) as [b|]; [|done].
    cbn [truthy_opt] in Hb. by rewrite Hb.
  - intros msg w' Hthrow. unfold saveItem in Hthrow.
    destruct (saveItemBody payload w) as [[out|msg0] w0]; [done|].
    injection Hthrow as <- <-. exists w0. split; [done|]. split; [done|].
    cbn [w_log console_error]. by rewrite last_snoc.
  - intros out w' Hrun.
    destruct (p_batchId payload) as [b|] eqn:Hbatch.
    2: { unfold saveItem, saveItemBody in Hrun. by rewrite Hbatch in Hrun. }
    destruct (truthy b) eqn:Hb.
    2: { unfold saveItem, saveItemBody in Hrun. by rewrite Hbatch, Hb in Hrun. }
    destruct (saveItem_rows payload w b Hbatch Hb)
      as (w1 & shI & shS & shI' & shS' & rI & rS & Hrun1 & _ & _ & _ & _ & _ & _ & _
          & _ & _ & _ & _ & _ & _ & _ & _ & _ & _ & Hlog).
    rewrite Hrun1 in Hrun. by injection Hrun as _ <-.
Qed.

(** X22. A [saveItem] that has a batch identifier: it returns the item
    identifier [ITM-] followed by the first eight characters of a fresh
    identifier, and the code computed for the batch after the two sheets
    are ensured, whether or not a batch of that identifier was ever
    created.  It reads the identifier generator once for the item and
    once per selection, and the clock once; it changes no script property,
    no file, no line of the console and no sheet other than Items and
    Selections. *)
Theorem saveItem_succeeds (payload : Payload) (w : World) (b : value) :
  p_batchId payload = Some b → truthy b = true →
  ∃ w',
    saveItem payload w
    = (Ok ("ITM-" +:+ slice8 (env_uuid (w_env w) (w_tick w)),
           nextCodeForBatch_ b (itemSheetsEnsured (w_ss w))), w')
    ∧ w_tick w' = w_tick w + 2 + length (p_selections payload)
    ∧ w_props w' = w_props w ∧ w_files w' = w_files w ∧ w_log w' = w_log w
    ∧ (∀ n, n ≠ SH_ITEMS → n ≠ SH_SELECT → w_ss w' !! n = w_ss w !! n).
Proof.
  intros Hbatch Hb.
  destruct (saveItem_rows payload w b Hbatch Hb)
    as (w' & shI & shS & shI' & shS' & rI & rS & Hrun & _ & _ & _ & _ & _ & _ & _ & _
        & _ & _ & _ & _ & Hother & _ & Htick & Hprops & Hfiles & Hlog).
  exists w'. by repeat split.
Qed.

(** X23. The rows that [saveItem] writes.  The record of the item goes to
    the next free row of the Items sheet, every value under the header of
    its name, and the other rows of the sheet stay as they are; the
    selections go to the next free rows of the Selections sheet, one row
    each and in their order, each with an identifier of its own and the
    identifier of the item.  After the call the next free row of Items
    is one row further and that of Selections as many rows further as
    there are selections. *)
Theorem saveItem_writes_rows (payload : Payload) (w : World) (b : value) :
  p_batchId payload = Some b → truthy b = true →
  let ss1 := itemSheetsEnsured (w_ss w) in
  let itemId := "ITM-" +:+ slice8 (env_uuid (w_env w) (w_tick w)) in
  let code := nextCodeForBatch_ b ss1 in
  let createdAt := env_formatDate (w_env w) (S (w_tick w)) "yyyy-MM-dd HH:mm:ss" in
  let notes := getNoteFromNotesRules_
                 (Some (VStr (String_or_empty (p_historicCode payload)))) ss1 in
  ∃ w' shI shS shI' shS' rI rS,
    saveItem payload w = (Ok (itemId, code), w')
    ∧ ss1 !! SH_ITEMS = Some shI ∧ ss1 !! SH_SELECT = Some shS
    ∧ nextFreeRowByHeader_ shI "ItemID" = Ok rI
    ∧ nextFreeRowByHeader_ shS "SelectionID" = Ok rS
    ∧ w_ss w' !! SH_ITEMS = Some shI' ∧ w_ss w' !! SH_SELECT = Some shS'
    ∧ nextFreeRowByHeader_ shI' "ItemID" = Ok (rI + 1)
    ∧ nextFreeRowByHeader_ shS' "SelectionID" = Ok (rS + length (p_selections payload))
    ∧ (∀ field v c,
         itemRecord payload b itemId code createdAt notes !! field = Some v →
         position (getHeaders_ shI) field = Some c → cellAt shI' rI c = stored v)
    ∧ (∀ r c, r ≠ rI → cellAt shI' r c = cellAt shI r c)
    ∧ (∀ i s field v c,
         p_selections payload !! i = Some s →
         selectionRecord ("SEL-" +:+ slice8 (env_uuid (w_env w) (w_tick w + 2 + i)))
           itemId (p_type payload) s !! field = Some v →
         position (getHeaders_ shS) field = Some c →
         cellAt shS' (rS + i) c = stored v)
    ∧ (∀ r c, r < rS → cellAt shS' r c = cellAt shS r c).
Proof.
  intros Hbatch Hb ss1 itemId code createdAt notes.
  destruct (saveItem_rows payload w b Hbatch Hb)
    as (w' & shI & shS & shI' & shS' & rI & rS & Hrun & HshI & HshS & HrI & HrS
        & HshI' & HshS' & HnextI & HnextS & Hitem & HotherI & Hsels & HbeforeS & _).
  exists w', shI, shS, shI', shS', rI, rS. by repeat split.
Qed.

(** ** Historic note lookup: case and white space *)

Lemma notesRulesLoop_lower (c1 c2 : string) (rows : list (list value)) :
  toLowerCase c1 = toLowerCase c2 → notesRulesLoop c1 rows = notesRulesLoop c2 rows.
Proof.
  intros E. induction rows as [|row rows IH]; [done|].
  cbn [notesRulesLoop]. by rewrite E, IH.
Qed.

Lemma String_or_empty_VStr (s : string) : String_or_empty (Some (VStr s)) = s.
Proof.
  unfold String_or_empty, or_empty. cbn [truthy].
  by destruct (String.eqb_spec s "") as [->|].
Qed.

Lemma notesRulesLoop_trimmed (code : string) (rows : list (list value)) :
  trim (notesRulesLoop code rows) = notesRulesLoop code rows.
Proof.
  induction rows as [|row rows IH]; [done|]. cbn [notesRulesLoop].
  destruct (String.eqb (trim (String_or_empty (row !! 0))) ""); [done|].
  destruct (String.eqb _ _); [apply trim_idem | done].
Qed.

(** X24. The lookup of a historic note looks at the code up to the case of
    its letters and the white space around it: two codes that are equal
    after trimming and lower-casing get the same note from every
    spreadsheet.  The note returned has no white space around it. *)
Theorem getNote_ignores_case_and_spaces (c1 c2 : string) (ss : Spreadsheet) :
  toLowerCase (trim c1) = toLowerCase (trim c2) →
  getNoteFromNotesRules_ (Some (VStr c1)) ss = getNoteFromNotesRules_ (Some (VStr c2)) ss
  ∧ trim (getNoteFromNotesRules_ (Some (VStr c1)) ss)
    = getNoteFromNotesRules_ (Some (VStr c1)) ss.
Proof.
  intros E. unfold getNoteFromNotesRules_. rewrite !String_or_empty_VStr.
  assert (String.eqb (trim c1) "" = String.eqb (trim c2) "") as Hempty.
  { destruct (String.eqb_spec (trim c1) "") as [H1|H1],
      (String.eqb_spec (trim c2) "") as [H2|H2]; try done.
    - rewrite H1 in E. symmetry in E. by apply toLowerCase_empty in E.
    - rewrite H2 in E. by apply toLowerCase_empty in E. }
  rewrite <- Hempty. destruct (String.eqb (trim c1) ""); [done|].
  destruct (ss !! "NotesRules") as [sh|]; [|done].
  destruct (length (getDataRangeValues sh) <? 2); [done|].
  split; [by apply notesRulesLoop_lower | apply notesRulesLoop_trimmed].
Qed.

(** ** The order of the names of a record *)

(** X25. The cells that [appendRowAtKey_] writes do not depend on the
    order in which the names of the record are visited: for every listing
    of the record without repetition the sheet written has the same cells,
    the same header row and the same next free row. *)
Theorem appendRow_key_order_irrelevant (headers : list value) (r : nat)
    (obj : gmap string value) (entries : list (string * value)) (sh : Sheet) :
  1 ≤ r → entries ≡ₚ map_to_list obj →
  let sh1 := writeKeys headers r entries sh in
  let sh2 := writeKeys headers r (map_to_list obj) sh in
  (∀ r' c, cellAt sh1 r' c = cellAt sh2 r' c)
  ∧ getHeaders_ sh1 = getHeaders_ sh2
  ∧ (∀ keyHeader, nextFreeRowByHeader_ sh1 keyHeader = nextFreeRowByHeader_ sh2 keyHeader).
Proof.
  intros Hr Hperm sh1 sh2.
  assert (∀ r' c, cellAt sh1 r' c = cellAt sh2 r' c) as Hcells.
  { intros r' c. apply writeKeys_order; [done | | done].
    rewrite Hperm. apply NoDup_fst_map_to_list. }
  assert (getHeaders_ sh1 = getHeaders_ sh2) as Hhead by (by apply getHeaders_ext).
  split; [done|]. split; [done|]. intros keyHeader.
  destruct (indexOf (getHeaders_ sh2) (VStr keyHeader)) as [idx|] eqn:Hidx.
  - destruct (nextFreeRow_first_free sh2 keyHeader idx Hidx) as (r2 & Hr2 & Hfree).
    rewrite Hr2. apply (nextFreeRow_iff sh1 keyHeader idx); [by rewrite Hhead|].
    destruct Hfree as (Hge & Hempty & Hlast). unfold FirstFreeRow, displayAt.
    split; [done|]. split.
    + intros row Hrow. rewrite Hcells. by apply Hempty.
    + rewrite Hcells. done.
  - unfold nextFreeRowByHeader_. by rewrite Hhead, Hidx.
Qed.

(** ** The file and the row of a photo *)

(** X26. A photo that is saved gets one file and one row that points to
    it: the file is created in the folder of the batch with the decoded
    content, the type read from the text and the name
    [<item>-<time>-<nn>.<ext>], where [nn] is the position of the photo in
    the list and [ext] is [png] for the type [image/png] and [jpg] for
    every other type; the row written to the Photos sheet holds the
    identifier of that file under [Image], the item under [ItemID] and a
    fresh identifier under [PhotoID]. *)
Theorem savePhoto_links_row_to_file (itemId : value) (when folder : string)
    (idx : nat) (p : Photo) (w : World) (ct b64 bytes fileId : string)
    (sh : Sheet) (r : nat) :
  matchDataUrl (String_or_empty (ph_dataUrl p)) = Some (ct, b64) →
  env_base64Decode (w_env w) b64 = Some bytes →
  env_createFile (w_env w) (w_tick w) = Some fileId →
  w_ss w !! SH_PHOTOS = Some sh → nextFreeRowByHeader_ sh "PhotoID" = Ok r →
  let ext := if decide (ct = "image/png") then "png" else "jpg" in
  let name := String_ itemId +:+ "-" +:+ when +:+ "-"
              +:+ padStart 2 "0" (String_nat (idx + 1)) +:+ "." +:+ ext in
  ∃ w' sh',
    savePhoto itemId when folder idx (Some p) w = (Ok true, w')
    ∧ w_files w' = w_files w ++ [{| f_folder := folder; f_name := name;
                                    f_contentType := ct; f_bytes := bytes;
                                    f_id := fileId |}]
    ∧ w_ss w' !! SH_PHOTOS = Some sh'
    ∧ (∀ c, position (getHeaders_ sh) "Image" = Some c →
         cellAt sh' r c = stored (VStr fileId))
    ∧ (∀ c, position (getHeaders_ sh) "ItemID" = Some c →
         cellAt sh' r c = stored itemId)
    ∧ (∀ c, position (getHeaders_ sh) "PhotoID" = Some c →
         cellAt sh' r c = stored (VStr (env_uuid (w_env w) (S (w_tick w)))))
    ∧ (∀ r' c, r' ≠ r → cellAt sh' r' c = cellAt sh r' c).
Proof.
  intros Hm Hdec Hcreate Hsh Hr ext name.
  pose proof (nextFreeRow_ge_2 _ _ _ Hr) as Hge.
  cbn [savePhoto]. rewrite Hm. unfold bind, base64Decode. rewrite Hdec.
  unfold createFile. rewrite Hcreate.
  unfold getUuid, formatNow, appendRowAtKeyM.
  cbn [w_ss w_env w_tick tick add_file].
  set (photoId := env_uuid (w_env w) (S (w_tick w))).
  set (takenAt := env_formatDate (w_env w) (S (S (w_tick w))) "yyyy-MM-dd HH:mm:ss").
  set (rec := photoRecord photoId itemId fileId takenAt).
  assert (appendRowAtKey_ SH_PHOTOS "PhotoID" rec (w_ss w)
          = Ok (<[SH_PHOTOS := writeKeys (getHeaders_ sh) r (map_to_list rec) sh]>
                  (w_ss w))) as Happ
    by (unfold appendRowAtKey_; by rewrite Hsh, Hr).
  rewrite Happ. unfold ret.
  eexists _, _. split; [reflexivity|].
  cbn [w_files w_ss set_ss tick add_file].
  split.
  { f_equal. f_equal. unfold name, ext. do 6 f_equal.
    destruct (String.eqb_spec ct "image/png") as [->|Hne];
      [by rewrite decide_True | by rewrite decide_False]. }
  split; [by rewrite lookup_insert_eq|].
  split; [|split; [|split]].
  - intros c Hc. by rewrite (writeKeys_obj_cell _ r rec sh "Image" c) by (lia || done).
  - intros c Hc. by rewrite (writeKeys_obj_cell _ r rec sh "ItemID" c) by (lia || done).
  - intros c Hc. by rewrite (writeKeys_obj_cell _ r rec sh "PhotoID" c) by (lia || done).
  - intros r' c Hne. apply writeKeys_frame; [lia | by left].
Qed.

(** ** The notes stored with an item *)

Lemma getNote_without_code (code : option value) (ss : Spreadsheet) :
  truthy_opt code = false →
  getNoteFromNotesRules_ (Some (VStr (String_or_empty code))) ss = "".
Proof.
  intros Hc. unfold String_or_empty, or_empty.
  destruct code as [v|]; [|done]. cbn [truthy_opt] in Hc. by rewrite Hc.
Qed.

(** X27. [saveItem] computes the notes of [buildNotes_] but does not store
    them: the [Notes] cell of the row written for the item holds the note
    that the notes table gives for the historic code, and it is left empty
    when the payload has no historic code, whatever [buildNotes_] returns
    for the payload. *)
Theorem saveItem_notes_from_rules_only (payload : Payload) (w : World) (b : value) :
  p_batchId payload = Some b → truthy b = true →
  ∃ out w' shI shI' rI c,
    saveItem payload w = (Ok out, w')
    ∧ itemSheetsEnsured (w_ss w) !! SH_ITEMS = Some shI
    ∧ nextFreeRowByHeader_ shI "ItemID" = Ok rI
    ∧ w_ss w' !! SH_ITEMS = Some shI'
    ∧ position (getHeaders_ shI) "Notes" = Some c
    ∧ cellAt shI' rI c
      = stored (VStr (getNoteFromNotesRules_
                        (Some (VStr (String_or_empty (p_historicCode payload))))
                        (itemSheetsEnsured (w_ss w))))
    ∧ (truthy_opt (p_historicCode payload) = false → cellAt shI' rI c = None).
Proof.
  intros Hbatch Hb.
  destruct (saveItem_rows payload w b Hbatch Hb)
    as (w' & shI & shS & shI' & shS' & rI & rS & Hrun & HshI & _ & HrI & _
        & HshI' & _ & _ & _ & Hitem & _).
  assert (∃ c, position (getHeaders_ shI) "Notes" = Some c) as [c Hc].
  { assert (VStr "Notes" ∈ getHeaders_ shI) as Hin.
    { rewrite itemSheetsEnsured_items in HshI. injection HshI as <-.
      apply ensureSheet_has_columns; [by_compute | done]. }
    apply indexOf_elem in Hin as [idx Hidx]. exists (idx + 1).
    by apply indexOf_position. }
  pose proof (Hitem "Notes" _ c eq_refl Hc) as Hcell.
  eexists _, w', shI, shI', rI, c. split; [exact Hrun|].
  split; [exact HshI|]. split; [exact HrI|]. split; [exact HshI'|].
  split; [exact Hc|]. split; [exact Hcell|].
  intros Hcode. rewrite Hcell, getNote_without_code by done. reflexivity.
Qed.

(** ** The properties at sample inputs *)

Example sampleItems_headers :
  getHeaders_ sampleItems = [VStr "ItemID"; VStr "BatchID"; VStr "Code"].
Proof. reflexivity. Qed.

Example sampleItems_next_free_row :
  nextFreeRowByHeader_ sampleItems "ItemID" = Ok 4
  ∧ nextFreeRowByHeader_ sampleItems "Code" = Ok 5
  ∧ nextFreeRowByHeader_ sampleItems "Title" = Throw "Key header not found: Title".
Proof. repeat split; reflexivity. Qed.

Lemma nextFreeRow_append_point_witness :
  ((VStr "Title" ∉ getHeaders_ sampleItems)
   ∧ nextFreeRowByHeader_ sampleItems "Title" = Throw "Key header not found: Title")
  ∧ (VStr "ItemID" ∈ getHeaders_ sampleItems
     ∧ ∃ idx r, indexOf (getHeaders_ sampleItems) (VStr "ItemID") = Some idx
                ∧ nextFreeRowByHeader_ sampleItems "ItemID" = Ok r
                ∧ AppendPoint sampleItems (idx + 1) r).
Proof.
  assert (VStr "Title" ∉ getHeaders_ sampleItems) as Hout
    by (apply indexOf_None; reflexivity).
  assert (VStr "ItemID" ∈ getHeaders_ sampleItems) as Hin
    by (apply list_elem_of_lookup; exists 0; reflexivity).
  split; (split; [done|]).
  - apply (proj1 (nextFreeRow_append_point sampleItems "Title") Hout).
  - apply (proj2 (nextFreeRow_append_point sampleItems "ItemID") Hin).
Defined.

Example ensureSheet_creates_batches :
  getHeaders_ (ensureSheet_ SH_BATCHES (HEADERS SH_BATCHES) ∅).2
  = VStr <$> HEADERS SH_BATCHES.
Proof. apply ensureSheet_new_headers; [done | done | by_compute]. Qed.

Example ensureSheet_repairs_sampleItems :
  getHeaders_ (ensureSheet_ SH_ITEMS ["ItemID"; "Title"; "BatchID"; "Artist"]
                 sampleSpreadsheet).2
  = [VStr "ItemID"; VStr "BatchID"; VStr "Code"; VStr "Title"; VStr "Artist"].
Proof. vm_compute. reflexivity. Qed.

(** On a sheet that exists without any content, the header row read is one
    empty cell, and the canonical names are written from the second column
    on. *)
Example ensureSheet_on_blank_sheet :
  getHeaders_ (ensureSheet_ SH_BATCHES (HEADERS SH_BATCHES)
                 {[ SH_BATCHES := {| maxRows := 3; maxCols := 2;
                                     cells := fun _ _ => None |} ]}).2
  = VStr "" :: (VStr <$> HEADERS SH_BATCHES).
Proof. vm_compute. reflexivity. Qed.

Lemma ensureSheet_idempotent_witness :
  let ss1 := (ensureSheet_ SH_SELECT (HEADERS SH_SELECT) sampleSpreadsheet).1 in
  ("" ∉ HEADERS SH_SELECT)
  ∧ (ensureSheet_ SH_SELECT (HEADERS SH_SELECT) ss1).1 = ss1.
Proof.
  intros ss1.
  assert ("" ∉ HEADERS SH_SELECT) as Hne by by_compute.
  split; [done|].
  apply (ensureSheet_idempotent SH_SELECT (HEADERS SH_SELECT) sampleSpreadsheet).
  done.
Defined.

Lemma ensureSheet_header_growth_witness :
  let H1 := ["BatchID"; "Client"] in
  let H2 := HEADERS SH_BATCHES in
  let ss1 := (ensureSheet_ SH_BATCHES H1 ∅).1 in
  let sh1 := (ensureSheet_ SH_BATCHES H1 ∅).2 in
  let sh2 := (ensureSheet_ SH_BATCHES H2 ss1).2 in
  ss1 !! SH_BATCHES = Some sh1
  ∧ H1 ⊆ H2
  ∧ ("" ∉ H2)
  ∧ getHeaders_ sh2
    = getHeaders_ sh1 ++ (VStr <$> missingColumns (getHeaders_ sh1) H2)
  ∧ ∀ r c, 2 ≤ r → cellAt sh2 r c = cellAt sh1 r c.
Proof.
  intros H1 H2 ss1 sh1 sh2.
  assert (ss1 !! SH_BATCHES = Some sh1) as Hsh by reflexivity.
  assert (H1 ⊆ H2) as Hsub.
  { intros h Hh.
    repeat (apply elem_of_cons in Hh as [->|Hh]; [by_compute|]).
    by apply elem_of_nil in Hh. }
  assert ("" ∉ H2) as Hne by by_compute.
  destruct (ensureSheet_header_growth SH_BATCHES H1 H2 ∅ ss1 sh1 Hsh eq_refl Hsub)
    as (_ & _ & _ & _ & _ & _ & _ & Hrows & Hrow).
  split; [done|]. split; [done|]. split; [done|]. split; [by apply Hrow | done].
Defined.

Example appendRow_sampleItems :
  ∃ ss sh, appendRowAtKey_ SH_ITEMS "ItemID"
             {[ "ItemID" := VStr "C"; "Code" := VStr "I002"; "Shelf" := VNum 7 ]}
             sampleSpreadsheet = Ok ss
           ∧ ss !! SH_ITEMS = Some sh
           ∧ getValues sh 4 1 1 4 = [[VStr "C"; VStr ""; VStr "I002"; VStr ""]]
           ∧ getValues sh 2 1 2 4 = getValues sampleItems 2 1 2 4.
Proof.
  eexists _, _. split; [reflexivity|]. split; [reflexivity|].
  split; vm_compute; reflexivity.
Qed.

Lemma appendRowAtKey_sparse_write_witness :
  sampleSpreadsheet !! SH_ITEMS = Some sampleItems
  ∧ VStr "ItemID" ∈ getHeaders_ sampleItems
  ∧ ∃ r sh',
      nextFreeRowByHeader_ sampleItems "ItemID" = Ok r
      ∧ appendRowAtKey_ SH_ITEMS "ItemID"
          {[ "ItemID" := VStr "C"; "Shelf" := VNum 7 ]} sampleSpreadsheet
        = Ok (<[SH_ITEMS := sh']> sampleSpreadsheet)
      ∧ cellAt sh' r 1 = stored (VStr "C")
      ∧ cellAt sh' r 3 = cellAt sampleItems r 3.
Proof.
  assert (sampleSpreadsheet !! SH_ITEMS = Some sampleItems) as Hsh by reflexivity.
  assert (VStr "ItemID" ∈ getHeaders_ sampleItems) as Hin
    by (apply list_elem_of_lookup; exists 0; reflexivity).
  split; [done|]. split; [done|].
  destruct (appendRowAtKey_sparse_write SH_ITEMS "ItemID"
              {[ "ItemID" := VStr "C"; "Shelf" := VNum 7 ]}
              sampleSpreadsheet sampleItems Hsh Hin)
    as (r & sh' & Hr & Happ & Hset & Hframe).
  exists r, sh'. split; [done|]. split; [done|]. split.
  - apply (Hset "ItemID"); reflexivity.
  - apply Hframe. right. intros h [v Hv].
    apply lookup_insert_Some in Hv as [[<- _]|[_ Hv]]; [by vm_compute|].
    apply lookup_singleton_Some in Hv as [<- _]. by vm_compute.
Defined.

Lemma savePhotos_result_witness :
  truthy (VStr "BATCH-1") = true ∧ truthy (VStr "ITM-1") = true
  ∧ (savePhotosDataUrls (Some (VStr "BATCH-1")) (Some (VStr "ITM-1")) [] batchWorld).1
    = Ok 0
  ∧ ∃ n, (savePhotosDataUrls (Some (VStr "BATCH-1")) (Some (VStr "ITM-1"))
            [photoOf (pngDataUrl "aGVsbG8="); photoOf "not an image"; None]
            batchWorld).1 = Ok n
         ∧ 0 ≤ n ≤ 3.
Proof.
  split; [reflexivity|]. split; [reflexivity|]. split.
  - apply (savePhotos_result (VStr "BATCH-1") (VStr "ITM-1") [] batchWorld);
      reflexivity.
  - apply (proj1 (proj2 (proj2 (savePhotos_result (VStr "BATCH-1") (VStr "ITM-1")
                           [photoOf (pngDataUrl "aGVsbG8="); photoOf "not an image"; None]
                           batchWorld eq_refl eq_refl))))
      with (folderId := "folder1"); done.
Defined.

Example savePhotos_sample_run :
  (savePhotosDataUrls (Some (VStr "BATCH-1")) (Some (VStr "ITM-1"))
     [photoOf (pngDataUrl "aGVsbG8="); photoOf "not an image"; None] batchWorld).1
  = Ok 1.
Proof. vm_compute. reflexivity. Qed.

Example decodableCount_sample :
  decodableCount sampleEnv
    [photoOf (pngDataUrl "aGVsbG8="); photoOf "not an image"; None;
     photoOf "data:image/jpeg;base64,/9j/4AAQ"] = 2.
Proof. reflexivity. Qed.

Lemma savePhotos_skips_bad_entries_witness :
  (savePhotosDataUrls (Some (VStr "BATCH-1")) (Some (VStr "ITM-1"))
     [photoOf (pngDataUrl "aGVsbG8="); photoOf "not an image"] batchWorld).1 = Ok 1
  ∧ (savePhotosDataUrls (Some (VStr "BATCH-1")) (Some (VStr "ITM-1"))
       [photoOf "not an image"; photoOf (pngDataUrl "aGVsbG8=")] batchWorld).1 = Ok 1
  ∧ ∃ w',
      savePhotosDataUrls (Some (VStr "BATCH-1")) (Some (VStr "ITM-1"))
        [photoOf (pngDataUrl "aGVsbG8="); photoOf "not an image"; None;
         photoOf "data:image/jpeg;base64,/9j/4AAQ"] batchWorld
      = (Ok 2, w').
Proof.
  destruct (savePhotos_skips_bad_entries (VStr "ITM-1") "" "")
    as (_ & _ & _ & _ & Hall & Htwo).
  split; [|split].
  - apply (Htwo (VStr "BATCH-1") batchWorld "folder1" "aGVsbG8=" "aGVsbG8=" "not an image");
      try reflexivity; done.
  - apply (Htwo (VStr "BATCH-1") batchWorld "folder1" "aGVsbG8=" "aGVsbG8=" "not an image");
      try reflexivity; done.
  - destruct (Hall (VStr "BATCH-1")
                [photoOf (pngDataUrl "aGVsbG8="); photoOf "not an image"; None;
                 photoOf "data:image/jpeg;base64,/9j/4AAQ"] batchWorld "folder1")
      as (Hrun & _ & Hcount); [reflexivity | reflexivity | done | reflexivity | done
                               | reflexivity |].
    rewrite Hrun, Hcount; [|intros k; by eexists].
    eexists. f_equal.
Defined.

Example selection_flags_sample :
  selectionRecord "SEL-1" "ITM-1" None (selectionOf "UPH_FABRIC_DAMAGE" "REUPHOLSTERY NEEDED asap")
    !! "NeedsReupholstery" = Some (VStr "TRUE")
  ∧ selectionRecord "SEL-1" "ITM-1" None (selectionOf "UPH_FABRIC_DAMAGE" "REUPHOLSTERY NEEDED asap")
      !! "NeedsReplacement" = Some (VStr "FALSE")
  ∧ selectionRecord "SEL-1" "ITM-1" None (selectionOf "X" "replacement  needed")
      !! "NeedsReplacement" = Some (VStr "FALSE").
Proof. repeat split; reflexivity. Qed.

Lemma selection_needs_flags_witness :
  let ss := sampleSelections in
  let sh := headerSheet (HEADERS SH_SELECT) 3 in
  let row := selectionRecord "SEL-1" "ITM-1" None (selectionOf "X" "replacement Needed") in
  ContainsCI "Replacement needed" "replacement Needed"
  ∧ (∃ r sh', nextFreeRowByHeader_ sh "SelectionID" = Ok r
              ∧ appendRowAtKey_ SH_SELECT "SelectionID" row ss
                = Ok (<[SH_SELECT := sh']> ss)
              ∧ cellAt sh' r 18 = stored (VStr "TRUE"))
  ∧ ∃ out w' shS shS' rS cRepl cReuph,
      saveItem replacementPayload emptyWorld = (Ok out, w')
      ∧ itemSheetsEnsured ∅ !! SH_SELECT = Some shS
      ∧ nextFreeRowByHeader_ shS "SelectionID" = Ok rS
      ∧ w_ss w' !! SH_SELECT = Some shS'
      ∧ position (getHeaders_ shS') "NeedsReplacement" = Some cRepl
      ∧ position (getHeaders_ shS') "NeedsReupholstery" = Some cReuph
      ∧ valueAt shS' (rS + 0) cRepl = VStr "TRUE"
      ∧ valueAt shS' (rS + 0) cReuph = VStr "FALSE".
Proof.
  intros ss sh row.
  destruct (selection_needs_flags "SEL-1" "ITM-1" None (selectionOf "X" "replacement Needed"))
    as (Hrepl & _ & _ & Hreuph & Hcell & Hsave).
  assert (ContainsCI "Replacement needed" "replacement Needed") as Hyes
    by (by apply Hrepl).
  assert (¬ ContainsCI "Reupholstery needed" "replacement Needed") as Hno
    by (by apply Hreuph).
  split; [exact Hyes|]. split.
  - apply (Hcell ss sh "NeedsReplacement"); [reflexivity | | reflexivity | by vm_compute].
    apply list_elem_of_lookup. exists 0. by vm_compute.
  - destruct (Hsave replacementPayload emptyWorld (VStr "BATCH-1") 0)
      as (out & w' & shS & shS' & rS & cRepl & cReuph & Hrun & HshS & HrS & HshS'
          & Hc1 & Hc2 & Ht & _ & _ & Hf); [reflexivity | reflexivity | reflexivity |].
    exists out, w', shS, shS', rS, cRepl, cReuph.
    split; [exact Hrun|]. split; [exact HshS|]. split; [exact HrS|].
    split; [exact HshS'|]. split; [exact Hc1|]. split; [exact Hc2|].
    split; [apply Ht, Hyes | apply Hf, Hno].
Defined.

Example nextCode_sampleItems :
  nextCodeForBatch_ (VStr "b1") sampleSpreadsheet = "I002"
  ∧ nextCodeForBatch_ (VStr "b9") sampleSpreadsheet = "I001"
  ∧ nextCodeForBatch_ (VStr "b1") ∅ = "I001".
Proof. repeat split; vm_compute; reflexivity. Qed.

Lemma nextCode_sequential_witness :
  (itemsInBatch (VStr "b9") sampleSpreadsheet = 0
   ∧ nextCodeForBatch_ (VStr "b9") sampleSpreadsheet = "I001")
  ∧ (itemsInBatch (VStr "b1") sampleSpreadsheet = 1
     ∧ nextCodeForBatch_ (VStr "b1") sampleSpreadsheet = "I002")
  ∧ ∃ id1 w1 id2 w2,
      saveItem structDamagedBatchPayload emptyWorld = (Ok (id1, "I001"), w1)
      ∧ saveItem structDamagedBatchPayload w1 = (Ok (id2, "I002"), w2).
Proof.
  assert (itemsInBatch (VStr "b9") sampleSpreadsheet = 0) as H0 by reflexivity.
  assert (itemsInBatch (VStr "b1") sampleSpreadsheet = 1) as H1 by reflexivity.
  split; [split; [done|]|split; [split; [done|]|]].
  - apply (proj1 (proj2 (nextCode_sequential (VStr "b9") sampleSpreadsheet)) H0).
  - apply (proj1 (proj2 (proj2 (nextCode_sequential (VStr "b1") sampleSpreadsheet))) H1).
  - apply (proj2 (proj2 (proj2 (proj2 (nextCode_sequential (VStr "BATCH-1") ∅))))
             emptyWorld structDamagedBatchPayload structDamagedBatchPayload);
      reflexivity.
Defined.

Example getNote_sample :
  getNoteFromNotesRules_ (Some (VStr " Age")) sampleNotesSpreadsheet = "Age related wear"
  ∧ getNoteFromNotesRules_ (Some (VStr "rust")) sampleNotesSpreadsheet = ""
  ∧ getNoteFromNotesRules_ (Some (VStr "  ")) sampleNotesSpreadsheet = ""
  ∧ getNoteFromNotesRules_ None sampleNotesSpreadsheet = ""
  ∧ getNoteFromNotesRules_ (Some (VStr "age")) ∅ = "".
Proof. repeat split; vm_compute; reflexivity. Qed.

(** The lookup on a code that is not of the ASCII range, with no-break
    spaces around it. *)
Example getNote_accent_sample :
  getNoteFromNotesRules_ (Some (VStr " éclat ")) {[ "NotesRules" := accentNotesRules ]}
  = "Loss of gloss"
  ∧ toLowerCase "ÉCLAT ΟΔΟΣ" = "éclat οδος"
  ∧ trim "  éclat " = "éclat".
Proof. repeat split; vm_compute; reflexivity. Qed.


Lemma appendRowAtKey_next_row_witness :
  ∃ sh',
    appendRowAtKey_ SH_ITEMS "ItemID" {[ "ItemID" := VStr "C" ]} sampleSpreadsheet
    = Ok (<[SH_ITEMS := sh']> sampleSpreadsheet)
    ∧ nextFreeRowByHeader_ sampleItems "ItemID" = Ok 4
    ∧ nextFreeRowByHeader_ sh' "ItemID" = Ok 5.
Proof.
  destruct (appendRowAtKey_next_row SH_ITEMS "ItemID" {[ "ItemID" := VStr "C" ]}
              sampleSpreadsheet sampleItems 4)
    as (sh' & Happ & Hnext & _); [reflexivity | done | reflexivity |].
  exists sh'. split; [exact Happ|]. split; [reflexivity|].
  apply (Hnext (VStr "C")); [reflexivity | done].
Defined.

Example appendRowAtKey_errors_sample :
  appendRowAtKey_ SH_PHOTOS "PhotoID" ∅ sampleSpreadsheet = Throw "Missing sheet: Photos"
  ∧ appendRowAtKey_ SH_ITEMS "Title" ∅ sampleSpreadsheet
    = Throw "Key header not found: Title".
Proof. split; reflexivity. Qed.

Example getAll_sampleItems :
  getAll_ SH_ITEMS sampleSpreadsheet
  = [ {[ "ItemID" := VStr "A"; "BatchID" := VStr "b1"; "Code" := VStr "I001" ]};
      {[ "ItemID" := VStr "B"; "BatchID" := VStr "b2"; "Code" := VStr "I001" ]};
      {[ "ItemID" := VStr ""; "BatchID" := VStr ""; "Code" := VStr "x" ]} ].
Proof. by_compute. Qed.

Lemma getAll_reads_appended_row_witness :
  ∃ ss' row,
    appendRowAtKey_ SH_ITEMS "ItemID"
      {[ "ItemID" := VStr "C"; "Code" := VStr "I002" ]} sampleSpreadsheet = Ok ss'
    ∧ getAll_ SH_ITEMS ss' !! 2 = Some row
    ∧ row !! "Code" = Some (VStr "I002").
Proof.
  destruct (getAll_reads_appended_row SH_ITEMS "ItemID"
              {[ "ItemID" := VStr "C"; "Code" := VStr "I002" ]}
              sampleSpreadsheet sampleItems 4 (VStr "C"))
    as (ss' & row & Happ & Hrow & Hfields);
    [reflexivity | done | reflexivity | reflexivity | done |].
  exists ss', row. split; [exact Happ|]. split; [exact Hrow|].
  apply (Hfields "Code" (VStr "I002") 3); [done | reflexivity |].
  split; [reflexivity|]. intros c Hc.
  destruct c as [|[|[|[|[|c]]]]]; vm_compute in Hc; congruence.
Defined.

Lemma ensureSheet_creates_sheet_witness :
  (ensureSheet_ SH_BATCHES (HEADERS SH_BATCHES) ∅).1 !! SH_BATCHES
  = Some (ensureSheet_ SH_BATCHES (HEADERS SH_BATCHES) ∅).2
  ∧ getHeaders_ (ensureSheet_ SH_BATCHES (HEADERS SH_BATCHES) ∅).2
    = [VStr "BatchID"; VStr "Client"; VStr "StartDate"; VStr "Assessor"; VStr "Status"]
  ∧ nextFreeRowByHeader_ (ensureSheet_ SH_BATCHES (HEADERS SH_BATCHES) ∅).2 "BatchID"
    = Ok 2
  ∧ getAll_ SH_BATCHES (ensureSheet_ SH_BATCHES (HEADERS SH_BATCHES) ∅).1 = [].
Proof.
  destruct (ensureSheet_creates_sheet SH_BATCHES (HEADERS SH_BATCHES) ∅)
    as (Hsh & Hhead & _ & Hnext & Hall & _); [reflexivity | done | by_compute |].
  split; [exact Hsh|]. split; [exact Hhead|]. split; [|exact Hall].
  apply Hnext. by_compute.
Defined.

Lemma ensureSheet_blank_sheet_shifts_header_witness :
  getHeaders_ (ensureSheet_ SH_BATCHES (HEADERS SH_BATCHES)
                 {[ SH_BATCHES := blankSheet ]}).2
  = [VStr ""; VStr "BatchID"; VStr "Client"; VStr "StartDate"; VStr "Assessor";
     VStr "Status"]
  ∧ cellAt (ensureSheet_ SH_BATCHES (HEADERS SH_BATCHES)
              {[ SH_BATCHES := blankSheet ]}).2 1 1 = None.
Proof.
  destruct (ensureSheet_blank_sheet_shifts_header SH_BATCHES (HEADERS SH_BATCHES)
              {[ SH_BATCHES := blankSheet ]} blankSheet)
    as (_ & _ & Hhead & Hfirst & _);
    [reflexivity | intros r c; unfold cellAt; by destruct (inGrid blankSheet r c)
     | by_compute |].
  split; [exact Hhead | exact Hfirst].
Defined.

Example initializeDatabase_sample :
  let out := initializeDatabase "https://sheet" (fun _ => 7) sampleSpreadsheet in
  out.2.2 !! SH_PHOTOS = Some "https://sheet#gid=7"
  ∧ getHeaders_ <$> (out.1 !! SH_ITEMS)
    = Some (VStr <$> ["ItemID"; "BatchID"; "Code"; "PerilType"; "ImpactLevel"; "Type";
                      "Title"; "Artist"; "Material"; "Date"; "Dimensions"; "Features";
                      "HistoricIssuesPresent"; "HistoricCode"; "HistoricNotes";
                      "TreatmentTimeMinutes"; "TreatmentTimeUnit"; "TreatmentTime";
                      "AdditionalNotes"; "OtherNotes"; "Notes"; "CreatedAt"]).
Proof. split; by_compute. Qed.

Example toId_share_link :
  toId (Some (VStr "https://drive.google.com/file/d/1YUu6YPSWh87doniA_jLeyXCY78thYr2r/view?usp=sharing"))
  = Some "1YUu6YPSWh87doniA_jLeyXCY78thYr2r"
  ∧ toId (Some (VStr "1YUu6YPSWh87doniA_jLeyXCY78thYr2r"))
    = Some "1YUu6YPSWh87doniA_jLeyXCY78thYr2r"
  ∧ toId (Some (VStr "1eIuMV6mIUTFK3JBD6ps")) = None
  ∧ toId (Some (VStr "")) = None
  ∧ toId None = None.
Proof. repeat split; reflexivity. Qed.

Example mimeFor_samples :
  mimeFor (VStr "GillSans-Light.WOFF2") = "font/woff2"
  ∧ mimeFor (VStr "begum.woff") = "font/woff"
  ∧ mimeFor (VStr "begum.otf.bak") = "application/octet-stream"
  ∧ mimeFor (VStr "ttf") = "application/octet-stream".
Proof. repeat split; reflexivity. Qed.

Example fontLoop_sample :
  fontLoop sampleAssets
    [("gillLight", VStr "https://drive.google.com/file/d/1YUu6YPSWh87doniA_jLeyXCY78thYr2r/view");
     ("begum", VStr "")] ∅
  = Ok {[ "gillLight" := "data:font/woff2;base64,b64:abc" ]}
  ∧ ∃ msg, fontLoop sampleAssets
             [("begum", VStr "1gfEfjzozzvJWJgYP-Er-zG1ZJ8Nc0FpxDH")] ∅ = Throw msg.
Proof. split; [reflexivity | eexists; reflexivity]. Qed.

Example getLogoDataUrl_sample :
  getLogoDataUrl_ sampleAssets emptyWorld
  = (Ok "", console_error "getLogoDataUrl_ failed"
              "No item with the given ID could be found." emptyWorld).
Proof. reflexivity. Qed.

Lemma ensureClientFolder_one_folder_per_name_witness :
  let f := {| d_parent := PHOTOS_ROOT_ID; d_name := "Acme"; d_id := "folder0" |} in
  let d' := {| dr_folders := [f]; dr_newId := dr_newId sampleDrive |} in
  ensureClientFolder_ PHOTOS_ROOT_ID (Some (VStr " Acme ")) sampleDrive emptyWorld
  = (Ok (f, d'), emptyWorld)
  ∧ ensureClientFolder_ PHOTOS_ROOT_ID (Some (VStr "Acme")) d' emptyWorld
    = (Ok (f, d'), emptyWorld).
Proof.
  assert (ensureClientFolder_ PHOTOS_ROOT_ID (Some (VStr " Acme ")) sampleDrive
            emptyWorld
          = (Ok ({| d_parent := PHOTOS_ROOT_ID; d_name := "Acme"; d_id := "folder0" |},
                 {| dr_folders := [{| d_parent := PHOTOS_ROOT_ID; d_name := "Acme";
                                      d_id := "folder0" |}];
                    dr_newId := dr_newId sampleDrive |}), emptyWorld)) as Hrun
    by reflexivity.
  split; [exact Hrun|].
  apply (ensureClientFolder_one_folder_per_name PHOTOS_ROOT_ID
           (Some (VStr " Acme ")) (Some (VStr "Acme")) _ _ _ _ _ Hrun).
  reflexivity.
Defined.

Lemma newBatch_records_batch_witness :
  ∃ folder d' w',
    newBatch (Some (VStr "Acme")) (Some (VStr "Ann")) sampleDrive batchesWorld
    = (Ok ("BATCH-20240101-0", d_id folder), (w', d'))
    ∧ d_name folder = "Acme"
    ∧ w_props w' !! "PHOTOS_BATCH-20240101-0" = Some (d_id folder)
    ∧ w_props w' !! "CLIENT_BATCH-20240101-0" = Some "Acme".
Proof.
  destruct (newBatch_records_batch "Acme" (VStr "Ann") sampleDrive batchesWorld)
    as (folder & d' & w' & sh & r & Hrun & _ & Hname & _ & Hclient & Hphotos & _);
    [done | reflexivity | reflexivity | right; by eexists |].
  exists folder, d', w'. split; [exact Hrun|]. split; [exact Hname|].
  split; [exact Hphotos | exact Hclient].
Defined.

Lemma newBatch_reuses_client_folder_witness :
  let first := newBatch (Some (VStr "Acme")) (Some (VStr "Ann")) sampleDrive batchesWorld in
  first.1 = Ok ("BATCH-20240101-0", "folder0")
  ∧ ∃ batchId2 w2,
      newBatch (Some (VStr " Acme")) (Some (VStr "Bob")) first.2.2 first.2.1
      = (Ok (batchId2, "folder0"), (w2, first.2.2)).
Proof.
  split; [reflexivity|].
  apply (newBatch_reuses_client_folder "Acme" " Acme" (VStr "Ann") (VStr "Bob")
           sampleDrive _ batchesWorld _ "BATCH-20240101-0" "folder0");
    [reflexivity | done | reflexivity | reflexivity].
Defined.

Lemma newBatch_enables_photos_witness :
  let first := newBatch (Some (VStr "Acme")) (Some (VStr "Ann")) sampleDrive batchesWorld in
  first.1 = Ok ("BATCH-20240101-0", "folder0")
  ∧ (∃ n, (savePhotosDataUrls (Some (VStr "BATCH-20240101-0")) (Some (VStr "ITM-1"))
             [photoOf (pngDataUrl "aGVsbG8=")] first.2.1).1 = Ok n
          ∧ n ≤ 1)
  ∧ (savePhotosDataUrls (Some (VStr "BATCH-20240101-0")) (Some (VStr "ITM-1"))
       [photoOf (pngDataUrl "aGVsbG8=")] batchesWorld).1
    = Throw "Photo folder not configured for this batch.".
Proof.
  split; [reflexivity|].
  destruct (newBatch_enables_photos "Acme" (VStr "Ann") sampleDrive
              (newBatch (Some (VStr "Acme")) (Some (VStr "Ann")) sampleDrive
                 batchesWorld).2.2
              batchesWorld
              (newBatch (Some (VStr "Acme")) (Some (VStr "Ann")) sampleDrive
                 batchesWorld).2.1
              "BATCH-20240101-0" "folder0" (VStr "ITM-1")
              [photoOf (pngDataUrl "aGVsbG8=")])
    as [Hok Hthrow]; [reflexivity | reflexivity | done | done | reflexivity |].
  split; [exact Hok|]. apply Hthrow. reflexivity.
Defined.

Example savePhotos_two_entries_run :
  (savePhotosDataUrls (Some (VStr "BATCH-1")) (Some (VStr "ITM-1"))
     [photoOf (pngDataUrl "aGVsbG8="); photoOf "not an image"] batchWorld).1 = Ok 1.
Proof. vm_compute. reflexivity. Qed.

Lemma savePhotos_counted_have_file_and_row_witness :
  ∃ w' new,
    savePhotosDataUrls (Some (VStr "BATCH-1")) (Some (VStr "ITM-1"))
      [photoOf (pngDataUrl "aGVsbG8="); photoOf "not an image"] batchWorld
    = (Ok 1, w')
    ∧ w_files w' = w_files batchWorld ++ new ∧ 1 ≤ length new.
Proof.
  pose proof savePhotos_two_entries_run as Hcount.
  destruct (savePhotosDataUrls (Some (VStr "BATCH-1")) (Some (VStr "ITM-1"))
              [photoOf (pngDataUrl "aGVsbG8="); photoOf "not an image"] batchWorld)
    as [res w'] eqn:Hrun.
  cbn [fst] in Hcount. subst res.
  destruct (savePhotos_counted_have_file_and_row (Some (VStr "BATCH-1"))
              (Some (VStr "ITM-1"))
              [photoOf (pngDataUrl "aGVsbG8="); photoOf "not an image"] batchWorld
              w' 1 Hrun)
    as (new & Hfiles & Hlen & _).
  exists w', new. split; [reflexivity|]. split; [exact Hfiles | exact Hlen].
Defined.

Lemma saveItem_succeeds_witness :
  ∃ w',
    saveItem structDamagedBatchPayload emptyWorld
    = (Ok ("ITM-uuid0-00",
           nextCodeForBatch_ (VStr "BATCH-1") (itemSheetsEnsured ∅)), w')
    ∧ w_tick w' = 3 ∧ w_log w' = [].
Proof.
  destruct (saveItem_succeeds structDamagedBatchPayload emptyWorld (VStr "BATCH-1"))
    as (w' & Hrun & Htick & _ & _ & Hlog & _); [reflexivity | reflexivity |].
  exists w'. split; [exact Hrun|]. split; [exact Htick | exact Hlog].
Defined.

Lemma saveItem_writes_rows_witness :
  ∃ w' shI' shS' rI rS,
    saveItem structDamagedBatchPayload emptyWorld
    = (Ok ("ITM-uuid0-00",
           nextCodeForBatch_ (VStr "BATCH-1") (itemSheetsEnsured ∅)), w')
    ∧ w_ss w' !! SH_ITEMS = Some shI' ∧ w_ss w' !! SH_SELECT = Some shS'
    ∧ nextFreeRowByHeader_ shI' "ItemID" = Ok (rI + 1)
    ∧ nextFreeRowByHeader_ shS' "SelectionID" = Ok (rS + 1).
Proof.
  destruct (saveItem_writes_rows structDamagedBatchPayload emptyWorld (VStr "BATCH-1"))
    as (w' & shI & shS & shI' & shS' & rI & rS & Hrun & _ & _ & _ & _ & HshI' & HshS'
        & HnextI & HnextS & _); [reflexivity | reflexivity |].
  exists w', shI', shS', rI, rS.
  split; [exact Hrun|]. split; [exact HshI'|]. split; [exact HshS'|].
  split; [exact HnextI | exact HnextS].
Defined.

Lemma getNote_ignores_case_and_spaces_witness :
  getNoteFromNotesRules_ (Some (VStr " éclat")) {[ "NotesRules" := accentNotesRules ]}
  = getNoteFromNotesRules_ (Some (VStr "ÉCLAT ")) {[ "NotesRules" := accentNotesRules ]}.
Proof.
  destruct (getNote_ignores_case_and_spaces " éclat" "ÉCLAT "
              {[ "NotesRules" := accentNotesRules ]}) as [Hsame _];
    [vm_compute; reflexivity | exact Hsame].
Defined.

Lemma appendRow_key_order_irrelevant_witness :
  let obj : gmap string value := {[ "ItemID" := VStr "C"; "Code" := VStr "I002" ]} in
  let sh1 := writeKeys (getHeaders_ sampleItems) 4 (reverse (map_to_list obj))
               sampleItems in
  let sh2 := writeKeys (getHeaders_ sampleItems) 4 (map_to_list obj) sampleItems in
  cellAt sh1 4 1 = cellAt sh2 4 1
  ∧ cellAt sh1 4 3 = cellAt sh2 4 3
  ∧ getHeaders_ sh1 = getHeaders_ sh2
  ∧ nextFreeRowByHeader_ sh1 "ItemID" = nextFreeRowByHeader_ sh2 "ItemID".
Proof.
  destruct (appendRow_key_order_irrelevant (getHeaders_ sampleItems) 4
              {[ "ItemID" := VStr "C"; "Code" := VStr "I002" ]}
              (reverse (map_to_list
                          ({[ "ItemID" := VStr "C"; "Code" := VStr "I002" ]}
                             : gmap string value)))
              sampleItems)
    as (Hcells & Hhead & Hnext); [lia | apply reverse_Permutation |].
  split; [apply Hcells|]. split; [apply Hcells|]. split; [exact Hhead | apply Hnext].
Defined.

Lemma savePhoto_links_row_to_file_witness :
  ∃ w' sh',
    savePhoto (VStr "ITM-1") "20240101-0" "folder1" 0
      (photoOf (pngDataUrl "aGVsbG8=")) batchWorld = (Ok true, w')
    ∧ w_files w'
      = [{| f_folder := "folder1"; f_name := "ITM-1-20240101-0-01.png";
            f_contentType := "image/png"; f_bytes := "aGVsbG8="; f_id := "file0" |}]
    ∧ w_ss w' !! SH_PHOTOS = Some sh'
    ∧ cellAt sh' 2 3 = stored (VStr "file0").
Proof.
  destruct (savePhoto_links_row_to_file (VStr "ITM-1") "20240101-0" "folder1" 0
              {| ph_dataUrl := Some (VStr (pngDataUrl "aGVsbG8=")) |} batchWorld
              "image/png" "aGVsbG8=" "aGVsbG8=" "file0"
              (headerSheet (HEADERS SH_PHOTOS) 4) 2)
    as (w' & sh' & Hrun & Hfiles & Hsh' & Himage & _);
    [reflexivity | reflexivity | reflexivity | reflexivity | reflexivity |].
  exists w', sh'. split; [exact Hrun|]. split; [exact Hfiles|].
  split; [exact Hsh'|]. apply Himage. reflexivity.
Defined.

Lemma saveItem_notes_from_rules_only_witness :
  buildNotes_ structDamagedBatchPayload ≠ ""
  ∧ ∃ out w' shI shI' rI c,
      saveItem structDamagedBatchPayload emptyWorld = (Ok out, w')
      ∧ itemSheetsEnsured ∅ !! SH_ITEMS = Some shI
      ∧ nextFreeRowByHeader_ shI "ItemID" = Ok rI
      ∧ w_ss w' !! SH_ITEMS = Some shI'
      ∧ position (getHeaders_ shI) "Notes" = Some c
      ∧ cellAt shI' rI c = None.
Proof.
  split; [by vm_compute|].
  destruct (saveItem_notes_from_rules_only structDamagedBatchPayload emptyWorld
              (VStr "BATCH-1"))
    as (out & w' & shI & shI' & rI & c & Hrun & HshI & HrI & HshI' & Hc & _ & Hnone);
    [reflexivity | reflexivity |].
  exists out, w', shI, shI', rI, c.
  split; [exact Hrun|]. split; [exact HshI|]. split; [exact HrI|].
  split; [exact HshI'|]. split; [exact Hc|]. apply Hnone. reflexivity.
Defined.
